(** * outlookscraper: the extraction-to-structured-event pipeline

    A shallow embedding of [outlook_web.py]: the extraction scripts and the
    deduplication loop at the end of [get_calendar_events], [parse_event],
    [events_to_ical], [events_to_json], [post_to_url], [get_credentials]
    and [main], and of [create_ssl_context] of [test_mtls.py], together
    with the parts of the Python standard library they call ([str] methods,
    [re], [int], [datetime], [json], [hashlib.md5]).  The browser, the file
    system, [ssl] and [httpx] are the outside world: what the program asks
    of them is recorded, and what they answer is a parameter.

    A Python [str] is modelled as a Rocq [string] whose characters are the
    code points U+0000..U+00FF; the character classes below are the ones
    CPython uses on that range. *)

From Stdlib Require Import ZArith Ascii String.
From stdpp Require Import gmap strings list sorting.

Local Open Scope string_scope.
Local Open Scope list_scope.
Local Open Scope Z_scope.

(** ** Python [str] primitives *)

Module Str.

Definition code (c : ascii) : Z := Z.of_N (N_of_ascii c).

Definition in_range (lo hi : Z) (c : ascii) : bool :=
  (lo <=? code c) && (code c <=? hi).

(** [str.isspace] on one character, which is also the class [\s] of [re]. *)
Definition is_space (c : ascii) : bool :=
  in_range 9 13 c || in_range 28 32 c || (code c =? 133) || (code c =? 160).

(** The class [\d] of [re]. *)
Definition is_digit (c : ascii) : bool := in_range 48 57 c.

(** The class [\w] of [re]: alphanumeric characters and the underscore. *)
Definition is_word (c : ascii) : bool :=
  is_digit c || in_range 65 90 c || in_range 97 122 c || (code c =? 95)
  || (code c =? 170) || (code c =? 178) || (code c =? 179) || (code c =? 181)
  || (code c =? 185) || (code c =? 186) || in_range 188 190 c
  || in_range 192 214 c || in_range 216 246 c || in_range 248 255 c.

(** [str.lower] on one character. *)
Definition lower_char (c : ascii) : ascii :=
  if in_range 65 90 c || (in_range 192 222 c && negb (code c =? 215))
  then ascii_of_N (Z.to_N (code c + 32))
  else c.

Fixpoint lower (s : string) : string :=
  match s with
  | EmptyString => EmptyString
  | String c s' => String (lower_char c) (lower s')
  end.

Definition len (s : string) : Z := Z.of_nat (String.length s).

(** [s.startswith(p)] *)
Fixpoint startswith (p s : string) : bool :=
  match p, s with
  | EmptyString, _ => true
  | String a p', String b s' => Ascii.eqb a b && startswith p' s'
  | String _ _, EmptyString => false
  end.

(** [sub in s] *)
Fixpoint contains (sub s : string) : bool :=
  startswith sub s ||
  match s with
  | EmptyString => false
  | String _ s' => contains sub s'
  end.

(** [s.split(sep)] for a one-character separator. *)
Fixpoint split (sep : ascii) (s : string) : list string :=
  match s with
  | EmptyString => [EmptyString]
  | String c s' =>
      if Ascii.eqb c sep then EmptyString :: split sep s'
      else match split sep s' with
           | h :: t => String c h :: t
           | [] => [String c EmptyString]
           end
  end.

Fixpoint lstrip (s : string) : string :=
  match s with
  | EmptyString => EmptyString
  | String c s' => if is_space c then lstrip s' else s
  end.

Fixpoint rstrip (s : string) : string :=
  match s with
  | EmptyString => EmptyString
  | String c s' =>
      match rstrip s' with
      | EmptyString => if is_space c then EmptyString else String c EmptyString
      | r => String c r
      end
  end.

(** [s.strip()] *)
Definition strip (s : string) : string := rstrip (lstrip s).

(** [s[n:]] *)
Fixpoint drop (n : nat) (s : string) : string :=
  match n, s with
  | O, _ => s
  | S n', String _ s' => drop n' s'
  | S _, EmptyString => EmptyString
  end.

(** Truth value of a string ([if s:]). *)
Definition truthy (s : string) : bool :=
  match s with EmptyString => false | _ => true end.

(** [s.replace(old, new)] for a non-empty [old]: [skip] counts the
    characters of a replaced occurrence that are still to be dropped. *)
Fixpoint replace_from (old new : string) (skip : nat) (s : string) : string :=
  match s with
  | EmptyString => EmptyString
  | String c s' =>
      match skip with
      | S n => replace_from old new n s'
      | O =>
          if startswith old s
          then new +:+ replace_from old new (String.length old - 1) s'
          else String c (replace_from old new O s')
      end
  end.

Definition replace (old new s : string) : string := replace_from old new O s.

(** [sep.join(l)] *)
Fixpoint join (sep : string) (l : list string) : string :=
  match l with
  | [] => EmptyString
  | [x] => x
  | x :: l' => x +:+ sep +:+ join sep l'
  end.

End Str.

(** ** Exceptions *)

Inductive exn : Type := ValueError | AttributeError | OverflowError | TypeError.

Inductive result (A : Type) : Type :=
| Ok (a : A)
| Raise (e : exn).
Arguments Ok {A} a.
Arguments Raise {A} e.

#[global] Instance result_ret : MRet result := fun A a => Ok a.

#[global] Instance result_bind : MBind result := fun A B f r =>
  match r with
  | Ok a => f a
  | Raise e => Raise e
  end.

(** ** The fragment of [re] the program uses

    Python's [re] is a backtracking matcher: alternatives are tried from
    left to right, repetitions are greedy and give characters back one at
    a time.  Every repetition in the program's patterns ranges over a
    single character class, which is what [Rep] covers. *)

Module Re.

Inductive regex : Type :=
| Lit (s : string)                                   (* literal text *)
| Rep (cls : ascii -> bool) (lo : nat) (hi : option nat)
                                                     (* cls{lo,hi}, greedy *)
| Seq (r1 r2 : regex)
| Alt (r1 r2 : regex)
| Grp (n : nat) (r : regex).                         (* capturing group n *)

(** A match object: the captured groups, most recent binding first. *)
Definition groups : Type := list (nat * string).

Fixpoint group (n : nat) (g : groups) : option string :=
  match g with
  | [] => None
  | (m, s) :: g' => if Nat.eqb m n then Some s else group n g'
  end.

Definition plus (cls : ascii -> bool) : regex := Rep cls 1 None.
Definition star (cls : ascii -> bool) : regex := Rep cls 0 None.
Definition opt_char (c : ascii) : regex := Rep (Ascii.eqb c) 0 (Some 1%nat).

Fixpoint drop_prefix (p s : string) : option string :=
  match p, s with
  | EmptyString, _ => Some s
  | String a p', String b s' => if Ascii.eqb a b then drop_prefix p' s' else None
  | String _ _, EmptyString => None
  end.

Definition can_take (hi : option nat) : bool :=
  match hi with Some O => false | _ => true end.

Definition dec_hi (hi : option nat) : option nat :=
  match hi with Some n => Some (Nat.pred n) | None => None end.

(** Greedy repetition of a class: take a character when allowed, and
    fall back to stopping here when the rest fails. *)
Fixpoint rep {R : Type} (cls : ascii -> bool) (lo : nat) (hi : option nat)
    (s : string) (k : string -> option R) : option R :=
  let stop := match lo with O => k s | S _ => None end in
  match s with
  | String c s' =>
      if can_take hi && cls c then
        match rep cls (Nat.pred lo) (dec_hi hi) s' k with
        | Some r => Some r
        | None => stop
        end
      else stop
  | EmptyString => stop
  end.

(** The text consumed between the input [s] and its suffix [s']. *)
Definition consumed (s s' : string) : string :=
  String.substring 0 (String.length s - String.length s')%nat s.

Fixpoint run {R : Type} (r : regex) (s : string) (g : groups)
    (k : string -> groups -> option R) : option R :=
  match r with
  | Lit p =>
      match drop_prefix p s with
      | Some s' => k s' g
      | None => None
      end
  | Rep cls lo hi => rep cls lo hi s (fun s' => k s' g)
  | Seq r1 r2 => run r1 s g (fun s' g' => run r2 s' g' k)
  | Alt r1 r2 =>
      match run r1 s g k with
      | Some x => Some x
      | None => run r2 s g k
      end
  | Grp n r1 => run r1 s g (fun s' g' => k s' ((n, consumed s s') :: g'))
  end.

(** [re.match(r, s)]: anchored at the start of [s]. *)
Definition rmatch (r : regex) (s : string) : option groups :=
  run r s [] (fun _ g => Some g).

(** [re.search(r, s)]: the leftmost position where [r] matches. *)
Fixpoint search (r : regex) (s : string) : option groups :=
  match rmatch r s with
  | Some g => Some g
  | None =>
      match s with
      | EmptyString => None
      | String _ s' => search r s'
      end
  end.

End Re.

(** ** [int] and [datetime] *)

(** [sys.int_info.default_max_str_digits]: [int] refuses longer digit
    strings with a [ValueError] (CPython 3.11 and later). *)
Definition int_max_str_digits : Z := 4300.

Definition digit_value (c : ascii) : Z := Str.code c - 48.

Fixpoint int_digits (acc : Z) (s : string) : option Z :=
  match s with
  | EmptyString => Some acc
  | String c s' =>
      if Str.is_digit c then int_digits (10 * acc + digit_value c) s' else None
  end.

(** [int(s)] on the strings the program passes to it, which are digit
    strings captured by [\d]: a leading zero is accepted, and anything that
    is not a non-empty digit string is a [ValueError]. *)
Definition int_ (s : string) : result Z :=
  if int_max_str_digits <? Str.len s then Raise ValueError
  else match s with
       | EmptyString => Raise ValueError
       | _ => match int_digits 0 s with
              | Some n => Ok n
              | None => Raise ValueError
              end
       end.

(** [int(m.group(n))]: a group that took no part in the match is [None],
    on which [int] raises [TypeError]. *)
Definition int_group (o : option string) : result Z :=
  match o with
  | Some s => int_ s
  | None => Raise TypeError
  end.

(** A naive [datetime].  [parse_event] builds its values with five
    arguments, which leaves [second] and [microsecond] at 0; the clock
    ([datetime.now]) fills all seven. *)
Record datetime : Type := mk_datetime {
  year : Z; month : Z; day : Z;
  hour : Z; minute : Z; second : Z; microsecond : Z
}.

Definition is_leap (y : Z) : bool :=
  (y mod 4 =? 0) && (negb (y mod 100 =? 0) || (y mod 400 =? 0)).

Definition days_in_month (y m : Z) : Z :=
  if m =? 2 then (if is_leap y then 29 else 28)
  else if (m =? 4) || (m =? 6) || (m =? 9) || (m =? 11) then 30
  else 31.

(** The constructor takes its arguments as C [int]s. *)
Definition INT_MAX : Z := 2147483647.
Definition INT_MIN : Z := -2147483648.

Definition fits_c_int (n : Z) : bool := (INT_MIN <=? n) && (n <=? INT_MAX).

(** [datetime(y, m, d, H, M)]: an argument that does not fit a C [int] is
    an [OverflowError] raised while the arguments are read; a field out of
    its range is a [ValueError]. *)
Definition datetime_new (y m d H M : Z) : result datetime :=
  if negb (fits_c_int y && fits_c_int m && fits_c_int d
           && fits_c_int H && fits_c_int M)
  then Raise OverflowError
  else if negb ((1 <=? y) && (y <=? 9999)) then Raise ValueError
  else if negb ((1 <=? m) && (m <=? 12)) then Raise ValueError
  else if negb ((1 <=? d) && (d <=? days_in_month y m)) then Raise ValueError
  else if negb ((0 <=? H) && (H <=? 23)) then Raise ValueError
  else if negb ((0 <=? M) && (M <=? 59)) then Raise ValueError
  else Ok (mk_datetime y m d H M 0 0).

(** Comparison of naive datetimes: lexicographic on the seven fields. *)
Definition dt_key (t : datetime) : list Z :=
  [year t; month t; day t; hour t; minute t; second t; microsecond t].

Fixpoint lex_leb (a b : list Z) : bool :=
  match a, b with
  | [], _ => true
  | _ :: _, [] => false
  | x :: a', y :: b' => (x <? y) || ((x =? y) && lex_leb a' b')
  end.

Definition dt_leb (s e : datetime) : bool := lex_leb (dt_key s) (dt_key e).

(** ** [parse_event] *)

(** The dictionary [parse_event] returns. *)
Record event : Type := mk_event {
  title : string;
  start : datetime;
  end_ : datetime;
  all_day : bool;
  raw : string
}.

Import Re.

(** [(Monday|Tuesday|Wednesday|Thursday|Friday|Saturday|Sunday)] *)
Definition weekday_re : regex :=
  Grp 1 (Alt (Lit "Monday") (Alt (Lit "Tuesday") (Alt (Lit "Wednesday")
        (Alt (Lit "Thursday") (Alt (Lit "Friday") (Alt (Lit "Saturday")
        (Lit "Sunday"))))))).

(** [(\w+day),?\s+(\w+)\s+(\d+),?\s+(\d{4})] *)
Definition date_re : regex :=
  Seq (Grp 1 (Seq (plus Str.is_word) (Lit "day")))
  (Seq (opt_char ",")
  (Seq (plus Str.is_space)
  (Seq (Grp 2 (plus Str.is_word))
  (Seq (plus Str.is_space)
  (Seq (Grp 3 (plus Str.is_digit))
  (Seq (opt_char ",")
  (Seq (plus Str.is_space)
       (Grp 4 (Rep Str.is_digit 4 (Some 4%nat)))))))))).

(** [(\d{1,2}):(\d{2})\s*(AM|PM)\s+to\s+(\d{1,2}):(\d{2})\s*(AM|PM)] *)
Definition time_re : regex :=
  Seq (Grp 1 (Rep Str.is_digit 1 (Some 2%nat)))
  (Seq (Lit ":")
  (Seq (Grp 2 (Rep Str.is_digit 2 (Some 2%nat)))
  (Seq (star Str.is_space)
  (Seq (Grp 3 (Alt (Lit "AM") (Lit "PM")))
  (Seq (plus Str.is_space)
  (Seq (Lit "to")
  (Seq (plus Str.is_space)
  (Seq (Grp 4 (Rep Str.is_digit 1 (Some 2%nat)))
  (Seq (Lit ":")
  (Seq (Grp 5 (Rep Str.is_digit 2 (Some 2%nat)))
  (Seq (star Str.is_space)
       (Grp 6 (Alt (Lit "AM") (Lit "PM")))))))))))))).

Definition month_map : gmap string Z :=
  list_to_map
    [("January", 1); ("February", 2); ("March", 3); ("April", 4);
     ("May", 5); ("June", 6); ("July", 7); ("August", 8);
     ("September", 9); ("October", 10); ("November", 11); ("December", 12)].

(** The three tests of the scanning loop, in the order of its [if]/[elif]. *)
Definition is_time_marker (part : string) : bool :=
  Str.contains " to " part && (Str.contains "AM" part || Str.contains "PM" part).

Definition is_all_day_marker (part : string) : bool :=
  Str.contains "all day" (Str.lower part).

Definition is_weekday_marker (part : string) : bool :=
  match rmatch weekday_re part with Some _ => true | None => false end.

(** The local variables the loop assigns. *)
Record scan_state : Type := mk_scan {
  time_part : option string;
  date_part : option string;
  all_day_flag : bool
}.

Definition scan_init : scan_state := mk_scan None None false.

(** The date text built at index [i]: this segment and the next two, the
    next one, or this segment alone, by what [parts] still holds. *)
Definition build_date_part (parts : list string) (i : nat) (part : string) : string :=
  if decide (i + 2 < length parts)%nat then
    part +:+ ", " +:+ default "" (parts !! (i + 1)%nat) +:+ ", "
         +:+ default "" (parts !! (i + 2)%nat)
  else if decide (i + 1 < length parts)%nat then
    part +:+ ", " +:+ default "" (parts !! (i + 1)%nat)
  else part.

(** [for i, part in enumerate(parts[1:], 1)]: [rest] is what is left of
    [parts[1:]] and [i] the index of its head in [parts]; returning without
    the recursive call is the [break]. *)
Fixpoint scan (parts : list string) (i : nat) (rest : list string)
    (st : scan_state) : scan_state :=
  match rest with
  | [] => st
  | part :: rest' =>
      if is_time_marker part then
        scan parts (S i) rest'
             (mk_scan (Some part) (date_part st) (all_day_flag st))
      else if is_all_day_marker part then
        scan parts (S i) rest' (mk_scan (time_part st) (date_part st) true)
      else if is_weekday_marker part then
        mk_scan (time_part st) (Some (build_date_part parts i part))
                (all_day_flag st)
      else scan parts (S i) rest' st
  end.

(** The 12-hour to 24-hour adjustment made to each of the two hours. *)
Definition to_24h (ampm : option string) (h : Z) : Z :=
  if bool_decide (ampm = Some "PM") && negb (h =? 12) then h + 12
  else if bool_decide (ampm = Some "AM") && (h =? 12) then 0
  else h.

Definition opt_truthy (o : option string) : bool :=
  match o with Some s => Str.truthy s | None => false end.

(** The body of the [try] block. *)
Definition parse_date_time (title raw : string) (st : scan_state)
    (dp : string) : result (option event) :=
  match search date_re dp with
  | None => Ok None
  | Some date_match =>
      let month_name := group 2 date_match in
      day ← int_group (group 3 date_match);
      year ← int_group (group 4 date_match);
      let month := default 1 (month_name ≫= (month_map !!.)) in
      if all_day_flag st then
        start_dt ← datetime_new year month day 0 0;
        end_dt ← datetime_new year month day 23 59;
        Ok (Some (mk_event title start_dt end_dt (all_day_flag st) raw))
      else if opt_truthy (time_part st) then
        match rmatch time_re (default "" (time_part st)) with
        | Some time_match =>
            start_hour ← int_group (group 1 time_match);
            start_min ← int_group (group 2 time_match);
            let start_ampm := group 3 time_match in
            end_hour ← int_group (group 4 time_match);
            end_min ← int_group (group 5 time_match);
            let end_ampm := group 6 time_match in
            let start_hour := to_24h start_ampm start_hour in
            let end_hour := to_24h end_ampm end_hour in
            start_dt ← datetime_new year month day start_hour start_min;
            end_dt ← datetime_new year month day end_hour end_min;
            Ok (Some (mk_event title start_dt end_dt (all_day_flag st) raw))
        | None => Ok None
        end
      else Ok None
  end.

(** [except (ValueError, AttributeError): return None] *)
Definition catch_value_attribute {A : Type} (r : result (option A)) : result (option A) :=
  match r with
  | Raise ValueError | Raise AttributeError => Ok None
  | _ => r
  end.

Definition parse_event (raw : string) : result (option event) :=
  let parts := Str.strip <$> Str.split "," raw in
  if decide (length parts < 3)%nat then Ok None
  else
    let title := default "" (parts !! 0%nat) in
    if Str.startswith "calendar view" title || Str.startswith "current time" title
    then Ok None
    else
      let st := scan parts 1 (drop 1 parts) scan_init in
      if negb (opt_truthy (date_part st)) then Ok None
      else catch_value_attribute
             (parse_date_time title raw st (default "" (date_part st))).

Definition scenario1 : string :=
  "Team Sync, 10:00 AM to 11:00 AM, Tuesday, February 3, 2026, extra".

(** A segment at which the loop reaches its third branch and breaks. *)
Definition is_date_marker (part : string) : bool :=
  negb (is_time_marker part) && negb (is_all_day_marker part)
  && is_weekday_marker part.

(** A segment that sets the all-day flag: the second branch. *)
Definition sets_all_day (part : string) : bool :=
  negb (is_time_marker part) && is_all_day_marker part.

(** Minutes since midnight. *)
Definition minute_of_day (t : datetime) : Z := 60 * hour t + minute t.

Definition same_date (s e : datetime) : Prop :=
  year s = year e /\ month s = month e /\ day s = day e.

(** Inputs used as examples below. *)
Definition scenario2 : string :=
  "Offsite, all day event, Tuesday, February 3, 2026".

Definition crossing_midnight : string :=
  "Late, 11:00 PM to 1:00 AM, Tuesday, February 3, 2026".

Definition two_time_ranges : string :=
  "T, 1:00 PM to 2:00 PM, 3:00 PM to 4:00 PM, Monday, January 5, 2026".

Definition leading_comma : string :=
  ", all day, Tuesday, February 3, 2026".

Definition february_30 : string :=
  "Review, all day, Monday, February 30, 2026".

Definition huge_day : string :=
  "Standup, all day, Monday, January 99999999999, 2026".

(** The groups a pattern binds in every match. *)
Fixpoint binds (r : Re.regex) (n : nat) : bool :=
  match r with
  | Re.Lit _ | Re.Rep _ _ _ => false
  | Re.Seq r1 r2 => binds r1 n || binds r2 n
  | Re.Alt r1 r2 => binds r1 n && binds r2 n
  | Re.Grp m r1 => Nat.eqb m n || binds r1 n
  end.

(** ** The deduplication loop of [get_calendar_events] *)

(** An element of [events_data]: a dict, with the string under its key
    ['raw'] when it has one, or something that is not a dict. *)
Inductive item : Type :=
| ItemDict (raw_field : option string)
| ItemOther.

(** The loop's two variables: the set [seen] and the list [events]. *)
Record collector : Type := mk_collector {
  seen : gset string;
  events : list string
}.

(** One iteration: [item.get('raw', '')], the three-part test, then
    [seen.add(raw)] and [events.append(raw)]. *)
Definition collect_step (st : collector) (it : item) : collector :=
  match it with
  | ItemDict raw_field =>
      let raw := default "" raw_field in
      if Str.truthy raw && bool_decide (raw ∉ seen st) && (5 <? Str.len raw)
      then mk_collector (seen st ∪ {[raw]}) (events st ++ [raw])
      else st
  | ItemOther => st
  end.

Definition collect_events (events_data : list item) : list string :=
  events (foldl collect_step (mk_collector ∅ []) events_data).

(** The text fragments the loop reads, in order. *)
Definition fragments (events_data : list item) : list string :=
  omap (fun it => match it with
                  | ItemDict raw_field => Some (default "" raw_field)
                  | ItemOther => None
                  end) events_data.

(** The position of the first occurrence of [x] in [l]. *)
Fixpoint first_index (x : string) (l : list string) : option nat :=
  match l with
  | [] => None
  | y :: l' => if decide (x = y) then Some 0%nat else S <$> first_index x l'
  end.

(** ** Secure delivery: [post_to_url] and [create_ssl_context]

    The file system, [ssl] and [httpx] are the outside world: each call
    the program makes is recorded as an [action], and what the call answers
    is read from a [world]. *)

(** The lines [post_to_url] prints to [sys.stderr]. *)
Inductive message : Type :=
| MsgFileNotFound (name path : string)  (* "mTLS {name} file not found: {path}" *)
| MsgPosted (url : string) (status : Z) (* "Posted to {url} (status: {status})" *)
| MsgHttpError (status : Z) (text : string) (* "HTTP error: {status} - {text}" *)
| MsgPostFailed (err : string).         (* "POST failed: {e}" *)

(** The records [create_ssl_context] hands to its logger. *)
Inductive log_record : Type :=
| LogCreating                                  (* info: "Creating SSL context..." *)
| LogPaths (ca cert key : string) (system_cas : bool)      (* four debug lines *)
| LogNotFound (name path : string)        (* error: "{name} file not found: {path}" *)
| LogFileExists (name : string) (size : Z)  (* debug: "{name} file exists ({size} bytes)" *)
| LogUsingSystemCas                            (* debug *)
| LogLoadingCustomCa                           (* info *)
| LogCustomCaOnly                              (* debug *)
| LogLoadingCa                                 (* info *)
| LogCaLoaded                                  (* debug *)
| LogLoadingClientCert                         (* info *)
| LogClientCertLoaded                          (* debug *)
| LogTlsVersions.                              (* two debug lines *)

Inductive action : Type :=
| PrintStderr (m : message)
| Log (r : log_record)
| SslCreateDefaultContext                 (* ssl.create_default_context() *)
| SslBareContext                          (* ssl.SSLContext(PROTOCOL_TLS_CLIENT) *)
| SslLoadVerifyLocations (cafile : string)
| SslLoadCertChain (certfile keyfile : string)
| HttpPost (url content content_type : string).   (* client.post(...) *)

(** The touch of an action on TLS state or on the network. *)
Definition is_tls_or_network (a : action) : bool :=
  match a with
  | PrintStderr _ | Log _ => false
  | _ => true
  end.

Inductive post_outcome : Type :=
| Response (status : Z) (text : string)
| TransportError (err : string).

(** What a call on the file system answers: its value, or the exception
    it raises ([OSError] and its subclasses, [RuntimeError]) with its
    description. *)
Inductive answer (A : Type) : Type :=
| Answer (a : A)
| Raises (err : string).
Arguments Answer {A} a.
Arguments Raises {A} err.

#[global] Instance answer_ret : MRet answer := fun A a => Answer a.

#[global] Instance answer_bind : MBind answer := fun A B f r =>
  match r with
  | Answer a => f a
  | Raises err => Raises err
  end.

(** What the outside world answers.  [Path.expanduser] raises when the
    home of [~user] cannot be determined.  [Path.exists] answers [False]
    for a missing file, and raises on the errors it does not ignore (a name
    that is too long, a directory that may not be searched).  [None] from an
    [ssl] call is success, [Some err] an exception with that description. *)
Record world : Type := mk_world {
  home : string;                              (* str(Path.home()) *)
  expanduser : string -> answer string;       (* str(Path(p).expanduser()) *)
  path_exists : string -> answer bool;        (* Path(p).exists() *)
  file_size : string -> Z;                    (* Path(p).stat().st_size *)
  ssl_create_default_context : option string;
  ssl_load_verify_locations : string -> option string;
  ssl_load_cert_chain : string -> string -> option string;
  http_post : string -> string -> post_outcome
}.

Section Delivery.

Variable w : world.

(** [DEFAULT_MTLS_DIR / name] *)
Definition default_mtls_file (name : string) : string :=
  home w +:+ "/.config/cauth/" +:+ name.

(** The three paths with the names the messages use, in the order of the
    loop. *)
Definition cert_files (ca_path cert_path key_path : string) : list (string * string) :=
  [(ca_path, "CA"); (cert_path, "cert"); (key_path, "key")].

(** [for path, name in ...: if not path.exists(): ...]: the first pair
    whose file is missing.  The loop is outside every [try]: an exception
    of [exists] leaves the function. *)
Fixpoint first_missing (files : list (string * string))
    : answer (option (string * string)) :=
  match files with
  | [] => Answer None
  | (path, name) :: files' =>
      match path_exists w path with
      | Raises err => Raises err
      | Answer true => first_missing files'
      | Answer false => Answer (Some (path, name))
      end
  end.

(** A call inside the [try] block: an exception ends the function in the
    [except Exception] handler. *)
Definition call (a : action) (outcome : option string)
    (k : list action -> bool * list action) (trace : list action)
    : bool * list action :=
  match outcome with
  | Some err => (false, trace ++ [a; PrintStderr (MsgPostFailed err)])
  | None => k (trace ++ [a])
  end.

(** [response.raise_for_status()] lets the 2xx statuses through. *)
Definition is_success (status : Z) : bool := (200 <=? status) && (status <=? 299).

Definition try_post (data url ca_path cert_path key_path : string)
    : bool * list action :=
  call SslCreateDefaultContext (ssl_create_default_context w)
    (call (SslLoadVerifyLocations ca_path) (ssl_load_verify_locations w ca_path)
      (call (SslLoadCertChain cert_path key_path)
            (ssl_load_cert_chain w cert_path key_path)
        (fun trace =>
           let sent := trace ++ [HttpPost url data "application/json"] in
           match http_post w url data with
           | Response status text =>
               if is_success status
               then (true, sent ++ [PrintStderr (MsgPosted url status)])
               else (false, sent ++ [PrintStderr (MsgHttpError status text)])
           | TransportError err => (false, sent ++ [PrintStderr (MsgPostFailed err)])
           end)))
    [].

Definition resolve (mtls_config : gmap string string) (key name : string)
    : answer string :=
  expanduser w (default (default_mtls_file name) (mtls_config !! key)).

(** The three certificate files [post_to_url] resolves from [config], in
    the order of the three assignments; they are made before the [try]. *)
Definition resolved_files (config : gmap string (gmap string string))
    : answer (list (string * string)) :=
  let mtls_config := default ∅ (config !! "mtls") in
  ca_path ← resolve mtls_config "ca" "ca.pem";
  cert_path ← resolve mtls_config "cert" "crt.pem";
  key_path ← resolve mtls_config "key" "key.pem";
  mret (cert_files ca_path cert_path key_path).

(** [post_to_url] returns [True] or [False], or raises what the path
    resolution or the existence checks raise. *)
Definition post_to_url (data url : string)
    (config : gmap string (gmap string string)) : answer bool * list action :=
  let mtls_config := default ∅ (config !! "mtls") in
  let checked :=
    ca_path ← resolve mtls_config "ca" "ca.pem";
    cert_path ← resolve mtls_config "cert" "crt.pem";
    key_path ← resolve mtls_config "key" "key.pem";
    missing ← first_missing (cert_files ca_path cert_path key_path);
    mret (ca_path, cert_path, key_path, missing) in
  match checked with
  | Raises err => (Raises err, [])
  | Answer (_, _, _, Some (path, name)) =>
      (Answer false, [PrintStderr (MsgFileNotFound name path)])
  | Answer (ca_path, cert_path, key_path, None) =>
      match try_post data url ca_path cert_path key_path with
      | (b, trace) => (Answer b, trace)
      end
  end.

(** [create_ssl_context] of [test_mtls.py]: the context, or the exception
    it raises. *)
Inductive context_result : Type :=
| ContextReady
| FileNotFoundError (name path : string)
| OsError (err : string)                  (* out of [path.exists()] *)
| SslError (err : string).

(** The loop that checks the files, logging each one found. *)
Fixpoint verify_files (files : list (string * string)) (trace : list action)
    : answer (option (string * string)) * list action :=
  match files with
  | [] => (Answer None, trace)
  | (path, name) :: files' =>
      match path_exists w path with
      | Raises err => (Raises err, trace)
      | Answer true =>
          verify_files files' (trace ++ [Log (LogFileExists name (file_size w path))])
      | Answer false => (Answer (Some (path, name)), trace ++ [Log (LogNotFound name path)])
      end
  end.

Definition ssl_call (a : action) (outcome : option string)
    (k : list action -> context_result * list action) (trace : list action)
    : context_result * list action :=
  match outcome with
  | Some err => (SslError err, trace ++ [a])
  | None => k (trace ++ [a])
  end.

Definition create_ssl_context (ca_path cert_path key_path : string)
    (include_system_cas : bool) : context_result * list action :=
  let trace := [Log LogCreating;
                Log (LogPaths ca_path cert_path key_path include_system_cas)] in
  match verify_files (cert_files ca_path cert_path key_path) trace with
  | (Raises err, trace) => (OsError err, trace)
  | (Answer (Some (path, name)), trace) => (FileNotFoundError name path, trace)
  | (Answer None, trace) =>
      let load_client trace :=
        ssl_call (SslLoadCertChain cert_path key_path)
                 (ssl_load_cert_chain w cert_path key_path)
                 (fun trace =>
                    (ContextReady, trace ++ [Log LogClientCertLoaded; Log LogTlsVersions]))
                 (trace ++ [Log LogCaLoaded; Log LogLoadingClientCert]) in
      if include_system_cas then
        ssl_call SslCreateDefaultContext (ssl_create_default_context w)
          (fun trace =>
             ssl_call (SslLoadVerifyLocations ca_path)
                      (ssl_load_verify_locations w ca_path) load_client
                      (trace ++ [Log LogUsingSystemCas; Log LogLoadingCustomCa]))
          trace
      else
        ssl_call SslBareContext None
          (fun trace =>
             ssl_call (SslLoadVerifyLocations ca_path)
                      (ssl_load_verify_locations w ca_path) load_client
                      (trace ++ [Log LogCustomCaOnly; Log LogLoadingCa]))
          trace
  end.

End Delivery.

Definition quiet (trace : list action) : bool :=
  forallb (fun a => negb (is_tls_or_network a)) trace.

(** A world whose client certificate is missing. *)
Definition world_without_cert : world :=
  mk_world "/home/u" (fun p => Answer p)
           (fun p => Answer (negb (String.eqb p "/home/u/.config/cauth/crt.pem")))
           (fun _ => 1024) None (fun _ => None) (fun _ _ => None)
           (fun _ _ => Response 200 "ok").

(** A world whose client certificate is configured under a name that is
    too long for the file system: no such file exists, and asking whether
    it does is an [OSError]. *)
Definition world_with_long_name : world :=
  mk_world "/home/u" (fun p => Answer p)
           (fun p => if String.eqb p "/home/u/.config/cauth/crt.pem"
                     then Raises "[Errno 36] File name too long"
                     else Answer true)
           (fun _ => 1024) None (fun _ => None) (fun _ _ => None)
           (fun _ _ => Response 200 "ok").

(** ** Formatting numbers and datetimes *)

Definition digit_char (d : Z) : ascii := ascii_of_N (Z.to_N (48 + d)).

(** The decimal digits of [n >= 0] put in front of [acc], last digit
    first; [fuel] bounds the number of digits. *)
Fixpoint dec_digits (fuel : nat) (n : Z) (acc : string) : string :=
  match fuel with
  | O => acc
  | S fuel' =>
      let acc' := String (digit_char (n mod 10)) acc in
      if n <? 10 then acc' else dec_digits fuel' (n / 10) acc'
  end.

Definition str_nonneg (n : Z) : string :=
  dec_digits (S (Z.to_nat (Z.log2 n))) n "".

(** [str(n)] for an [int]. *)
Definition str_int (n : Z) : string :=
  if n <? 0 then String "-" (str_nonneg (- n)) else str_nonneg n.

Fixpoint zeros (k : nat) : string :=
  match k with
  | O => ""
  | S k' => String "0" (zeros k')
  end.

(** ["%0{width}d" % n] for [n >= 0]. *)
Definition zero_pad (width : nat) (n : Z) : string :=
  let s := str_int n in
  zeros (width - String.length s) +:+ s.

(** [strftime] directives: [%Y] is the year in decimal, and [%m], [%d],
    [%H], [%M], [%S] are two digits. *)
Definition strftime_date (t : datetime) : string :=
  str_int (year t) +:+ zero_pad 2 (month t) +:+ zero_pad 2 (day t).

Definition strftime_time (t : datetime) : string :=
  zero_pad 2 (hour t) +:+ zero_pad 2 (minute t) +:+ zero_pad 2 (second t).

(** [t.isoformat(sep)]: the microseconds are printed when they are not 0. *)
Definition isoformat_sep (sep : string) (t : datetime) : string :=
  zero_pad 4 (year t) +:+ "-" +:+ zero_pad 2 (month t) +:+ "-"
  +:+ zero_pad 2 (day t) +:+ sep
  +:+ zero_pad 2 (hour t) +:+ ":" +:+ zero_pad 2 (minute t) +:+ ":"
  +:+ zero_pad 2 (second t)
  +:+ (if microsecond t =? 0 then "" else "." +:+ zero_pad 6 (microsecond t)).

Definition isoformat (t : datetime) : string := isoformat_sep "T" t.

(** [str(t)] *)
Definition str_datetime (t : datetime) : string := isoformat_sep " " t.

(** ** [hashlib.md5]

    MD5 (RFC 1321) on the UTF-8 encoding of a string; 32-bit words are
    integers kept below [2^32]. *)

Module Md5.

Definition mask32 (x : Z) : Z := Z.land x 4294967295.

Definition not32 (x : Z) : Z := Z.lxor x 4294967295.

Definition rotl32 (x c : Z) : Z :=
  Z.lor (mask32 (Z.shiftl x c)) (Z.shiftr x (32 - c)).

(** The per-round shift amounts. *)
Definition shifts : list Z :=
  [7; 12; 17; 22; 7; 12; 17; 22; 7; 12; 17; 22; 7; 12; 17; 22;
   5; 9; 14; 20; 5; 9; 14; 20; 5; 9; 14; 20; 5; 9; 14; 20;
   4; 11; 16; 23; 4; 11; 16; 23; 4; 11; 16; 23; 4; 11; 16; 23;
   6; 10; 15; 21; 6; 10; 15; 21; 6; 10; 15; 21; 6; 10; 15; 21].

(** [floor(2^32 * abs(sin(i + 1)))] for [i] from 0 to 63. *)
Definition sines : list Z :=
  [3614090360; 3905402710; 606105819; 3250441966;
   4118548399; 1200080426; 2821735955; 4249261313;
   1770035416; 2336552879; 4294925233; 2304563134;
   1804603682; 4254626195; 2792965006; 1236535329;
   4129170786; 3225465664; 643717713; 3921069994;
   3593408605; 38016083; 3634488961; 3889429448;
   568446438; 3275163606; 4107603335; 1163531501;
   2850285829; 4243563512; 1735328473; 2368359562;
   4294588738; 2272392833; 1839030562; 4259657740;
   2763975236; 1272893353; 4139469664; 3200236656;
   681279174; 3936430074; 3572445317; 76029189;
   3654602809; 3873151461; 530742520; 3299628645;
   4096336452; 1126891415; 2878612391; 4237533241;
   1700485571; 2399980690; 4293915773; 2240044497;
   1873313359; 4264355552; 2734768916; 1309151649;
   4149444226; 3174756917; 718787259; 3951481745].

(** [s.encode()]: a code point below U+0080 is one byte, and one from
    U+0080 to U+00FF two. *)
Fixpoint utf8 (s : string) : list Z :=
  match s with
  | EmptyString => []
  | String c s' =>
      let n := Str.code c in
      if n <? 128 then n :: utf8 s'
      else Z.lor 192 (Z.shiftr n 6) :: Z.lor 128 (Z.land n 63) :: utf8 s'
  end.

(** [k] bytes of [n], least significant first. *)
Fixpoint le_bytes (k : nat) (n : Z) : list Z :=
  match k with
  | O => []
  | S k' => Z.land n 255 :: le_bytes k' (Z.shiftr n 8)
  end.

(** The message followed by the byte 0x80, zeros up to 56 modulo 64, and
    the length in bits on 8 bytes. *)
Definition pad (msg : list Z) : list Z :=
  let len := Z.of_nat (length msg) in
  let zeros := Z.to_nat ((55 - len) mod 64) in
  msg ++ 128 :: List.repeat 0 zeros ++ le_bytes 8 (8 * len).

Fixpoint words (bytes : list Z) : list Z :=
  match bytes with
  | b0 :: b1 :: b2 :: b3 :: rest =>
      (b0 + 256 * b1 + 65536 * b2 + 16777216 * b3) :: words rest
  | _ => []
  end.

Fixpoint chunks (ws : list Z) : list (list Z) :=
  match ws with
  | w0 :: w1 :: w2 :: w3 :: w4 :: w5 :: w6 :: w7
    :: w8 :: w9 :: w10 :: w11 :: w12 :: w13 :: w14 :: w15 :: rest =>
      [w0; w1; w2; w3; w4; w5; w6; w7; w8; w9; w10; w11; w12; w13; w14; w15]
      :: chunks rest
  | _ => []
  end.

Definition state : Type := (Z * Z * Z * Z)%type.

Definition initial : state := (1732584193, 4023233417, 2562383102, 271733878).

(** Operation [i] of the 64 on the chunk [M]. *)
Definition step (M : list Z) (st : state) (i : nat) : state :=
  let '(A, B, C, D) := st in
  let '(F, g) :=
    if (i <? 16)%nat then (Z.lor (Z.land B C) (Z.land (not32 B) D), i)
    else if (i <? 32)%nat then
      (Z.lor (Z.land D B) (Z.land (not32 D) C), ((5 * i + 1) mod 16)%nat)
    else if (i <? 48)%nat then (Z.lxor B (Z.lxor C D), ((3 * i + 5) mod 16)%nat)
    else (Z.lxor C (Z.lor B (not32 D)), ((7 * i) mod 16)%nat) in
  let F' := mask32 (F + A + nth i sines 0 + nth g M 0) in
  (D, mask32 (B + rotl32 F' (nth i shifts 0)), B, C).

Definition process (h : state) (M : list Z) : state :=
  let '(a0, b0, c0, d0) := h in
  let '(A, B, C, D) := fold_left (step M) (seq 0 64) h in
  (mask32 (a0 + A), mask32 (b0 + B), mask32 (c0 + C), mask32 (d0 + D)).

Definition digest (s : string) : list Z :=
  let '(a, b, c, d) := fold_left process (chunks (words (pad (utf8 s)))) initial in
  le_bytes 4 a ++ le_bytes 4 b ++ le_bytes 4 c ++ le_bytes 4 d.

Definition hex_char (n : Z) : ascii :=
  if n <? 10 then ascii_of_N (Z.to_N (48 + n)) else ascii_of_N (Z.to_N (87 + n)).

Fixpoint hex (bytes : list Z) : string :=
  match bytes with
  | [] => EmptyString
  | b :: rest => String (hex_char (Z.shiftr b 4)) (String (hex_char (Z.land b 15)) (hex rest))
  end.

End Md5.

(** [hashlib.md5(s.encode()).hexdigest()] *)
Definition md5_hexdigest (s : string) : string := Md5.hex (Md5.digest s).

(** ** [events_to_ical] *)

Definition CRLF : string := String "013" (String "010" "").

Section Ical.

(** The readings of [datetime.now(timezone.utc)], in the order they are
    taken: the loop takes one per event. *)
Variable clock : nat -> datetime.

Definition ical_header : list string :=
  ["BEGIN:VCALENDAR"; "VERSION:2.0"; "PRODID:-//calscripts//outlook_web//EN";
   "CALSCALE:GREGORIAN"; "METHOD:PUBLISH"].

Definition uid_line (ev : event) : string :=
  "UID:" +:+ md5_hexdigest (title ev +:+ str_datetime (start ev)) +:+ "@calscripts".

Definition dtstamp_line (now : datetime) : string :=
  "DTSTAMP:" +:+ strftime_date now +:+ "T" +:+ strftime_time now +:+ "Z".

Definition dtstart_line (ev : event) : string :=
  if all_day ev then "DTSTART;VALUE=DATE:" +:+ strftime_date (start ev)
  else "DTSTART:" +:+ strftime_date (start ev) +:+ "T" +:+ strftime_time (start ev).

Definition dtend_line (ev : event) : string :=
  if all_day ev then "DTEND;VALUE=DATE:" +:+ strftime_date (end_ ev)
  else "DTEND:" +:+ strftime_date (end_ ev) +:+ "T" +:+ strftime_time (end_ ev).

(** The three [replace] calls on the title, in their order. *)
Definition escape_title (t : string) : string :=
  Str.replace ";" "\;" (Str.replace "," "\," (Str.replace "\" "\\" t)).

Definition summary_line (ev : event) : string := "SUMMARY:" +:+ escape_title (title ev).

(** The lines one pass of the loop appends. *)
Definition vevent_lines (now : datetime) (ev : event) : list string :=
  ["BEGIN:VEVENT"; uid_line ev; dtstamp_line now;
   dtstart_line ev; dtend_line ev; summary_line ev; "END:VEVENT"].

(** The loop over [events]; [k] counts the clock readings taken so far. *)
Fixpoint vevents (k : nat) (evs : list event) : list string :=
  match evs with
  | [] => []
  | ev :: evs' => vevent_lines (clock k) ev ++ vevents (S k) evs'
  end.

Definition ical_lines (evs : list event) : list string :=
  ical_header ++ vevents 0 evs ++ ["END:VCALENDAR"].

Definition events_to_ical (evs : list event) : string :=
  Str.join CRLF (ical_lines evs).

End Ical.

(** Two lines agree, or both are [DTSTAMP] lines. *)
Definition same_but_dtstamp (a b : string) : Prop :=
  a = b \/ (Str.startswith "DTSTAMP:" a = true /\ Str.startswith "DTSTAMP:" b = true).

(** ** The fragment of [json] the program uses

    [events_to_json] calls [json.dumps(output, indent=2)]; the decoder is
    [json.loads].  A JSON document is modelled with integers as its only
    numbers, and a [dict] as the list of its items in insertion order. *)

#[warnings="-register-all"]
Inductive json : Type :=
| JNull
| JBool (b : bool)
| JInt (n : Z)
| JStr (s : string)
| JList (l : list json)
| JDict (d : list (string * json)).

Definition dquote : ascii := "034"%char.
Definition backslash : ascii := "092"%char.
Definition newline : ascii := "010"%char.

Definition hex_digit (n : Z) : ascii :=
  if n <? 10 then ascii_of_N (Z.to_N (48 + n)) else ascii_of_N (Z.to_N (87 + n)).

(** One character under [encode_basestring_ascii]: the printable ASCII
    characters stand for themselves, except the backslash and the double
    quote; the rest is escaped. *)
Definition escape_char (c : ascii) : string :=
  let n := Str.code c in
  if n =? 92 then String backslash (String backslash "")
  else if n =? 34 then String backslash (String dquote "")
  else if n =? 8 then "\b"
  else if n =? 12 then "\f"
  else if n =? 10 then "\n"
  else if n =? 13 then "\r"
  else if n =? 9 then "\t"
  else if (32 <=? n) && (n <=? 126) then String c ""
  else "\u00" +:+ String (hex_digit (n / 16)) (String (hex_digit (n mod 16)) "").

Fixpoint escape_body (s : string) : string :=
  match s with
  | EmptyString => EmptyString
  | String c s' => escape_char c +:+ escape_body s'
  end.

Definition encode_string (s : string) : string :=
  String dquote (escape_body s +:+ String dquote "").

Fixpoint spaces (k : nat) : string :=
  match k with
  | O => ""
  | S k' => String " " (spaces k')
  end.

(** ['\n' + indent * level] with [indent] two spaces. *)
Definition newline_indent (level : nat) : string :=
  String newline (spaces (2 * level)).

(** [item_separator + newline_indent] inside a container at [level]. *)
Definition item_separator (level : nat) : string :=
  String "," (newline_indent (S level)).

(** A non-empty container: the opening bracket, the items one per line
    separated by commas, and the closing bracket on a line of its own. *)
Definition container (open close : string) (level : nat) (items : list string) : string :=
  match items with
  | [] => open +:+ close
  | _ =>
      open +:+ newline_indent (S level)
      +:+ Str.join (item_separator level) items
      +:+ newline_indent level +:+ close
  end.

(** [json.dumps(v, indent=2)] at nesting depth [level]. *)
Fixpoint dumps_at (level : nat) (v : json) {struct v} : string :=
  match v with
  | JNull => "null"
  | JBool true => "true"
  | JBool false => "false"
  | JInt n => str_int n
  | JStr s => encode_string s
  | JList l => container "[" "]" level (map (dumps_at (S level)) l)
  | JDict d =>
      container "{" "}" level
        (map (fun kv => match kv with
                        | (k, x) => encode_string k +:+ ": " +:+ dumps_at (S level) x
                        end) d)
  end.

Definition dumps (v : json) : string := dumps_at 0 v.

(** The decoder's whitespace. *)
Definition is_json_ws (c : ascii) : bool :=
  Ascii.eqb c " " || Ascii.eqb c "009" || Ascii.eqb c "010" || Ascii.eqb c "013".

Fixpoint skip_ws (s : string) : string :=
  match s with
  | EmptyString => EmptyString
  | String c s' => if is_json_ws c then skip_ws s' else s
  end.

Definition hex_value (c : ascii) : option Z :=
  let n := Str.code c in
  if (48 <=? n) && (n <=? 57) then Some (n - 48)
  else if (97 <=? n) && (n <=? 102) then Some (n - 87)
  else if (65 <=? n) && (n <=? 70) then Some (n - 55)
  else None.

(** The character a one-letter escape stands for. *)
Definition unescape (e : ascii) : option ascii :=
  let n := Str.code e in
  if n =? 34 then Some dquote
  else if n =? 92 then Some backslash
  else if n =? 47 then Some "/"%char
  else if n =? 98 then Some "008"%char
  else if n =? 102 then Some "012"%char
  else if n =? 110 then Some "010"%char
  else if n =? 114 then Some "013"%char
  else if n =? 116 then Some "009"%char
  else None.

Definition cons_char (c : ascii) (r : option (string * string)) : option (string * string) :=
  match r with
  | Some (s, rest) => Some (String c s, rest)
  | None => None
  end.

(** [scanstring], entered after the opening quote: the decoded text and
    what follows the closing quote.  A [\uXXXX] escape above U+00FF leaves
    the model, and so does a control character, which the decoder refuses. *)
Fixpoint scanstring (s : string) : option (string * string) :=
  match s with
  | EmptyString => None
  | String c s' =>
      if Ascii.eqb c dquote then Some (EmptyString, s')
      else if Ascii.eqb c backslash then
        match s' with
        | String e s'' =>
            if Ascii.eqb e "u" then
              match s'' with
              | String h1 (String h2 (String h3 (String h4 s3))) =>
                  match hex_value h1, hex_value h2, hex_value h3, hex_value h4 with
                  | Some a, Some b, Some c', Some d =>
                      let n := ((a * 16 + b) * 16 + c') * 16 + d in
                      if n <? 256 then cons_char (ascii_of_N (Z.to_N n)) (scanstring s3)
                      else None
                  | _, _, _, _ => None
                  end
              | _ => None
              end
            else
              match unescape e with
              | Some ch => cons_char ch (scanstring s'')
              | None => None
              end
        | EmptyString => None
        end
      else if Str.code c <? 32 then None
      else cons_char c (scanstring s')
  end.

(** The longest run of digits at the head of [s]. *)
Fixpoint span_digits (s : string) : string * string :=
  match s with
  | String c s' =>
      if Str.is_digit c then
        match span_digits s' with (ds, rest) => (String c ds, rest) end
      else (EmptyString, s)
  | EmptyString => (EmptyString, EmptyString)
  end.

(** What follows the integer part makes the number a float: a fraction
    or an exponent. *)
Definition float_tail (s : string) : bool :=
  match s with
  | String c (String d s') =>
      (Ascii.eqb c "." && Str.is_digit d)
      || ((Ascii.eqb c "e" || Ascii.eqb c "E")
          && (Str.is_digit d
              || ((Ascii.eqb d "+" || Ascii.eqb d "-")
                  && match s' with String x _ => Str.is_digit x | _ => false end)))
  | _ => false
  end.

(** The integer part of a number is [0] or starts with a non-zero digit. *)
Definition integer_part (s : string) : option (string * string) :=
  match s with
  | String c s' =>
      if Ascii.eqb c "0" then Some ("0", s')
      else if Str.is_digit c then Some (span_digits s)
      else None
  | EmptyString => None
  end.

Definition match_number (s : string) : option (json * string) :=
  let '(neg, s1) := match s with
                    | String c s' => if Ascii.eqb c "-" then (true, s') else (false, s)
                    | EmptyString => (false, s)
                    end in
  match integer_part s1 with
  | Some (ds, rest) =>
      if float_tail rest then None
      else match int_digits 0 ds with
           | Some n => Some (JInt (if neg then - n else n), rest)
           | None => None
           end
  | None => None
  end.

(** [dict(pairs)]: a repeated key keeps its first position and takes the
    last value. *)
Fixpoint dict_set (k : string) (x : json) (d : list (string * json)) : list (string * json) :=
  match d with
  | [] => [(k, x)]
  | (k', x') :: d' => if String.eqb k' k then (k, x) :: d' else (k', x') :: dict_set k x d'
  end.

Definition dict_of_pairs (pairs : list (string * json)) : list (string * json) :=
  foldl (fun d kv => dict_set kv.1 kv.2 d) [] pairs.

Fixpoint dict_get (k : string) (d : list (string * json)) : option json :=
  match d with
  | [] => None
  | (k', x) :: d' => if String.eqb k' k then Some x else dict_get k d'
  end.

(** [scan_once], [JSONObject] and [JSONArray].  [object_items] starts
    after the opening quote of a key and [array_items] at a value; [fuel]
    bounds the nesting of the calls. *)
Fixpoint scan_once (fuel : nat) (s : string) : option (json * string) :=
  match fuel with
  | O => None
  | S fuel' =>
      match s with
      | EmptyString => None
      | String c s' =>
          if Ascii.eqb c dquote then
            match scanstring s' with
            | Some (str, rest) => Some (JStr str, rest)
            | None => None
            end
          else if Ascii.eqb c "{" then
            match skip_ws s' with
            | String c1 s1 =>
                if Ascii.eqb c1 "}" then Some (JDict [], s1)
                else if Ascii.eqb c1 dquote then
                  match object_items fuel' s1 with
                  | Some (pairs, rest) => Some (JDict (dict_of_pairs pairs), rest)
                  | None => None
                  end
                else None
            | EmptyString => None
            end
          else if Ascii.eqb c "[" then
            match skip_ws s' with
            | String c1 s1 =>
                if Ascii.eqb c1 "]" then Some (JList [], s1)
                else
                  match array_items fuel' (String c1 s1) with
                  | Some (values, rest) => Some (JList values, rest)
                  | None => None
                  end
            | EmptyString => None
            end
          else if Str.startswith "null" s then Some (JNull, Str.drop 4 s)
          else if Str.startswith "true" s then Some (JBool true, Str.drop 4 s)
          else if Str.startswith "false" s then Some (JBool false, Str.drop 5 s)
          else match_number s
      end
  end
with object_items (fuel : nat) (s : string) : option (list (string * json) * string) :=
  match fuel with
  | O => None
  | S fuel' =>
      match scanstring s with
      | Some (key, s1) =>
          match skip_ws s1 with
          | String c2 s2 =>
              if Ascii.eqb c2 ":" then
                match scan_once fuel' (skip_ws s2) with
                | Some (value, s3) =>
                    match skip_ws s3 with
                    | String c4 s4 =>
                        if Ascii.eqb c4 "}" then Some ([(key, value)], s4)
                        else if Ascii.eqb c4 "," then
                          match skip_ws s4 with
                          | String c5 s5 =>
                              if Ascii.eqb c5 dquote then
                                match object_items fuel' s5 with
                                | Some (pairs, rest) => Some ((key, value) :: pairs, rest)
                                | None => None
                                end
                              else None
                          | EmptyString => None
                          end
                        else None
                    | EmptyString => None
                    end
                | None => None
                end
              else None
          | EmptyString => None
          end
      | None => None
      end
  end
with array_items (fuel : nat) (s : string) : option (list json * string) :=
  match fuel with
  | O => None
  | S fuel' =>
      match scan_once fuel' s with
      | Some (value, s1) =>
          match skip_ws s1 with
          | String c2 s2 =>
              if Ascii.eqb c2 "]" then Some ([value], s2)
              else if Ascii.eqb c2 "," then
                match array_items fuel' (skip_ws s2) with
                | Some (values, rest) => Some (value :: values, rest)
                | None => None
                end
              else None
          | EmptyString => None
          end
      | None => None
      end
  end.

(** [json.loads(s)]: leading whitespace, one value, trailing whitespace,
    and nothing more. *)
Definition loads (s : string) : option json :=
  match scan_once (2 * String.length s + 2) (skip_ws s) with
  | Some (v, rest) =>
      match skip_ws rest with
      | EmptyString => Some v
      | _ => None
      end
  | None => None
  end.

(** ** [events_to_json] *)

(** [datetime.now(timezone.utc).isoformat().replace("+00:00", "Z")] *)
Definition fetched_at (now : datetime) : string :=
  Str.replace "+00:00" "Z" (isoformat now +:+ "+00:00").

Definition json_event (ev : event) : json :=
  JDict [("title", JStr (title ev));
         ("start", JStr (isoformat (start ev)));
         ("end", JStr (isoformat (end_ ev)));
         ("all_day", JBool (all_day ev))].

Definition json_output (now : datetime) (target : option string) (evs : list event) : json :=
  let json_events := map json_event evs in
  JDict [("target", match target with Some t => JStr t | None => JNull end);
         ("fetched_at", JStr (fetched_at now));
         ("event_count", JInt (Z.of_nat (length json_events)));
         ("events", JList json_events)].

Definition events_to_json (now : datetime) (evs : list event) (target : option string) : string :=
  dumps (json_output now target evs).

Fixpoint all_digits (s : string) : bool :=
  match s with
  | EmptyString => true
  | String c s' => Str.is_digit c && all_digits s'
  end.

(** A text at which a number ends: no digit, fraction or exponent follows. *)
Definition number_end (rest : string) : bool :=
  match rest with
  | EmptyString => true
  | String c _ =>
      negb (Str.is_digit c || Ascii.eqb c "." || Ascii.eqb c "e" || Ascii.eqb c "E")
  end.

(** No [dict] of the document repeats a key. *)
Fixpoint json_wf (v : json) : bool :=
  match v with
  | JList l => forallb json_wf l
  | JDict d =>
      bool_decide (NoDup (map fst d))
      && forallb (fun kv => match kv with (_, x) => json_wf x end) d
  | _ => true
  end.

(** A bound on the fuel [scan_once] needs for a document. *)
Fixpoint jsize (v : json) : nat :=
  match v with
  | JList l => S (list_sum (map (fun x => S (jsize x)) l))
  | JDict d => S (list_sum (map (fun kv => match kv with (_, x) => S (jsize x) end) d))
  | _ => 1
  end.

(** The characters a printed value can start with. *)
Definition value_start (c : ascii) : bool :=
  Ascii.eqb c dquote || Ascii.eqb c "{" || Ascii.eqb c "[" || Ascii.eqb c "n"
  || Ascii.eqb c "t" || Ascii.eqb c "f" || Ascii.eqb c "-" || Str.is_digit c.

(** The text of one item of a printed [dict]. *)
Definition dict_item (level : nat) (kv : string * json) : string :=
  match kv with
  | (k, x) => encode_string k +:+ ": " +:+ dumps_at (S level) x
  end.

(** What a decoded event carries of the event it was printed from. *)
Definition decodes_event (ev : event) (x : json) : Prop :=
  exists fields,
    x = JDict fields
    /\ dict_get "title" fields = Some (JStr (title ev))
    /\ dict_get "start" fields = Some (JStr (isoformat (start ev)))
    /\ dict_get "end" fields = Some (JStr (isoformat (end_ ev)))
    /\ dict_get "all_day" fields = Some (JBool (all_day ev)).

(** ** More of [parse_event] and of [main] *)

(** [parts] of [parse_event]: the texts between the commas, trimmed. *)
Definition segments (raw : string) : list string :=
  Str.strip <$> Str.split "," raw.

(** The number of occurrences of a character. *)
Fixpoint count_char (c : ascii) (s : string) : nat :=
  match s with
  | EmptyString => O
  | String x s' => (if Ascii.eqb x c then 1 else 0) + count_char c s'
  end.

(** A [datetime] as [parse_event] builds them: every field in its range,
    no seconds. *)
Definition minute_precise (t : datetime) : Prop :=
  1 <= year t <= 9999 /\ 1 <= month t <= 12
  /\ 1 <= day t <= days_in_month (year t) (month t)
  /\ 0 <= hour t <= 23 /\ 0 <= minute t <= 59
  /\ second t = 0 /\ microsecond t = 0.

(** Every character of [s] is in the class [cls]. *)
Fixpoint all_in (cls : ascii -> bool) (s : string) : bool :=
  match s with
  | EmptyString => true
  | String c s' => cls c && all_in cls s'
  end.

(** What a match of [r] is, apart from the order in which the matcher
    tries things: [matched r g t g'] says that [r] can match the text [t],
    taking the groups from [g] to [g']. *)
Fixpoint matched (r : Re.regex) (g : Re.groups) (t : string) (g' : Re.groups) : Prop :=
  match r with
  | Re.Lit p => t = p /\ g' = g
  | Re.Rep cls lo hi =>
      g' = g /\ all_in cls t = true /\ (lo <= String.length t)%nat
      /\ match hi with Some h => (String.length t <= h)%nat | None => True end
  | Re.Seq r1 r2 =>
      exists t1 t2 g1, t = t1 +:+ t2 /\ matched r1 g t1 g1 /\ matched r2 g1 t2 g'
  | Re.Alt r1 r2 => matched r1 g t g' \/ matched r2 g t g'
  | Re.Grp n r1 => exists g1, matched r1 g t g1 /\ g' = (n, t) :: g1
  end.

(** The date text [parse_event] hands to the date pattern. *)
Definition date_text (raw : string) : string :=
  default "" (date_part (scan (segments raw) 1 (drop 1 (segments raw)) scan_init)).

(** The loop of [main] over the raw events: [parse_event] on each, the
    events that are not [None] appended in order.  An exception of
    [parse_event] leaves the loop, and [main] with it. *)
Fixpoint parse_all (raw_events : list string) (parsed_events : list event)
    : result (list event) :=
  match raw_events with
  | [] => Ok parsed_events
  | raw :: rest =>
      event ← parse_event raw;
      parse_all rest (match event with
                      | Some ev => parsed_events ++ [ev]
                      | None => parsed_events
                      end)
  end.

(** The items a list of texts stands for: one dict each, with the text
    under ['raw']. *)
Definition items_of (texts : list string) : list item :=
  map (fun t => ItemDict (Some t)) texts.


(** The four calls of the [try] block of [post_to_url], in their order. *)
Definition post_calls (ca cert key url data : string) : list action :=
  [SslCreateDefaultContext; SslLoadVerifyLocations ca; SslLoadCertChain cert key;
   HttpPost url data "application/json"].

Definition is_http_post (a : action) : bool :=
  match a with HttpPost _ _ _ => true | _ => false end.

(** The context [create_ssl_context] starts from. *)
Definition context_call (include_system_cas : bool) : action :=
  if include_system_cas then SslCreateDefaultContext else SslBareContext.

(** The [ssl] calls of a trace. *)
Definition tls_calls (trace : list action) : list action :=
  List.filter (fun a => is_tls_or_network a && negb (is_http_post a)) trace.


(** The characters [events_to_ical] escapes in a title. *)
Definition needs_escape (c : ascii) : bool :=
  Ascii.eqb c "\" || Ascii.eqb c "," || Ascii.eqb c ";".

(** A backslash put before each character that needs one. *)
Fixpoint escape_each (t : string) : string :=
  match t with
  | EmptyString => EmptyString
  | String c t' =>
      if needs_escape c then String "\" (String c (escape_each t'))
      else String c (escape_each t')
  end.

(** Reading an escaped title back: the character after a backslash is
    taken as it is. *)
Fixpoint unescape_title (s : string) : string :=
  match s with
  | EmptyString => EmptyString
  | String c s' =>
      if Ascii.eqb c "\" then
        match s' with
        | String d s'' => String d (unescape_title s'')
        | EmptyString => EmptyString
        end
      else String c (unescape_title s')
  end.

(** The digits of [hexdigest]. *)
Definition is_lower_hex (c : ascii) : bool :=
  Str.is_digit c || Str.in_range 97 102 c.


(** [zero_pad w k] is [w] digits that read back as [k]. *)
Definition zero_pad_ok (w : nat) (k : nat) : bool :=
  let s := zero_pad w (Z.of_nat k) in
  (String.length s =? w)%nat && all_digits s
  && match int_digits 0 s with Some v => v =? Z.of_nat k | None => false end.

(** The characters of a JSON text printed with [ensure_ascii]: printable
    ASCII and the line break. *)
Definition is_ascii_text (c : ascii) : bool :=
  Str.in_range 32 126 c || Ascii.eqb c newline.


(** ** [get_credentials] and [main]

    [config.toml] as [load_config] returns it, under the types the program
    assumes: the tables [mtls] and [post] hold strings, and [targets] holds
    one table of strings per account, in the order of the file.  A file
    that is missing gives the empty configuration. *)
Record toml_config : Type := mk_config {
  tables : gmap string (gmap string string);
  targets : list (string * gmap string string)
}.

Definition empty_config : toml_config := mk_config ∅ [].

(** [targets[target]], with [None] when [target not in targets]. *)
Fixpoint target_lookup (target : string) (ts : list (string * gmap string string))
    : option (gmap string string) :=
  match ts with
  | [] => None
  | (name, cfg) :: ts' =>
      if String.eqb name target then Some cfg else target_lookup target ts'
  end.

(** What [argparse] returns. *)
Record arguments : Type := mk_arguments {
  arg_target : option string;
  arg_browser : string;
  arg_days : Z;
  arg_headless : bool;
  arg_ical : bool;
  arg_json : bool;
  arg_post : bool;
  arg_output : option string;
  arg_list_targets : bool
}.

(** The lines [main] prints on stdout. *)
Inductive out_line : Type :=
| OutAvailableTargets                       (* "Available targets:" *)
| OutTarget (name username : string)        (* "  {name}: {username}" *)
| OutNoTargets                              (* "No targets configured. ..." *)
| OutDocument (text : string)               (* print(json_output), print(ical_output) *)
| OutAllDay (day_of : datetime) (summary : string)
                                            (* "  {%a %b %d} (all day) - {title}" *)
| OutTimed (from to : datetime) (summary : string).
                                            (* "  {%a %b %d %H:%M}-{%H:%M} - {title}" *)

(** The lines [main] and [get_credentials] print on stderr. *)
Inductive err_line : Type :=
| ErrNoPassword (username : string)         (* "No password in config for ..." *)
| ErrTargetNotFound (target : string)       (* "Target '...' not found in config.toml" *)
| ErrUseListTargets
| ErrPostRequiresJson
| ErrBanner                                 (* "Outlook Web Calendar Fetcher" *)
| ErrRule                                   (* "=" * 40 *)
| ErrTargetLine (target username : string)  (* "Target: {target} ({username})" *)
| ErrNoEvents                               (* "No events found. ..." *)
| ErrTryAgain
| ErrFound (count : nat)                    (* "Found {n} calendar events" *)
| ErrNoPostUrl
| ErrSaved (path : string).                 (* "Saved to {path}" *)

Inductive main_action : Type :=
| Stdout (l : out_line)
| Stderr (l : err_line)
| GetCalendarEvents (days : Z) (headless : bool) (browser : string)
                    (username password : option string)
| FileWrite (path content : string)         (* open(path, 'w'); f.write(content) *)
| Deliver (a : action).                     (* what [post_to_url] does *)

(** How a run of [main] ends. *)
Inductive main_end : Type :=
| Returned
| Raised (e : exn)                          (* out of [parse_event] *)
| RaisedError (err : string).               (* out of [post_to_url], [open] or [write] *)

(** The outside world of [main]: the world of [post_to_url], the browser
    session behind [get_calendar_events], the readings of
    [datetime.now(timezone.utc)] in their order, and the file system
    ([None] when the file is written, the error otherwise). *)
Record main_world : Type := mk_main_world {
  net : world;
  calendar : Z -> bool -> string -> option string -> option string -> list string;
  utc_now : nat -> datetime;
  write_file : string -> string -> option string
}.

Definition get_credentials (config : toml_config) (target : string)
    : option string * option string * list main_action :=
  match target_lookup target (targets config) with
  | None => (None, None, [])
  | Some target_config =>
      let username := target_config !! "username" in
      let password := target_config !! "password" in
      (username, password,
       if opt_truthy username && negb (opt_truthy password)
       then [Stderr (ErrNoPassword (default "" username))]
       else [])
  end.

(** [print(f"  {name}: {cfg.get('username', '(no username)')}")] for each
    target. *)
Definition list_targets (config : toml_config) : list main_action :=
  match targets config with
  | [] => [Stdout OutNoTargets]
  | ts =>
      Stdout OutAvailableTargets
      :: map (fun nc => match nc with
                        | (name, cfg) =>
                            Stdout (OutTarget name
                                      (default "(no username)" (cfg !! "username")))
                        end) ts
  end.

(** The credentials [main] works with: those of the target when one is
    given. *)
Definition credentials (args : arguments) (config : toml_config)
    : option string * option string * list main_action :=
  if opt_truthy (arg_target args)
  then get_credentials config (default "" (arg_target args))
  else (None, None, []).

(** [quiet] of [main]: the status lines are left out when the document
    goes to stdout. *)
Definition status_quiet (args : arguments) : bool :=
  (arg_ical args || arg_json args) && negb (opt_truthy (arg_output args))
  && negb (arg_post args).

(** [with open(args.output, 'w') as f: f.write(text)] and the line that
    reports it. *)
Definition save (mw : main_world) (path text : string) (trace : list main_action)
    : main_end * list main_action :=
  match write_file mw path text with
  | Some err => (RaisedError err, trace ++ [FileWrite path text])
  | None => (Returned, trace ++ [FileWrite path text; Stderr (ErrSaved path)])
  end.

(** The text output: one line per event. *)
Definition text_line (ev : event) : main_action :=
  if all_day ev then Stdout (OutAllDay (start ev) (title ev))
  else Stdout (OutTimed (start ev) (end_ ev) (title ev)).

(** [config.get("post", {}).get("url")] *)
Definition post_url (config : toml_config) : option string :=
  default ∅ (tables config !! "post") !! "url".

(** The part of [main] after the parsing loop.  [post_to_url] is called
    bare: what it raises ends [main]; what it returns is not looked at.
    Within the strings of the model (code points up to U+00FF),
    [events_to_json] and [events_to_ical] do not raise. *)
Definition output (mw : main_world) (args : arguments) (config : toml_config)
    (parsed_events : list event) (trace : list main_action)
    : main_end * list main_action :=
  if arg_json args then
    let json_output := events_to_json (utc_now mw 0) parsed_events (arg_target args) in
    let write trace :=
      if opt_truthy (arg_output args)
      then save mw (default "" (arg_output args)) json_output trace
      else if negb (arg_post args)
           then (Returned, trace ++ [Stdout (OutDocument json_output)])
           else (Returned, trace) in
    if arg_post args then
      if negb (opt_truthy (post_url config))
      then (Returned, trace ++ [Stderr ErrNoPostUrl])
      else
        match post_to_url (net mw) json_output
                          (default "" (post_url config)) (tables config) with
        | (Raises err, did) => (RaisedError err, trace ++ map Deliver did)
        | (Answer _, did) => write (trace ++ map Deliver did)
        end
    else write trace
  else if arg_ical args then
    let ical_output := events_to_ical (utc_now mw) parsed_events in
    if opt_truthy (arg_output args)
    then save mw (default "" (arg_output args)) ical_output trace
    else (Returned, trace ++ [Stdout (OutDocument ical_output)])
  else (Returned, trace ++ map text_line parsed_events).

Definition main (mw : main_world) (args : arguments) (config : toml_config)
    : main_end * list main_action :=
  if arg_list_targets args then (Returned, list_targets config)
  else
    match credentials args config with
    | (username, password, trace) =>
        if opt_truthy (arg_target args) && negb (opt_truthy username) then
          (Returned,
           trace ++ [Stderr (ErrTargetNotFound (default "" (arg_target args)));
                     Stderr ErrUseListTargets])
        else if arg_post args && negb (arg_json args) then
          (Returned, trace ++ [Stderr ErrPostRequiresJson])
        else
          let quiet := status_quiet args in
          let trace :=
            trace ++
            (if quiet then []
             else Stderr ErrBanner :: Stderr ErrRule
                  :: (if opt_truthy (arg_target args)
                      then [Stderr (ErrTargetLine (default "" (arg_target args))
                                                  (default "" username))]
                      else [])) in
          let raw_events :=
            calendar mw (arg_days args) (arg_headless args) (arg_browser args)
                     username password in
          let trace :=
            trace ++ [GetCalendarEvents (arg_days args) (arg_headless args)
                                        (arg_browser args) username password] in
          match raw_events with
          | [] => (Returned, trace ++ [Stderr ErrNoEvents; Stderr ErrTryAgain])
          | _ =>
              match parse_all raw_events [] with
              | Raise e => (Raised e, trace)
              | Ok parsed_events =>
                  output mw args config parsed_events
                         (trace ++ (if quiet then []
                                    else [Stderr (ErrFound (length parsed_events))]))
              end
          end
    end.

(** Where a document goes. *)
Inductive sink : Type :=
| ToStdout (text : string)
| ToFile (path text : string)
| ToUrl (url text : string).

Definition sink_of (a : main_action) : option sink :=
  match a with
  | Stdout (OutDocument text) => Some (ToStdout text)
  | FileWrite path text => Some (ToFile path text)
  | Deliver (HttpPost url text _) => Some (ToUrl url text)
  | _ => None
  end.

(** The documents a run hands out, in order. *)
Definition sinks (trace : list main_action) : list sink := omap sink_of trace.

Definition is_fetch (a : main_action) : bool :=
  match a with GetCalendarEvents _ _ _ _ _ => true | _ => false end.

Definition is_stdout (a : main_action) : bool :=
  match a with Stdout _ => true | _ => false end.

(** The raw events [main] gets from [get_calendar_events]. *)
Definition raw_events_of (mw : main_world) (args : arguments) (config : toml_config)
    : list string :=
  match credentials args config with
  | (username, password, _) =>
      calendar mw (arg_days args) (arg_headless args) (arg_browser args)
               username password
  end.

(** The conditions under which [main] goes on to the browser: no
    [--list-targets], a target (when one is given) that has a user name,
    and no [--post] without [--json]. *)
Definition proceeds (args : arguments) (config : toml_config) : bool :=
  negb (arg_list_targets args)
  && (negb (opt_truthy (arg_target args)) || opt_truthy (credentials args config).1.1)
  && (negb (arg_post args) || arg_json args).


(** The lines that report: everything [main] prints but the document and
    the text lines of the events. *)
Definition is_status (a : main_action) : bool :=
  match a with
  | Stderr _ | Stdout OutAvailableTargets | Stdout (OutTarget _ _)
  | Stdout OutNoTargets => true
  | _ => false
  end.

(** The document of a run: JSON when [--json] is given, iCal otherwise. *)
Definition document (mw : main_world) (args : arguments) (evs : list event) : string :=
  if arg_json args then events_to_json (utc_now mw 0) evs (arg_target args)
  else events_to_ical (utc_now mw) evs.

(** The call of [get_calendar_events] a run makes. *)
Definition fetch_call (args : arguments) (config : toml_config) : main_action :=
  GetCalendarEvents (arg_days args) (arg_headless args) (arg_browser args)
                    (credentials args config).1.1 (credentials args config).1.2.


(** A world in which everything works: the files exist, the TLS set-up
    succeeds, the server answers 204, and the browser finds three texts. *)
Definition demo_world (raw_events : list string) : main_world :=
  mk_main_world
    (mk_world "/home/u" (fun p => Answer p) (fun _ => Answer true) (fun _ => 1024)
              None (fun _ => None) (fun _ _ => None) (fun _ _ => Response 204 ""))
    (fun _ _ _ _ _ => raw_events)
    (fun _ => mk_datetime 2026 2 1 8 30 15 0)
    (fun _ _ => None).

(** The same, with the client certificate configured under a name that is
    too long for the file system. *)
Definition long_name_world (raw_events : list string) : main_world :=
  mk_main_world world_with_long_name (fun _ _ _ _ _ => raw_events)
                (fun _ => mk_datetime 2026 2 1 8 30 15 0) (fun _ _ => None).

Definition demo_args (json post : bool) (out : option string) : arguments :=
  mk_arguments None "webkit" 14 false false json post out false.

Definition demo_config : toml_config :=
  mk_config {[ "post" := {[ "url" := "https://example.org/in" ]} ]}
            [("work", {[ "username" := "u@example.org" ]})].

Definition demo_events : list event :=
  [mk_event "Team Sync" (mk_datetime 2026 2 3 10 0 0 0)
            (mk_datetime 2026 2 3 11 0 0 0) false scenario1;
   mk_event "Offsite" (mk_datetime 2026 2 3 0 0 0 0)
            (mk_datetime 2026 2 3 23 59 0 0) true scenario2].


(** ** The extraction scripts of [get_calendar_events]

    The page is the outside world: it gives the texts of the elements the
    first selector matches and the [aria-label] attributes, in document
    order.  The JavaScript of the first script and the Python around the two
    [page.evaluate] calls are modelled. *)

(** The characters [String.prototype.trim] removes, among the code points
    of the model: TAB, LF, VT, FF, CR, the space and the no-break space. *)
Definition js_space (c : ascii) : bool :=
  Str.in_range 9 13 c || (Str.code c =? 32) || (Str.code c =? 160).

Fixpoint js_trim_start (s : string) : string :=
  match s with
  | EmptyString => EmptyString
  | String c s' => if js_space c then js_trim_start s' else s
  end.

Fixpoint js_trim_end (s : string) : string :=
  match s with
  | EmptyString => EmptyString
  | String c s' =>
      match js_trim_end s' with
      | EmptyString => if js_space c then EmptyString else String c EmptyString
      | r => String c r
      end
  end.

(** [s.trim()] *)
Definition js_trim (s : string) : string := js_trim_end (js_trim_start s).

(** [text.split('\n').map(l => l.trim()).filter(l => l)] *)
Definition js_lines (text : string) : list string :=
  List.filter Str.truthy (map js_trim (Str.split newline text)).

(** The body of the first [forEach]: what one element text pushes. *)
Definition element_item (text : string) : list item :=
  if Str.truthy (js_trim text) && (2 <? Str.len text) && (Str.len text <? 500)
  then if (0 <? length (js_lines text))%nat
       then [ItemDict (Some (js_trim text))]
       else []
  else [].

(** The test of the second [forEach] on a label. *)
Definition label_kept (label : string) : bool :=
  Str.truthy label && Str.contains ":" label
  && (Str.contains "AM" label || Str.contains "PM" label
      || Str.contains "meeting" label || Str.contains "event" label).

Definition label_item (label : string) : list item :=
  if label_kept label then [ItemDict (Some label)] else [].

(** What the first script returns. *)
Definition first_script (texts labels : list string) : list item :=
  concat (map element_item texts) ++ concat (map label_item labels).

(** What the second script returns: the dict [{embedded: text}] or an
    empty list. *)
Inductive fallback_result : Type :=
| Embedded (text : string)
| NothingEmbedded.

(** [for item in events_data] on the result of the second script: a dict
    is iterated by its keys, which are strings. *)
Definition fallback_items (fb : fallback_result) : list item :=
  match fb with
  | Embedded _ => [ItemOther]
  | NothingEmbedded => []
  end.

(** The raw events [get_calendar_events] returns for a page. *)
Definition scraped (texts labels : list string) (fb : fallback_result) : list string :=
  let events_data :=
    match first_script texts labels with
    | [] => fallback_items fb
    | events_data => events_data
    end in
  collect_events events_data.

(** A character that [trim] keeps. *)
Fixpoint has_ink (s : string) : bool :=
  match s with
  | EmptyString => false
  | String c s' => negb (js_space c) || has_ink s'
  end.


(** ** Labels in the expected format *)

Definition weekdays : list string :=
  ["Monday"; "Tuesday"; "Wednesday"; "Thursday"; "Friday"; "Saturday"; "Sunday"].

(** ["Tuesday, February 3, 2026"] *)
Definition date_words (W M dd yyyy : string) : string :=
  W +:+ ", " +:+ M +:+ " " +:+ dd +:+ ", " +:+ yyyy.

(** ["10:00 AM to 11:00 AM"] *)
Definition time_words (h1 m1 ap1 h2 m2 ap2 : string) : string :=
  h1 +:+ ":" +:+ m1 +:+ " " +:+ ap1 +:+ " to " +:+ h2 +:+ ":" +:+ m2 +:+ " " +:+ ap2.

(** ["Offsite, all day event, Tuesday, February 3, 2026"] *)
Definition all_day_label (t W M dd yyyy : string) : string :=
  t +:+ ", all day event, " +:+ date_words W M dd yyyy.

(** ["Team Sync, 10:00 AM to 11:00 AM, Tuesday, February 3, 2026"] *)
Definition timed_label (t h1 m1 ap1 h2 m2 ap2 W M dd yyyy : string) : string :=
  t +:+ ", " +:+ time_words h1 m1 ap1 h2 m2 ap2 +:+ ", " +:+ date_words W M dd yyyy.

(** A title [parse_event] takes as it is: no comma, no whitespace at the
    ends, and not one of the two sentinels. *)
Definition plain_title (t : string) : Prop :=
  count_char "," t = O /\ Str.strip t = t
  /\ Str.startswith "calendar view" t = false
  /\ Str.startswith "current time" t = false.

(** A repetition of [cls] cannot go on into [s]. *)
Definition blocked (cls : ascii -> bool) (s : string) : bool :=
  match s with
  | EmptyString => true
  | String c _ => negb (cls c)
  end.

Definition not_space (c : ascii) : bool := negb (Str.is_space c).


(** The hour a reading [h] of the 12-hour clock stands for, in the words
    of the rule: 12 AM is hour 0, 12 PM stays 12, and the hours 1 to 11
    gain 12 when PM. *)
Definition hour_rule (ampm : string) (h : Z) : Z :=
  if String.eqb ampm "PM" then (if h =? 12 then 12 else h + 12)
  else (if h =? 12 then 0 else h).

(** Scenario 1 with another time range. *)
Definition scenario1_at (h1 m1 ap1 h2 m2 ap2 : string) : string :=
  "Team Sync, " +:+ time_words h1 m1 ap1 h2 m2 ap2
  +:+ ", Tuesday, February 3, 2026, extra".

(** * Properties *)

(** ** Facts about the result monad, [datetime] and [parse_event] *)

Lemma bind_ok {A B : Type} (r : result A) (f : A -> result B) (b : B) :
  r ≫= f = Ok b -> exists a, r = Ok a /\ f a = Ok b.
Proof.
  destruct r as [a|e]; intros H; [exists a; split; [reflexivity|exact H]|discriminate H].
Qed.

Lemma catch_value_attribute_some {A : Type} (r : result (option A)) (a : A) :
  catch_value_attribute r = Ok (Some a) -> r = Ok (Some a).
Proof.
  destruct r as [o|[]]; simpl; intros H; try discriminate H; exact H.
Qed.

(** What a successful [datetime(...)] call establishes. *)
Record valid_fields (y m d H M : Z) : Prop := {
  vf_year : 1 <= y <= 9999;
  vf_month : 1 <= m <= 12;
  vf_day : 1 <= d <= days_in_month y m;
  vf_hour : 0 <= H <= 23;
  vf_minute : 0 <= M <= 59
}.

Lemma datetime_new_ok (y m d H M : Z) (t : datetime) :
  datetime_new y m d H M = Ok t ->
  t = mk_datetime y m d H M 0 0 /\ valid_fields y m d H M.
Proof.
  unfold datetime_new. intros E.
  repeat match type of E with
         | (if negb ?c then _ else _) = _ =>
             destruct c eqn:?; cbn [negb] in E; [|discriminate E]
         end.
  inversion E; subst t. split; [reflexivity|].
  split; lia.
Qed.

Ltac bind_inv H x Hx :=
  apply bind_ok in H as (x & Hx & H); cbv beta in H.

Lemma parse_date_time_ok (title0 raw0 : string) (st : scan_state) (dp : string)
    (e : event) :
  parse_date_time title0 raw0 st dp = Ok (Some e) ->
  exists y m d sH sM eH eM,
    e = mk_event title0 (mk_datetime y m d sH sM 0 0)
                 (mk_datetime y m d eH eM 0 0) (all_day_flag st) raw0
    /\ valid_fields y m d sH sM /\ valid_fields y m d eH eM
    /\ (all_day_flag st = true -> sH = 0 /\ sM = 0 /\ eH = 23 /\ eM = 59).
Proof.
  unfold parse_date_time. intros E.
  destruct (search date_re dp) as [dm|]; [|discriminate E].
  bind_inv E d Hd. bind_inv E y Hy.
  set (m := default 1 (group 2 dm ≫= (month_map !!.))) in E.
  destruct (all_day_flag st) eqn:Had.
  - bind_inv E s Hs. bind_inv E t Ht. inversion E; subst e.
    apply datetime_new_ok in Hs as [-> Vs]. apply datetime_new_ok in Ht as [-> Vt].
    exists y, m, d, 0, 0, 23, 59. split_and!; auto.
  - destruct (opt_truthy (time_part st)); [|discriminate E].
    destruct (rmatch time_re _) as [tm|]; [|discriminate E].
    bind_inv E sh Hsh. bind_inv E sm Hsm. bind_inv E eh Heh. bind_inv E em Hem.
    cbv zeta in E.
    bind_inv E s Hs. bind_inv E t Ht. inversion E; subst e.
    apply datetime_new_ok in Hs as [-> Vs]. apply datetime_new_ok in Ht as [-> Vt].
    eexists y, m, d, _, sm, _, em. split_and!; eauto; discriminate.
Qed.

(** Everything an accepted event carries, read off the code path that
    returns it. *)
Lemma parse_event_ok (raw0 : string) (e : event) :
  parse_event raw0 = Ok (Some e) ->
  let parts := Str.strip <$> Str.split "," raw0 in
  let st := scan parts 1 (drop 1 parts) scan_init in
  (3 <= length parts)%nat
  /\ Str.startswith "calendar view" (title e) = false
  /\ Str.startswith "current time" (title e) = false
  /\ exists y m d sH sM eH eM,
       e = mk_event (default "" (parts !! 0%nat)) (mk_datetime y m d sH sM 0 0)
                    (mk_datetime y m d eH eM 0 0) (all_day_flag st) raw0
       /\ valid_fields y m d sH sM /\ valid_fields y m d eH eM
       /\ (all_day_flag st = true -> sH = 0 /\ sM = 0 /\ eH = 23 /\ eM = 59).
Proof.
  intros E parts st. unfold parse_event in E. cbv zeta in E.
  fold parts in E. fold st in E.
  destruct (decide (length parts < 3)%nat) as [|Hlen]; [discriminate E|].
  destruct (Str.startswith "calendar view" _ || Str.startswith "current time" _)
    eqn:Hpre; [discriminate E|].
  destruct (negb (opt_truthy (date_part st))); [discriminate E|].
  apply catch_value_attribute_some, parse_date_time_ok in E
    as (y & m & d & sH & sM & eH & eM & -> & Vs & Ve & Hall).
  apply orb_false_iff in Hpre as [H1 H2]. cbn [title].
  split; [lia|]. split; [exact H1|]. split; [exact H2|].
  exists y, m, d, sH, sM, eH, eM. auto.
Qed.

(** ** The scanning loop *)

Lemma scan_app (parts pre : list string) (d : string) (post : list string)
    (i : nat) (st : scan_state) :
  Forall (fun p => is_date_marker p = false) pre ->
  is_date_marker d = true ->
  scan parts i (pre ++ d :: post) st =
  mk_scan
    (match last (List.filter is_time_marker pre) with
     | Some tp => Some tp
     | None => time_part st
     end)
    (Some (build_date_part parts (i + length pre) d))
    (all_day_flag st || existsb sets_all_day pre).
Proof.
  intros Hpre Hd. revert i st.
  induction Hpre as [|p pre Hp Hpre IH]; intros i st.
  - cbn [app scan List.filter last existsb length].
    unfold is_date_marker in Hd.
    apply andb_true_iff in Hd as [Hd Hw]. apply andb_true_iff in Hd as [Ht Ha].
    apply negb_true_iff in Ht, Ha. rewrite Ht, Ha, Hw.
    rewrite Nat.add_0_r, orb_false_r. reflexivity.
  - cbn [app scan List.filter existsb length].
    unfold is_date_marker in Hp. unfold sets_all_day at 1.
    replace (i + S (length pre))%nat with (S i + length pre)%nat by lia.
    destruct (is_time_marker p) eqn:Ht.
    + rewrite IH. cbn [time_part date_part all_day_flag negb andb orb].
      f_equal. destruct (List.filter is_time_marker pre) as [|q l] eqn:Hf.
      * reflexivity.
      * change (last (p :: q :: l)) with (last (q :: l)).
        destruct (last (q :: l)) eqn:Hl; [reflexivity|].
        apply last_None in Hl. discriminate Hl.
    + destruct (is_all_day_marker p) eqn:Ha.
      * rewrite IH. cbn [time_part date_part all_day_flag negb andb orb].
        f_equal. symmetry. apply orb_true_r.
      * cbn [negb andb] in Hp. rewrite Hp, IH. reflexivity.
Qed.

Lemma build_date_part_join (front : list string) (d : string) (post : list string) :
  build_date_part (front ++ d :: post) (length front) d
  = Str.join ", " (d :: take 2 post).
Proof.
  unfold build_date_part. rewrite !length_app. cbn [length].
  destruct post as [|p1 [|p2 post]]; cbn [length take Str.join].
  - repeat case_decide; try lia. reflexivity.
  - repeat case_decide; try lia.
    rewrite lookup_app_r by lia.
    replace (length front + 1 - length front)%nat with 1%nat by lia.
    reflexivity.
  - repeat case_decide; try lia.
    rewrite !lookup_app_r by lia.
    replace (length front + 1 - length front)%nat with 1%nat by lia.
    replace (length front + 2 - length front)%nat with 2%nat by lia.
    reflexivity.
Qed.

(** ** Accepted events *)

Lemma lex_leb_same_prefix (y m d sH sM eH eM : Z) :
  0 <= sM <= 59 -> 0 <= eM <= 59 ->
  dt_leb (mk_datetime y m d sH sM 0 0) (mk_datetime y m d eH eM 0 0) = true
  <-> 60 * sH + sM <= 60 * eH + eM.
Proof.
  intros Hs He. unfold dt_leb, dt_key. cbn [lex_leb year month day hour minute second microsecond].
  rewrite !Z.ltb_irrefl, !Z.eqb_refl. cbn [orb andb].
  rewrite andb_true_r.
  rewrite orb_true_iff, andb_true_iff, orb_true_iff, !Z.ltb_lt, !Z.eqb_eq.
  lia.
Qed.

(** C1 fails as stated: the range "11:00 PM to 1:00 AM" is accepted, and
    its start, 23:00, is after its end, 01:00 of the same day. *)
Lemma parse_event_crossing_midnight :
  exists e : event,
    parse_event crossing_midnight = Ok (Some e)
    /\ all_day e = false
    /\ start e = mk_datetime 2026 2 3 23 0 0 0
    /\ end_ e = mk_datetime 2026 2 3 1 0 0 0
    /\ dt_leb (start e) (end_ e) = false.
Proof.
  eexists. split; [vm_compute; reflexivity|]. cbn [all_day start end_].
  split_and!; reflexivity.
Qed.

(** C1, amended: for every event [parse_event] accepts, when [all_day]
    is true the start is a day at 00:00 and the end is the same day at
    23:59, so that [start <= end]; for any accepted event [start <= end]
    holds exactly when the start's time of day is not after the end's, which
    a range crossing midnight does not satisfy. *)
Theorem parse_event_start_end (raw0 : string) (e : event) :
  parse_event raw0 = Ok (Some e) ->
  (all_day e = true ->
     exists y m d : Z,
       start e = mk_datetime y m d 0 0 0 0
       /\ end_ e = mk_datetime y m d 23 59 0 0
       /\ dt_leb (start e) (end_ e) = true)
  /\ (dt_leb (start e) (end_ e) = true
      <-> minute_of_day (start e) <= minute_of_day (end_ e)).
Proof.
  intros E. apply parse_event_ok in E as (_ & _ & _ & E).
  destruct E as (y & m & d & sH & sM & eH & eM & -> & Vs & Ve & Hall).
  cbn [all_day start end_]. split.
  - intros Had. destruct (Hall Had) as (-> & -> & -> & ->).
    exists y, m, d. split_and!; try reflexivity.
    apply lex_leb_same_prefix; lia.
  - unfold minute_of_day. cbn [hour minute].
    apply lex_leb_same_prefix; [apply Vs|apply Ve].
Qed.

Lemma parse_event_start_end_witness :
  let e := mk_event "Offsite" (mk_datetime 2026 2 3 0 0 0 0)
                    (mk_datetime 2026 2 3 23 59 0 0) true scenario2 in
  parse_event scenario2 = Ok (Some e)
  /\ ((all_day e = true ->
         exists y m d : Z,
           start e = mk_datetime y m d 0 0 0 0
           /\ end_ e = mk_datetime y m d 23 59 0 0
           /\ dt_leb (start e) (end_ e) = true)
      /\ (dt_leb (start e) (end_ e) = true
          <-> minute_of_day (start e) <= minute_of_day (end_ e))).
Proof.
  split; [vm_compute; reflexivity|].
  apply (parse_event_start_end scenario2). vm_compute; reflexivity.
Defined.

(** C10: the start and the end of an accepted timed event carry the same
    year, month and day, those of the one [datetime] date the event was
    built from: the end is never moved to the following day. *)
Theorem parse_event_same_date (raw0 : string) (e : event) :
  parse_event raw0 = Ok (Some e) ->
  all_day e = false ->
  same_date (start e) (end_ e)
  /\ exists y m d sH sM eH eM : Z,
       start e = mk_datetime y m d sH sM 0 0
       /\ end_ e = mk_datetime y m d eH eM 0 0.
Proof.
  intros E _. apply parse_event_ok in E as (_ & _ & _ & E).
  destruct E as (y & m & d & sH & sM & eH & eM & -> & _).
  cbn [start end_]. split.
  - unfold same_date. cbn [year month day]. auto.
  - exists y, m, d, sH, sM, eH, eM. auto.
Qed.

Lemma parse_event_same_date_witness :
  let e := mk_event "Late" (mk_datetime 2026 2 3 23 0 0 0)
                    (mk_datetime 2026 2 3 1 0 0 0) false crossing_midnight in
  parse_event crossing_midnight = Ok (Some e)
  /\ all_day e = false
  /\ same_date (start e) (end_ e).
Proof.
  split; [vm_compute; reflexivity|]. split; [reflexivity|].
  apply (parse_event_same_date crossing_midnight); vm_compute; reflexivity.
Defined.

Lemma strip_first_segment (l : list string) :
  default "" ((Str.strip <$> l) !! 0%nat) = Str.strip (hd "" l).
Proof. destruct l; reflexivity. Qed.

(** C6 fails as stated: a text that begins with a comma is accepted with
    the empty title. *)
Lemma parse_event_empty_title :
  exists e : event,
    parse_event leading_comma = Ok (Some e) /\ title e = "".
Proof. eexists. split; [vm_compute; reflexivity|reflexivity]. Qed.

(** C6, amended: the title of an accepted event is the first
    comma-delimited segment of the text with its surrounding whitespace
    removed, and it starts with neither "calendar view" nor "current time";
    it may be empty. *)
Theorem parse_event_title (raw0 : string) (e : event) :
  parse_event raw0 = Ok (Some e) ->
  title e = Str.strip (hd "" (Str.split "," raw0))
  /\ Str.startswith "calendar view" (title e) = false
  /\ Str.startswith "current time" (title e) = false.
Proof.
  intros E. apply parse_event_ok in E as (_ & H1 & H2 & E).
  destruct E as (y & m & d & sH & sM & eH & eM & He & _).
  split; [|split; assumption].
  rewrite He. cbn [title]. apply strip_first_segment.
Qed.

Lemma parse_event_title_witness :
  parse_event scenario1
  = Ok (Some (mk_event "Team Sync" (mk_datetime 2026 2 3 10 0 0 0)
                       (mk_datetime 2026 2 3 11 0 0 0) false scenario1))
  /\ "Team Sync" = Str.strip (hd "" (Str.split "," scenario1))
  /\ Str.startswith "calendar view" "Team Sync" = false
  /\ Str.startswith "current time" "Team Sync" = false.
Proof.
  split; [vm_compute; reflexivity|].
  apply (parse_event_title scenario1
           (mk_event "Team Sync" (mk_datetime 2026 2 3 10 0 0 0)
                     (mk_datetime 2026 2 3 11 0 0 0) false scenario1)).
  vm_compute; reflexivity.
Defined.

(** C4 fails as stated: of two time-range segments before the date
    marker, the loop keeps the second, and the event starts at 15:00, not
    at 13:00. *)
Lemma parse_event_two_time_ranges :
  is_time_marker "1:00 PM to 2:00 PM" = true
  /\ is_time_marker "3:00 PM to 4:00 PM" = true
  /\ (let parts := Str.strip <$> Str.split "," two_time_ranges in
      time_part (scan parts 1 (drop 1 parts) scan_init)
      = Some "3:00 PM to 4:00 PM")
  /\ parse_event two_time_ranges
     = Ok (Some (mk_event "T" (mk_datetime 2026 1 5 15 0 0 0)
                          (mk_datetime 2026 1 5 16 0 0 0) false two_time_ranges)).
Proof. split_and!; vm_compute; reflexivity. Qed.

(** C4, amended: when the segments after the title are [pre], then a
    segment [d] at which the loop reaches its date branch, then [post], and
    no segment of [pre] is such a date marker, the scan ends at [d]: the
    time range it keeps is the last time-range segment of [pre] (each match
    overwrites the previous one), the all-day flag is set when some segment
    of [pre] reaches the all-day branch, and the date text is [d] followed
    by at most two segments of [post], which are not examined for
    markers. *)
Theorem scan_last_time_first_date (t : string) (pre : list string) (d : string)
    (post : list string) :
  Forall (fun p => is_date_marker p = false) pre ->
  is_date_marker d = true ->
  let parts := t :: pre ++ d :: post in
  scan parts 1 (drop 1 parts) scan_init =
  mk_scan (last (List.filter is_time_marker pre))
          (Some (Str.join ", " (d :: take 2 post)))
          (existsb sets_all_day pre).
Proof.
  intros Hpre Hd parts. unfold parts.
  change (drop 1 (t :: pre ++ d :: post)%list) with (pre ++ d :: post)%list.
  rewrite scan_app by assumption.
  cbn [scan_init time_part all_day_flag orb].
  f_equal.
  - destruct (last _); reflexivity.
  - f_equal.
    replace (t :: pre ++ d :: post)%list with ((t :: pre) ++ d :: post)%list
      by reflexivity.
    replace (1 + length pre)%nat with (length (t :: pre)) by reflexivity.
    apply build_date_part_join.
Qed.

Lemma scan_last_time_first_date_witness :
  Forall (fun p => is_date_marker p = false)
         ["1:00 PM to 2:00 PM"; "3:00 PM to 4:00 PM"]
  /\ is_date_marker "Monday" = true
  /\ scan ["T"; "1:00 PM to 2:00 PM"; "3:00 PM to 4:00 PM"; "Monday";
           "January 5"; "2026"; "Monday 9:00 AM to 10:00 AM"] 1
          ["1:00 PM to 2:00 PM"; "3:00 PM to 4:00 PM"; "Monday";
           "January 5"; "2026"; "Monday 9:00 AM to 10:00 AM"] scan_init
     = mk_scan (Some "3:00 PM to 4:00 PM") (Some "Monday, January 5, 2026") false.
Proof.
  assert (Forall (fun p => is_date_marker p = false)
                 ["1:00 PM to 2:00 PM"; "3:00 PM to 4:00 PM"]) as Hpre
    by (repeat constructor).
  assert (is_date_marker "Monday" = true) as Hd by reflexivity.
  split; [exact Hpre|]. split; [exact Hd|].
  exact (scan_last_time_first_date "T" _ "Monday"
           ["January 5"; "2026"; "Monday 9:00 AM to 10:00 AM"] Hpre Hd).
Defined.

(** ** What [parse_event] can raise *)

Lemma rep_some {R : Type} (cls : ascii -> bool) (lo : nat) (hi : option nat)
    (s : string) (k : string -> option R) (x : R) :
  rep cls lo hi s k = Some x -> exists s', k s' = Some x.
Proof.
  revert lo hi. induction s as [|c s IH]; intros lo hi H; cbn [rep] in H.
  - destruct lo; [eauto|discriminate H].
  - destruct (can_take hi && cls c).
    + destruct (rep cls (Nat.pred lo) (dec_hi hi) s k) eqn:E.
      * inversion H; subst. eapply IH. exact E.
      * destruct lo; [eauto|discriminate H].
    + destruct lo; [eauto|discriminate H].
Qed.

(** A successful run reaches its continuation with every group of the
    pattern bound, and no group lost. *)
Lemma run_binds {R : Type} (r : regex) :
  forall (s : string) (g : groups) (k : string -> groups -> option R) (x : R),
    run r s g k = Some x ->
    exists s' g',
      k s' g' = Some x
      /\ forall n, binds r n = true \/ is_Some (group n g) -> is_Some (group n g').
Proof.
  induction r as [p|cls lo hi|r1 IH1 r2 IH2|r1 IH1 r2 IH2|m r1 IH1];
    intros s g k x H; cbn [run] in H.
  - destruct (drop_prefix p s) as [s'|]; [|discriminate H].
    exists s', g. split; [exact H|]. intros n [Hn|Hn]; [discriminate Hn|exact Hn].
  - apply rep_some in H as (s' & H). exists s', g. split; [exact H|].
    intros n [Hn|Hn]; [discriminate Hn|exact Hn].
  - apply IH1 in H as (s1 & g1 & H & H1). apply IH2 in H as (s2 & g2 & H & H2).
    exists s2, g2. split; [exact H|]. intros n Hn. apply H2.
    cbn [binds] in Hn. destruct Hn as [Hn|Hn].
    + apply orb_true_iff in Hn as [Hn|Hn]; [right; apply H1|]; auto.
    + right. apply H1. auto.
  - destruct (run r1 s g k) as [y|] eqn:E.
    + inversion H; subst y. apply IH1 in E as (s' & g' & E & H1).
      exists s', g'. split; [exact E|]. intros n [Hn|Hn]; apply H1; [|auto].
      cbn [binds] in Hn. apply andb_true_iff in Hn as [Hn _]. auto.
    + apply IH2 in H as (s' & g' & H & H2).
      exists s', g'. split; [exact H|]. intros n [Hn|Hn]; apply H2; [|auto].
      cbn [binds] in Hn. apply andb_true_iff in Hn as [_ Hn]. auto.
  - apply IH1 in H as (s' & g' & H & H1).
    exists s', ((m, consumed s s') :: g'). split; [exact H|].
    intros n Hn. cbn [group]. destruct (Nat.eqb m n) eqn:E; [eauto|].
    apply H1. cbn [binds] in Hn. rewrite E in Hn. exact Hn.
Qed.

Lemma rmatch_binds (r : regex) (s : string) (g : groups) (n : nat) :
  rmatch r s = Some g -> binds r n = true -> is_Some (group n g).
Proof.
  unfold rmatch. intros H Hn.
  apply run_binds in H as (s' & g' & H & Hg). inversion H; subst g'. auto.
Qed.

Lemma search_binds (r : regex) (s : string) (g : groups) (n : nat) :
  search r s = Some g -> binds r n = true -> is_Some (group n g).
Proof.
  induction s as [|c s IH]; cbn [search]; intros H Hn;
    destruct (rmatch r _) as [g0|] eqn:E.
  - inversion H; subst g0. eapply rmatch_binds; eassumption.
  - discriminate H.
  - inversion H; subst g0. eapply rmatch_binds; eassumption.
  - auto.
Qed.

Lemma int_group_raise (o : option string) (e : exn) :
  is_Some o -> int_group o = Raise e -> e = ValueError.
Proof.
  intros [s ->]. unfold int_group, int_. intros H.
  destruct (int_max_str_digits <? Str.len s); [inversion H; reflexivity|].
  destruct s; [inversion H; reflexivity|].
  destruct (int_digits 0 _); [discriminate H|inversion H; reflexivity].
Qed.

Lemma datetime_new_raise (y m d H M : Z) (e : exn) :
  datetime_new y m d H M = Raise e -> e = ValueError \/ e = OverflowError.
Proof.
  unfold datetime_new. intros E.
  repeat match type of E with
         | (if ?c then _ else _) = _ => destruct c
         end; inversion E; auto.
Qed.

Lemma bind_raise {A B : Type} (r : result A) (f : A -> result B) (e : exn) :
  r ≫= f = Raise e -> r = Raise e \/ exists a, r = Ok a /\ f a = Raise e.
Proof.
  destruct r as [a|e']; intros H; [right; eauto|left].
  change (@Raise B e' = Raise e) in H. inversion H. reflexivity.
Qed.

Ltac raise_inv H :=
  let a := fresh "a" in
  let Ha := fresh "Ha" in
  apply bind_raise in H as [H|(a & Ha & H)]; cbv beta in H.

Lemma parse_date_time_raise (title0 raw0 : string) (st : scan_state) (dp : string)
    (e : exn) :
  parse_date_time title0 raw0 st dp = Raise e -> e = ValueError \/ e = OverflowError.
Proof.
  unfold parse_date_time. intros E.
  destruct (search date_re dp) as [dm|] eqn:Hdm; [|discriminate E].
  pose proof (search_binds date_re dp dm 3 Hdm eq_refl) as H3.
  pose proof (search_binds date_re dp dm 4 Hdm eq_refl) as H4.
  raise_inv E; [left; eapply int_group_raise; [|exact E]; assumption|].
  raise_inv E; [left; eapply int_group_raise; [|exact E]; assumption|].
  destruct (all_day_flag st).
  - raise_inv E; [eapply datetime_new_raise; eassumption|].
    raise_inv E; [eapply datetime_new_raise; eassumption|discriminate E].
  - destruct (opt_truthy (time_part st)); [|discriminate E].
    destruct (rmatch time_re _) as [tm|] eqn:Htm; [|discriminate E].
    pose proof (rmatch_binds time_re _ tm 1 Htm eq_refl) as T1.
    pose proof (rmatch_binds time_re _ tm 2 Htm eq_refl) as T2.
    pose proof (rmatch_binds time_re _ tm 4 Htm eq_refl) as T4.
    pose proof (rmatch_binds time_re _ tm 5 Htm eq_refl) as T5.
    raise_inv E; [left; eapply int_group_raise; [|exact E]; assumption|].
    raise_inv E; [left; eapply int_group_raise; [|exact E]; assumption|].
    raise_inv E; [left; eapply int_group_raise; [|exact E]; assumption|].
    raise_inv E; [left; eapply int_group_raise; [|exact E]; assumption|].
    cbv zeta in E.
    raise_inv E; [eapply datetime_new_raise; eassumption|].
    raise_inv E; [eapply datetime_new_raise; eassumption|discriminate E].
Qed.

(** The only exception that leaves [parse_event] is [OverflowError]. *)
Lemma parse_event_raise (raw0 : string) (e : exn) :
  parse_event raw0 = Raise e -> e = OverflowError.
Proof.
  unfold parse_event. cbv zeta. intros E.
  destruct (decide _); [discriminate E|].
  destruct (_ || _); [discriminate E|].
  destruct (negb _); [discriminate E|].
  destruct (parse_date_time _ _ _ _) as [o|e'] eqn:Hp; cbn [catch_value_attribute] in E.
  - discriminate E.
  - apply parse_date_time_raise in Hp as [->| ->]; [discriminate E|].
    inversion E. reflexivity.
Qed.

(** An impossible day of the month is a [ValueError] of [datetime], which
    the handler turns into a rejection. *)
Lemma parse_event_february_30 : parse_event february_30 = Ok None.
Proof. vm_compute; reflexivity. Qed.

(** C5: [parse_event] leaves through an exception on a day number that
    does not fit a C [int]: [datetime] raises [OverflowError], which the
    handler for [ValueError] and [AttributeError] does not catch. *)
Theorem parse_event_raises_overflow :
  parse_event huge_day = Raise OverflowError.
Proof. vm_compute; reflexivity. Qed.

(** ** The collector *)

Lemma first_index_None (x : string) (l : list string) :
  first_index x l = None <-> x ∉ l.
Proof.
  induction l as [|y l IH]; cbn [first_index].
  - split; [intros _; apply not_elem_of_nil|reflexivity].
  - rewrite not_elem_of_cons. destruct (decide (x = y)) as [->|Hne].
    + split; [discriminate|intros [H _]; contradiction].
    + destruct (first_index x l); cbn [fmap option_fmap option_map].
      * split; [discriminate|]. intros [_ H]. apply IH in H. discriminate H.
      * split; [|reflexivity]. intros _. split; [exact Hne|]. apply IH. reflexivity.
Qed.

Lemma first_index_lt (x : string) (l : list string) (n : nat) :
  first_index x l = Some n -> (n < length l)%nat.
Proof.
  revert n. induction l as [|y l IH]; cbn [first_index length]; intros n H.
  - discriminate H.
  - destruct (decide (x = y)); [inversion H; lia|].
    destruct (first_index x l) as [k|]; [|discriminate H].
    inversion H; subst n. specialize (IH k eq_refl). lia.
Qed.

Lemma first_index_app_l (x : string) (l l' : list string) (n : nat) :
  first_index x l = Some n -> first_index x (l ++ l') = Some n.
Proof.
  revert n. induction l as [|y l IH]; cbn [first_index app]; intros n H.
  - discriminate H.
  - destruct (decide (x = y)); [exact H|].
    destruct (first_index x l) as [k|]; [|discriminate H].
    rewrite (IH k eq_refl). exact H.
Qed.

Lemma first_index_snoc_new (x : string) (l : list string) :
  x ∉ l -> first_index x (l ++ [x]) = Some (length l).
Proof.
  induction l as [|y l IH]; cbn [first_index app length]; intros H.
  - rewrite decide_True by reflexivity. reflexivity.
  - apply not_elem_of_cons in H as [Hne H].
    rewrite decide_False by exact Hne. rewrite (IH H). reflexivity.
Qed.

(** What holds of the loop's variables after it has read the items [p]. *)
Record collect_inv (p : list item) (st : collector) : Prop := {
  inv_seen : forall x, x ∈ seen st <-> x ∈ events st;
  inv_nodup : NoDup (events st);
  inv_long : Forall (fun x => 5 < Str.len x) (events st);
  inv_all : forall x, x ∈ events st <-> x ∈ fragments p /\ 5 < Str.len x;
  inv_order : exists idxs : list nat,
    Forall2 (fun x n => first_index x (fragments p) = Some n) (events st) idxs
    /\ StronglySorted lt idxs
}.

Lemma fragments_snoc (p : list item) (it : item) :
  fragments (p ++ [it]) =
  (fragments p ++ match it with
                  | ItemDict raw_field => [default "" raw_field]
                  | ItemOther => []
                  end)%list.
Proof.
  unfold fragments. rewrite omap_app. f_equal. destruct it; reflexivity.
Qed.

Lemma collect_inv_init : collect_inv [] (mk_collector ∅ []).
Proof.
  split; cbn [seen events]; change (fragments []) with (@nil string).
  - intros x. rewrite elem_of_nil. set_solver.
  - constructor.
  - constructor.
  - intros x. rewrite !elem_of_nil. tauto.
  - exists []. split; constructor.
Qed.

Lemma collect_inv_skip (p : list item) (st : collector) (x : string) :
  collect_inv p st ->
  (5 < Str.len x -> x ∈ events st) ->
  collect_inv (p ++ [ItemDict (Some x)]) st
  /\ forall o, default "" o = x -> collect_inv (p ++ [ItemDict o]) st.
Proof.
  intros [Hseen Hnd Hlong Hall (idxs & Hidx & Hsorted)] Hx.
  assert (forall o, default "" o = x -> collect_inv (p ++ [ItemDict o]) st) as H.
  { intros o Ho. split; try assumption.
    - intros y. rewrite fragments_snoc, Ho, elem_of_app, list_elem_of_singleton.
      rewrite Hall. split; [tauto|]. intros [[Hy| ->] Hl]; [tauto|].
      apply Hall. auto.
    - exists idxs. split; [|exact Hsorted].
      eapply Forall2_impl; [exact Hidx|]. cbv beta. intros y n Hy.
      rewrite fragments_snoc. apply first_index_app_l. exact Hy. }
  split; [apply (H (Some x)); reflexivity|exact H].
Qed.

Lemma collect_inv_step (p : list item) (st : collector) (it : item) :
  collect_inv p st -> collect_inv (p ++ [it]) (collect_step st it).
Proof.
  intros Inv. destruct it as [o|]; cbn [collect_step].
  - set (x := default "" o).
    destruct (Str.truthy x && bool_decide (x ∉ seen st) && (5 <? Str.len x)) eqn:Htest.
    + apply andb_true_iff in Htest as [Htest Hlen].
      apply andb_true_iff in Htest as [_ Hnew].
      apply bool_decide_eq_true in Hnew. apply Z.ltb_lt in Hlen.
      destruct Inv as [Hseen Hnd Hlong Hall (idxs & Hidx & Hsorted)].
      assert (x ∉ events st) as Hnotin by (rewrite <- Hseen; exact Hnew).
      assert (x ∉ fragments p) as Hfresh.
      { intros Hin. apply Hnotin, Hall. auto. }
      split; cbn [seen events].
      * intros y. rewrite elem_of_union, elem_of_singleton, elem_of_app,
          list_elem_of_singleton, Hseen. reflexivity.
      * apply NoDup_app. split; [exact Hnd|]. split; [|apply NoDup_singleton].
        intros y Hy Hy'. apply list_elem_of_singleton in Hy'. subst y. contradiction.
      * apply Forall_app. split; [exact Hlong|]. constructor; [exact Hlen|constructor].
      * intros y. rewrite fragments_snoc. fold x.
        rewrite !elem_of_app, !list_elem_of_singleton, Hall.
        split; [intros [[H1 H2]| ->]; auto|intros [[H1| ->] H2]; auto].
      * exists (idxs ++ [length (fragments p)])%list. split.
        -- apply Forall2_app.
           ++ eapply Forall2_impl; [exact Hidx|]. cbv beta. intros y n Hy.
              rewrite fragments_snoc. apply first_index_app_l. exact Hy.
           ++ constructor; [|constructor]. rewrite fragments_snoc. fold x.
              apply first_index_snoc_new. exact Hfresh.
        -- clear - Hidx Hsorted.
           revert Hidx Hsorted. generalize (events st) as l. intros l Hidx.
           induction Hidx as [|y n l idxs Hy Hidx IH]; intros Hsorted.
           ++ repeat constructor.
           ++ apply StronglySorted_inv in Hsorted as [Hs Hn].
              cbn [app]. constructor; [apply IH; exact Hs|].
              apply Forall_app. split; [exact Hn|].
              constructor; [|constructor]. eapply first_index_lt. exact Hy.
    + apply (collect_inv_skip p st x Inv); [|reflexivity].
      intros Hlen. apply Z.ltb_lt in Hlen. rewrite Hlen, andb_true_r in Htest.
      assert (Str.truthy x = true) as Ht.
      { destruct x; [vm_compute in Hlen; discriminate Hlen|reflexivity]. }
      rewrite Ht in Htest. cbn [andb] in Htest.
      apply bool_decide_eq_false in Htest.
      apply (inv_seen p st Inv). destruct (decide (x ∈ seen st)); [assumption|contradiction].
  - destruct Inv as [Hseen Hnd Hlong Hall (idxs & Hidx & Hsorted)].
    split; try assumption.
    + intros y. rewrite fragments_snoc, app_nil_r. apply Hall.
    + exists idxs. rewrite fragments_snoc, app_nil_r. auto.
Qed.

Lemma collect_inv_foldl (p q : list item) (st : collector) :
  collect_inv p st -> collect_inv (p ++ q) (foldl collect_step st q).
Proof.
  revert p st. induction q as [|it q IH]; intros p st Inv; cbn [foldl].
  - rewrite app_nil_r. exact Inv.
  - replace (p ++ it :: q)%list with ((p ++ [it]) ++ q)%list
      by (rewrite <- app_assoc; reflexivity).
    apply IH, collect_inv_step, Inv.
Qed.

(** C3: for every sequence of items, the list the deduplication loop
    returns has no duplicate, holds only fragments longer than 5, holds
    every such fragment of the input, and lists them by first occurrence:
    the positions of the first occurrences in the input increase along the
    output. *)
Theorem collect_events_spec (events_data : list item) :
  NoDup (collect_events events_data)
  /\ Forall (fun x => 5 < Str.len x) (collect_events events_data)
  /\ (forall x, x ∈ collect_events events_data
                <-> x ∈ fragments events_data /\ 5 < Str.len x)
  /\ exists idxs : list nat,
       Forall2 (fun x n => first_index x (fragments events_data) = Some n)
               (collect_events events_data) idxs
       /\ StronglySorted lt idxs.
Proof.
  destruct (collect_inv_foldl [] events_data _ collect_inv_init)
    as [_ Hnd Hlong Hall Hord].
  unfold collect_events. auto.
Qed.

Example collect_events_example :
  collect_events [ItemDict (Some "Team Sync, 10:00 AM"); ItemOther;
                  ItemDict (Some "short"); ItemDict None;
                  ItemDict (Some "Offsite, all day");
                  ItemDict (Some "Team Sync, 10:00 AM")]
  = ["Team Sync, 10:00 AM"; "Offsite, all day"].
Proof. vm_compute. reflexivity. Qed.

(** ** Secure delivery *)

Section DeliveryFacts.

Variable w : world.

Lemma first_missing_spec (files : list (string * string)) :
  match first_missing w files with
  | Answer (Some (path, name)) =>
      (path, name) ∈ files /\ path_exists w path = Answer false
  | Answer None =>
      forall path name, (path, name) ∈ files -> path_exists w path = Answer true
  | Raises err =>
      exists path name, (path, name) ∈ files /\ path_exists w path = Raises err
  end.
Proof.
  induction files as [|[p n] files IH]; cbn [first_missing].
  - intros path name H. apply elem_of_nil in H. contradiction.
  - destruct (path_exists w p) as [[]|err] eqn:Hp.
    + destruct (first_missing w files) as [[[path name]|]|err].
      * destruct IH as [Hin Hmiss]. split; [right; exact Hin|exact Hmiss].
      * intros path name H. apply elem_of_cons in H as [H|H].
        -- inversion H; subst. exact Hp.
        -- eapply IH. exact H.
      * destruct IH as (path & name & Hin & Hf). exists path, name.
        split; [right; exact Hin|exact Hf].
    + split; [left|exact Hp].
    + exists p, n. split; [left|exact Hp].
Qed.


Lemma verify_files_spec (files : list (string * string)) (trace : list action) :
  exists logs,
    verify_files w files trace = (first_missing w files, trace ++ logs)
    /\ quiet logs = true.
Proof.
  revert trace. induction files as [|[p n] files IH]; intros trace;
    cbn [verify_files first_missing].
  - exists []. rewrite app_nil_r. auto.
  - destruct (path_exists w p) as [[]|err].
    + destruct (IH (trace ++ [Log (LogFileExists n (file_size w p))])) as (logs & -> & Hq).
      exists (Log (LogFileExists n (file_size w p)) :: logs).
      rewrite <- app_assoc. auto.
    + exists [Log (LogNotFound n p)]. auto.
    + exists []. rewrite app_nil_r. auto.
Qed.

Lemma resolved_files_inv (config : gmap string (gmap string string))
    (files : list (string * string)) :
  resolved_files w config = Answer files ->
  exists ca cert key,
    resolve w (default ∅ (config !! "mtls")) "ca" "ca.pem" = Answer ca
    /\ resolve w (default ∅ (config !! "mtls")) "cert" "crt.pem" = Answer cert
    /\ resolve w (default ∅ (config !! "mtls")) "key" "key.pem" = Answer key
    /\ files = cert_files ca cert key.
Proof.
  unfold resolved_files. cbv zeta.
  destruct (resolve w _ "ca" "ca.pem") as [ca|e]; [|discriminate].
  destruct (resolve w _ "cert" "crt.pem") as [cert|e]; [|discriminate].
  destruct (resolve w _ "key" "key.pem") as [key|e]; [|discriminate].
  intros H. inversion H. exists ca, cert, key. auto.
Qed.

(** [post_to_url] once the three paths are resolved. *)
Lemma post_to_url_resolved (data url : string)
    (config : gmap string (gmap string string)) (ca cert key : string) :
  resolve w (default ∅ (config !! "mtls")) "ca" "ca.pem" = Answer ca ->
  resolve w (default ∅ (config !! "mtls")) "cert" "crt.pem" = Answer cert ->
  resolve w (default ∅ (config !! "mtls")) "key" "key.pem" = Answer key ->
  post_to_url w data url config
  = match first_missing w (cert_files ca cert key) with
    | Raises err => (Raises err, [])
    | Answer (Some (path, name)) =>
        (Answer false, [PrintStderr (MsgFileNotFound name path)])
    | Answer None =>
        (Answer (try_post w data url ca cert key).1, (try_post w data url ca cert key).2)
    end.
Proof.
  intros H1 H2 H3. unfold post_to_url. cbv zeta. rewrite H1, H2, H3.
  unfold mbind, answer_bind, mret, answer_ret. cbv beta iota.
  destruct (first_missing w (cert_files ca cert key)) as [[[path name]|]|err];
    try reflexivity.
  destruct (try_post w data url ca cert key). reflexivity.
Qed.

End DeliveryFacts.




Example post_to_url_all_present :
  post_to_url (mk_world "/home/u" (fun p => Answer p) (fun _ => Answer true)
                        (fun _ => 1024)
                        None (fun _ => None) (fun _ _ => None)
                        (fun _ _ => Response 204 ""))
              "{}" "https://example.org/in" ∅
  = (Answer true,
     [SslCreateDefaultContext;
      SslLoadVerifyLocations "/home/u/.config/cauth/ca.pem";
      SslLoadCertChain "/home/u/.config/cauth/crt.pem" "/home/u/.config/cauth/key.pem";
      HttpPost "https://example.org/in" "{}" "application/json";
      PrintStderr (MsgPosted "https://example.org/in" 204)]).
Proof. vm_compute. reflexivity. Qed.

(** ** iCal *)

Section IcalFacts.

Lemma dtstamp_line_prefix (now : datetime) :
  Str.startswith "DTSTAMP:" (dtstamp_line now) = true.
Proof. reflexivity. Qed.

Lemma vevent_lines_same (now1 now2 : datetime) (ev : event) :
  Forall2 same_but_dtstamp (vevent_lines now1 ev)
          (vevent_lines now2 ev).
Proof.
  unfold vevent_lines.
  repeat (constructor; [try (left; reflexivity)|]); [|constructor].
  right. split; apply dtstamp_line_prefix.
Qed.

Lemma vevents_same (c1 c2 : nat -> datetime) (k1 k2 : nat) (evs : list event) :
  Forall2 same_but_dtstamp (vevents c1 k1 evs)
          (vevents c2 k2 evs).
Proof.
  revert k1 k2. induction evs as [|ev evs IH]; intros k1 k2; cbn [vevents].
  - constructor.
  - apply Forall2_app; [apply vevent_lines_same|apply IH].
Qed.

Lemma same_but_dtstamp_refl (l : list string) : Forall2 same_but_dtstamp l l.
Proof. induction l; constructor; [left; reflexivity|assumption]. Qed.

Lemma vevents_block (c : nat -> datetime) (k i : nat) (evs : list event) (ev : event) :
  evs !! i = Some ev ->
  take 7 (drop (7 * i) (vevents c k evs))
  = vevent_lines (c (k + i)%nat) ev.
Proof.
  revert k i. induction evs as [|e evs IH]; intros k i H.
  - rewrite lookup_nil in H. discriminate H.
  - destruct i as [|i].
    + inversion H; subst e. rewrite Nat.add_0_r. reflexivity.
    + cbn [lookup list_lookup] in H. cbn [vevents].
      replace (7 * S i)%nat with (7 + 7 * i)%nat by lia.
      replace (k + S i)%nat with (S k + i)%nat by lia.
      rewrite <- (IH (S k) i H). reflexivity.
Qed.

Lemma vevents_length (c : nat -> datetime) (k : nat) (evs : list event) :
  length (vevents c k evs) = (7 * length evs)%nat.
Proof.
  revert k. induction evs as [|e evs IH]; intros k; cbn [vevents].
  - reflexivity.
  - rewrite length_app, IH. cbn [vevent_lines length]. lia.
Qed.

End IcalFacts.

(** C8: two runs of [events_to_ical] on the same events, under any two
    clocks, produce line for line the same text except on the [DTSTAMP]
    lines; the output is these lines joined by CRLF; and in every run the
    seven lines of the event at index [i] are those of [vevent_lines], whose
    [UID], [DTSTART], [DTEND] and [SUMMARY] lines are computed from the
    event alone. *)
Theorem events_to_ical_deterministic (c1 c2 : nat -> datetime) (evs : list event) :
  Forall2 same_but_dtstamp (ical_lines c1 evs)
          (ical_lines c2 evs)
  /\ events_to_ical c1 evs
     = Str.join CRLF (ical_lines c1 evs)
  /\ events_to_ical c2 evs
     = Str.join CRLF (ical_lines c2 evs)
  /\ forall (c : nat -> datetime) (i : nat) (ev : event),
       evs !! i = Some ev ->
       take 7 (drop (5 + 7 * i) (ical_lines c evs))
       = [ "BEGIN:VEVENT"; uid_line ev; dtstamp_line (c i);
           dtstart_line ev; dtend_line ev; summary_line ev; "END:VEVENT" ].
Proof.
  split; [|split; [reflexivity|split; [reflexivity|]]].
  - unfold ical_lines. apply Forall2_app; [apply same_but_dtstamp_refl|].
    apply Forall2_app; [apply vevents_same|apply same_but_dtstamp_refl].
  - intros c i ev H. unfold ical_lines.
    change (drop (5 + 7 * i) (ical_header ++ ?l)) with (drop (7 * i) l).
    pose proof (vevents_block c 0 i evs ev H) as Hb.
    pose proof (lookup_lt_Some _ _ _ H) as Hi.
    pose proof (vevents_length c 0 evs) as Hlen.
    rewrite drop_app_le by lia. rewrite take_app_le.
    + exact Hb.
    + rewrite length_drop. lia.
Qed.

Example events_to_ical_example :
  ical_lines (fun _ => mk_datetime 2026 2 1 8 30 15 0)
             [mk_event "Sync; plan, review" (mk_datetime 2026 2 3 10 0 0 0)
                       (mk_datetime 2026 2 3 11 0 0 0) false scenario1]
  = ["BEGIN:VCALENDAR"; "VERSION:2.0"; "PRODID:-//calscripts//outlook_web//EN";
     "CALSCALE:GREGORIAN"; "METHOD:PUBLISH"; "BEGIN:VEVENT";
     "UID:6b842077d681b8666053b79c3a191421@calscripts";
     "DTSTAMP:20260201T083015Z"; "DTSTART:20260203T100000";
     "DTEND:20260203T110000"; "SUMMARY:Sync\; plan\, review"; "END:VEVENT";
     "END:VCALENDAR"].
Proof. vm_compute. reflexivity. Qed.

(** ** JSON: strings and numbers *)

#[local] Arguments String.append : simpl nomatch.

Lemma append_cons (x : ascii) (a b : string) :
  String x a +:+ b = String x (a +:+ b).
Proof. reflexivity. Qed.

Lemma append_assoc (a b c : string) : (a +:+ b) +:+ c = a +:+ (b +:+ c).
Proof.
  induction a as [|x a IH]; [reflexivity|]. rewrite !append_cons, IH. reflexivity.
Qed.

Lemma append_nil_r (a : string) : a +:+ "" = a.
Proof.
  induction a as [|x a IH]; [reflexivity|]. rewrite append_cons, IH. reflexivity.
Qed.

Lemma append_length (a b : string) :
  String.length (a +:+ b) = (String.length a + String.length b)%nat.
Proof.
  induction a as [|x a IH]; [reflexivity|].
  rewrite append_cons. cbn [String.length]. rewrite IH. reflexivity.
Qed.

(** Scanning one escaped character gives the character back. *)
Lemma scanstring_escape_char (c : ascii) (s : string) :
  scanstring (escape_char c +:+ s) = cons_char c (scanstring s).
Proof.
  destruct c as [[] [] [] [] [] [] [] []]; reflexivity.
Qed.

Lemma scanstring_escape_body (s rest : string) :
  scanstring (escape_body s +:+ String dquote rest) = Some (s, rest).
Proof.
  induction s as [|c s IH]; [reflexivity|].
  cbn [escape_body]. rewrite append_assoc, scanstring_escape_char, IH. reflexivity.
Qed.

Lemma encode_string_append (s rest : string) :
  encode_string s +:+ rest = String dquote (escape_body s +:+ String dquote rest).
Proof. unfold encode_string. rewrite append_cons, append_assoc. reflexivity. Qed.

Lemma digit_char_spec (d : Z) :
  0 <= d < 10 ->
  Str.is_digit (digit_char d) = true
  /\ digit_value (digit_char d) = d
  /\ (digit_char d = "0"%char -> d = 0).
Proof.
  intros H.
  assert (d = 0 \/ d = 1 \/ d = 2 \/ d = 3 \/ d = 4 \/ d = 5 \/ d = 6 \/ d = 7
          \/ d = 8 \/ d = 9) as Hd by lia.
  repeat (destruct Hd as [->|Hd]); try subst d;
    (split; [reflexivity|split; [reflexivity|]]); intros E; try reflexivity;
    discriminate E.
Qed.

Lemma all_digits_app (a b : string) :
  all_digits (a +:+ b) = all_digits a && all_digits b.
Proof.
  induction a as [|x a IH]; [reflexivity|].
  rewrite append_cons. cbn [all_digits]. rewrite IH, andb_assoc. reflexivity.
Qed.

Lemma dec_digits_S (fuel : nat) (n : Z) (acc : string) :
  dec_digits (S fuel) n acc
  = if n <? 10 then String (digit_char (n mod 10)) acc
    else dec_digits fuel (n / 10) (String (digit_char (n mod 10)) acc).
Proof. reflexivity. Qed.

(** The digits [dec_digits] puts in front of [acc]: a first digit, which
    is 0 only for the number 0, then more digits; read back by [int_digits]
    they give the number. *)
Lemma dec_digits_spec (fuel : nat) (n : Z) (acc : string) :
  0 <= n < 2 ^ Z.of_nat (S fuel) ->
  exists (c : ascii) (ds : string),
    dec_digits (S fuel) n acc = String c (ds +:+ acc)
    /\ Str.is_digit c = true
    /\ all_digits ds = true
    /\ (c = "0"%char -> n = 0)
    /\ forall a r,
         int_digits a (String c (ds +:+ r))
         = int_digits (a * 10 ^ Z.of_nat (S (String.length ds)) + n) r.
Proof.
  revert n acc. induction fuel as [|fuel IH]; intros n acc Hn;
    rewrite dec_digits_S; destruct (n <? 10) eqn:Hlt;
    try (apply Z.ltb_lt in Hlt); try (apply Z.ltb_ge in Hlt).
  1, 3:
    (rewrite Z.mod_small by lia;
     destruct (digit_char_spec n ltac:(lia)) as (Hd & Hv & Hz);
     exists (digit_char n), ""; split; [reflexivity|]; split; [exact Hd|];
     split; [reflexivity|]; split; [exact Hz|];
     intros a r; cbn [int_digits String.append String.length]; rewrite Hd, Hv;
     f_equal; change (Z.of_nat 1) with 1; lia).
  - change (2 ^ Z.of_nat 1) with 2 in Hn. lia.
  - assert (0 <= n / 10 < 2 ^ Z.of_nat (S fuel)) as Hq.
    { split; [apply Z.div_pos; lia|].
      apply Z.div_lt_upper_bound; [lia|].
      rewrite (Nat2Z.inj_succ (S fuel)), Z.pow_succ_r in Hn by lia. lia. }
    destruct (IH (n / 10) (String (digit_char (n mod 10)) acc) Hq)
      as (c & ds & Heq & Hc & Hds & Hz & Hval).
    destruct (digit_char_spec (n mod 10) ltac:(apply Z.mod_pos_bound; lia))
      as (Hd & Hv & _).
    exists c, (ds +:+ String (digit_char (n mod 10)) "").
    split; [rewrite Heq, append_assoc; reflexivity|].
    split; [exact Hc|]. split.
    { rewrite all_digits_app, Hds. cbn [all_digits]. rewrite Hd. reflexivity. }
    split.
    { intros E. apply Hz in E. apply Z.div_small_iff in E; lia. }
    intros a r. rewrite append_assoc, append_cons.
    change ("" +:+ r) with r. rewrite Hval. cbn [int_digits]. rewrite Hd, Hv. f_equal.
    rewrite append_length. cbn [String.length].
    replace (S (String.length ds + 1)) with (S (S (String.length ds))) by lia.
    rewrite (Nat2Z.inj_succ (S _)), Z.pow_succ_r by lia.
    pose proof (Z.div_mod n 10 ltac:(lia)). lia.
Qed.

Lemma str_nonneg_spec (n : Z) :
  0 <= n ->
  exists (c : ascii) (ds : string),
    str_nonneg n = String c ds
    /\ Str.is_digit c = true
    /\ all_digits ds = true
    /\ (c = "0"%char -> n = 0)
    /\ int_digits 0 (String c ds) = Some n.
Proof.
  intros Hn. unfold str_nonneg.
  destruct (dec_digits_spec (Z.to_nat (Z.log2 n)) n "") as (c & ds & Heq & Hc & Hds & Hz & Hval).
  { split; [exact Hn|]. rewrite Nat2Z.inj_succ, Z2Nat.id by apply Z.log2_nonneg.
    destruct (Z.eq_dec n 0) as [->|Hne]; [reflexivity|].
    apply Z.log2_spec. lia. }
  exists c, ds. rewrite Heq, append_nil_r. split; [reflexivity|].
  split; [exact Hc|]. split; [exact Hds|]. split; [exact Hz|].
  specialize (Hval 0 ""). rewrite append_nil_r in Hval. rewrite Hval.
  reflexivity.
Qed.

Lemma span_digits_all (ds rest : string) :
  all_digits ds = true -> number_end rest = true ->
  span_digits (ds +:+ rest) = (ds, rest).
Proof.
  intros Hds Hrest. induction ds as [|c ds IH].
  - cbn [String.append]. destruct rest as [|x rest]; [reflexivity|].
    cbn [span_digits]. cbn [number_end] in Hrest.
    destruct (Str.is_digit x); [discriminate Hrest|reflexivity].
  - cbn [all_digits] in Hds. apply andb_true_iff in Hds as [Hc Hds].
    rewrite append_cons. cbn [span_digits]. rewrite Hc, (IH Hds). reflexivity.
Qed.

Lemma float_tail_number_end (rest : string) :
  number_end rest = true -> float_tail rest = false.
Proof.
  destruct rest as [|c [|d rest]]; try reflexivity.
  cbn [number_end float_tail]. intros H. apply negb_true_iff in H.
  apply orb_false_iff in H as [H HE]. apply orb_false_iff in H as [H He].
  apply orb_false_iff in H as [_ Hdot]. rewrite Hdot, He, HE. reflexivity.
Qed.

Lemma match_number_nonneg (n : Z) (rest : string) :
  0 <= n -> number_end rest = true ->
  integer_part (str_nonneg n +:+ rest) = Some (str_nonneg n, rest)
  /\ int_digits 0 (str_nonneg n) = Some n
  /\ exists c ds, str_nonneg n = String c ds /\ Str.is_digit c = true.
Proof.
  intros Hn Hrest.
  destruct (str_nonneg_spec n Hn) as (c & ds & Heq & Hc & Hds & Hz & Hval).
  rewrite Heq. split; [|split; [exact Hval|exists c, ds; auto]].
  rewrite append_cons. cbn [integer_part].
  destruct (Ascii.eqb c "0") eqn:E0.
  - apply Ascii.eqb_eq in E0. subst c. specialize (Hz eq_refl). subst n.
    inversion Heq; subst ds. reflexivity.
  - rewrite Hc. rewrite <- append_cons. rewrite span_digits_all; [reflexivity| |exact Hrest].
    cbn [all_digits]. rewrite Hc, Hds. reflexivity.
Qed.

Lemma match_number_str_int (n : Z) (rest : string) :
  number_end rest = true ->
  match_number (str_int n +:+ rest) = Some (JInt n, rest).
Proof.
  intros Hrest. unfold str_int. destruct (n <? 0) eqn:Hneg.
  - apply Z.ltb_lt in Hneg.
    destruct (match_number_nonneg (- n) rest ltac:(lia) Hrest) as (Hip & Hval & _).
    rewrite append_cons. unfold match_number.
    change (Ascii.eqb "-" "-") with true. cbv iota beta.
    rewrite Hip, (float_tail_number_end _ Hrest), Hval.
    f_equal. f_equal. f_equal. lia.
  - destruct (match_number_nonneg n rest ltac:(apply Z.ltb_ge in Hneg; lia) Hrest)
      as (Hip & Hval & c & ds & Heq & Hc).
    unfold match_number. rewrite Heq, append_cons.
    assert (Ascii.eqb c "-" = false) as ->.
    { destruct (Ascii.eqb c "-") eqn:E; [|reflexivity].
      apply Ascii.eqb_eq in E. subst c. discriminate Hc. }
    rewrite <- append_cons, <- Heq, Hip, (float_tail_number_end _ Hrest), Hval.
    reflexivity.
Qed.

(** ** JSON: documents *)

Lemma json_nested_ind (P : json -> Prop) :
  P JNull -> (forall b, P (JBool b)) -> (forall n, P (JInt n)) ->
  (forall s, P (JStr s)) ->
  (forall l, Forall P l -> P (JList l)) ->
  (forall d, Forall (fun kv => P kv.2) d -> P (JDict d)) ->
  forall v, P v.
Proof.
  intros HN HB HI HS HL HD. fix IH 1. intros [ |b|n|s|l|d].
  - exact HN.
  - apply HB.
  - apply HI.
  - apply HS.
  - apply HL. induction l as [|x l IHl]; constructor; [apply IH|exact IHl].
  - apply HD. induction d as [|[k x] d IHd]; constructor; [apply IH|exact IHd].
Qed.

Lemma value_start_spec (c : ascii) :
  value_start c = true ->
  is_json_ws c = false /\ Ascii.eqb c "]" = false /\ Ascii.eqb c "}" = false.
Proof.
  destruct c as [[] [] [] [] [] [] [] []]; intros H; try discriminate H;
    split_and!; reflexivity.
Qed.

Lemma skip_ws_spaces (k : nat) (s : string) : skip_ws (spaces k +:+ s) = skip_ws s.
Proof. induction k as [|k IH]; [reflexivity|]. cbn [spaces]. rewrite append_cons. exact IH. Qed.

Lemma skip_ws_newline_indent (level : nat) (s : string) :
  skip_ws (newline_indent level +:+ s) = skip_ws s.
Proof. unfold newline_indent. rewrite append_cons. cbn [skip_ws]. apply skip_ws_spaces. Qed.

Lemma number_end_newline_indent (level : nat) (s : string) :
  number_end (newline_indent level +:+ s) = true.
Proof. reflexivity. Qed.

Lemma dumps_at_head (level : nat) (v : json) :
  exists c s, dumps_at level v = String c s /\ value_start c = true.
Proof.
  destruct v as [ |[]|n|s|l|d]; cbn [dumps_at];
    try (eexists _, _; split; [reflexivity|reflexivity]).
  - unfold str_int. destruct (n <? 0) eqn:Hn.
    + eexists _, _. split; reflexivity.
    + apply Z.ltb_ge in Hn.
      destruct (str_nonneg_spec n Hn) as (c & ds & -> & Hc & _).
      exists c, ds. split; [reflexivity|]. unfold value_start. rewrite Hc.
      apply orb_true_r.
  - destruct l; eexists _, _; split; reflexivity.
  - destruct d; eexists _, _; split; reflexivity.
Qed.

Lemma skip_ws_dumps_at (level : nat) (v : json) (r : string) :
  skip_ws (dumps_at level v +:+ r) = dumps_at level v +:+ r.
Proof.
  destruct (dumps_at_head level v) as (c & s & -> & Hc).
  apply value_start_spec in Hc as (Hws & _). rewrite append_cons.
  cbn [skip_ws]. rewrite Hws. reflexivity.
Qed.

(** The decoder, one step at a time. *)
Lemma scan_once_string (fuel : nat) (s : string) :
  scan_once (S fuel) (String dquote s)
  = match scanstring s with
    | Some (str, rest) => Some (JStr str, rest)
    | None => None
    end.
Proof. reflexivity. Qed.

Lemma scan_once_number (fuel : nat) (c : ascii) (s : string) :
  Str.is_digit c = true \/ c = "-"%char ->
  scan_once (S fuel) (String c s) = match_number (String c s).
Proof.
  destruct c as [[] [] [] [] [] [] [] []]; intros [H|H]; try discriminate H;
    reflexivity.
Qed.

Lemma scan_once_array (fuel : nat) (s : string) (c1 : ascii) (s1 : string) :
  skip_ws s = String c1 s1 -> Ascii.eqb c1 "]" = false ->
  scan_once (S fuel) (String "[" s)
  = match array_items fuel (String c1 s1) with
    | Some (values, rest) => Some (JList values, rest)
    | None => None
    end.
Proof.
  intros Hs Hc. cbn [scan_once]. cbn. rewrite Hs, Hc. reflexivity.
Qed.

Lemma scan_once_object (fuel : nat) (s s1 : string) :
  skip_ws s = String dquote s1 ->
  scan_once (S fuel) (String "{" s)
  = match object_items fuel s1 with
    | Some (pairs, rest) => Some (JDict (dict_of_pairs pairs), rest)
    | None => None
    end.
Proof.
  intros Hs. cbn [scan_once]. cbn. rewrite Hs. reflexivity.
Qed.

Lemma array_items_S (fuel : nat) (s : string) (x : json) (s1 : string) :
  scan_once fuel s = Some (x, s1) ->
  array_items (S fuel) s
  = match skip_ws s1 with
    | String c2 s2 =>
        if Ascii.eqb c2 "]" then Some ([x], s2)
        else if Ascii.eqb c2 "," then
          match array_items fuel (skip_ws s2) with
          | Some (values, rest) => Some (x :: values, rest)
          | None => None
          end
        else None
    | EmptyString => None
    end.
Proof. intros H. cbn [array_items]. rewrite H. reflexivity. Qed.

Lemma array_items_close (fuel level : nat) (s : string) (x : json) (rest : string) :
  scan_once fuel s = Some (x, newline_indent level +:+ "]" +:+ rest) ->
  array_items (S fuel) s = Some ([x], rest).
Proof.
  intros H. rewrite (array_items_S _ _ _ _ H), skip_ws_newline_indent. reflexivity.
Qed.

Lemma array_items_comma (fuel level : nat) (s : string) (x : json) (s2 : string) :
  scan_once fuel s = Some (x, String "," (newline_indent level +:+ s2)) ->
  array_items (S fuel) s
  = match array_items fuel (skip_ws s2) with
    | Some (values, rest) => Some (x :: values, rest)
    | None => None
    end.
Proof.
  intros H. rewrite (array_items_S _ _ _ _ H).
  change (skip_ws (String "," ?t)) with (String "," t). cbv iota.
  change (Ascii.eqb "," "]") with false. change (Ascii.eqb "," ",") with true.
  cbv iota. rewrite skip_ws_newline_indent. reflexivity.
Qed.

(** Reading back a document printed at any depth, whatever follows it. *)
Definition reads_back (v : json) : Prop :=
  forall (level fuel : nat) (rest : string),
    (jsize v <= fuel)%nat -> number_end rest = true ->
    scan_once fuel (dumps_at level v +:+ rest) = Some (v, rest).

Lemma join_cons2 (sep a b : string) (l : list string) :
  Str.join sep (a :: b :: l) = a +:+ sep +:+ Str.join sep (b :: l).
Proof. reflexivity. Qed.

Lemma join_cons2_map {A : Type} (f : A -> string) (sep a : string) (y : A) (l : list A) :
  Str.join sep (a :: map f (y :: l)) = a +:+ sep +:+ Str.join sep (map f (y :: l)).
Proof. reflexivity. Qed.

Lemma skip_ws_join_dumps (sep : string) (level : nat) (y : json) (l : list json)
    (r : string) :
  skip_ws (Str.join sep (map (dumps_at level) (y :: l)) +:+ r)
  = Str.join sep (map (dumps_at level) (y :: l)) +:+ r.
Proof.
  destruct l as [|z l]; cbn [map].
  - apply skip_ws_dumps_at.
  - rewrite join_cons2, !append_assoc. apply skip_ws_dumps_at.
Qed.

Lemma array_items_reads_back (l : list json) (x : json) :
  Forall reads_back (x :: l) ->
  forall (level fuel : nat) (rest : string),
    (list_sum (map (fun y => S (jsize y)) (x :: l)) <= fuel)%nat ->
    array_items fuel
      (Str.join (item_separator level) (map (dumps_at (S level)) (x :: l))
       +:+ newline_indent level +:+ "]" +:+ rest)
    = Some (x :: l, rest).
Proof.
  revert x. induction l as [|y l IH]; intros x Hall level fuel rest Hfuel;
    apply Forall_cons in Hall as [Hx Hall];
    cbn [map list_sum fold_right] in Hfuel;
    (destruct fuel as [|fuel]; [lia|]).
  - cbn [map Str.join]. apply (array_items_close fuel level).
    apply Hx; [lia|reflexivity].
  - change (map (dumps_at (S level)) (x :: y :: l))
      with (dumps_at (S level) x :: map (dumps_at (S level)) (y :: l)).
    rewrite join_cons2_map, !append_assoc.
    unfold item_separator at 1. rewrite append_cons.
    erewrite array_items_comma.
    2:{ apply Hx; [lia|reflexivity]. }
    rewrite skip_ws_join_dumps.
    rewrite (IH y Hall level fuel rest) by (cbn [map list_sum fold_right]; lia).
    reflexivity.
Qed.

Lemma object_items_S (fuel : nat) (k : string) (s r : string) (x : json) (s3 : string) :
  skip_ws r = r ->
  scan_once fuel r = Some (x, s3) ->
  object_items (S fuel) (escape_body k +:+ String dquote (": " +:+ r))
  = match skip_ws s3 with
    | String c4 s4 =>
        if Ascii.eqb c4 "}" then Some ([(k, x)], s4)
        else if Ascii.eqb c4 "," then
          match skip_ws s4 with
          | String c5 s5 =>
              if Ascii.eqb c5 dquote then
                match object_items fuel s5 with
                | Some (pairs, rest) => Some ((k, x) :: pairs, rest)
                | None => None
                end
              else None
          | EmptyString => None
          end
        else None
    | EmptyString => None
    end.
Proof.
  intros Hr H. cbn [object_items]. rewrite scanstring_escape_body.
  change (skip_ws (": " +:+ r)) with (String ":" (String " " r)). cbv iota.
  change (Ascii.eqb ":" ":") with true. cbv iota.
  change (skip_ws (String " " r)) with (skip_ws r).
  rewrite Hr, H. reflexivity.
Qed.

Lemma object_items_close (fuel level : nat) (k r : string) (x : json) (rest : string) :
  skip_ws r = r ->
  scan_once fuel r = Some (x, newline_indent level +:+ "}" +:+ rest) ->
  object_items (S fuel) (escape_body k +:+ String dquote (": " +:+ r))
  = Some ([(k, x)], rest).
Proof.
  intros Hr H. rewrite (object_items_S _ _ r _ _ _ Hr H), skip_ws_newline_indent.
  reflexivity.
Qed.

Lemma object_items_comma (fuel level : nat) (k r : string) (x : json) (s5 : string) :
  skip_ws r = r ->
  scan_once fuel r = Some (x, String "," (newline_indent level +:+ String dquote s5)) ->
  object_items (S fuel) (escape_body k +:+ String dquote (": " +:+ r))
  = match object_items fuel s5 with
    | Some (pairs, rest) => Some ((k, x) :: pairs, rest)
    | None => None
    end.
Proof.
  intros Hr H. rewrite (object_items_S _ _ r _ _ _ Hr H).
  change (skip_ws (String "," ?t)) with (String "," t). cbv iota.
  change (Ascii.eqb "," "}") with false. change (Ascii.eqb "," ",") with true.
  cbv iota. rewrite skip_ws_newline_indent.
  change (skip_ws (String dquote s5)) with (String dquote s5). cbv iota.
  change (Ascii.eqb dquote dquote) with true. reflexivity.
Qed.

Lemma dict_item_append (level : nat) (k : string) (x : json) (r : string) :
  dict_item level (k, x) +:+ r
  = String dquote (escape_body k
                   +:+ String dquote (": " +:+ (dumps_at (S level) x +:+ r))).
Proof.
  unfold dict_item, encode_string.
  repeat (rewrite append_cons || rewrite append_assoc). reflexivity.
Qed.

Lemma join_dict_items_head (level : nat) (kv : string * json)
    (d : list (string * json)) (r : string) :
  exists s,
    Str.join (item_separator level) (map (dict_item level) (kv :: d)) +:+ r
    = String dquote s.
Proof.
  destruct kv as [k x]. destruct d as [|kv' d]; cbn [map].
  - cbn [Str.join]. rewrite dict_item_append. eexists. reflexivity.
  - rewrite join_cons2, append_assoc, dict_item_append. eexists. reflexivity.
Qed.

Lemma object_items_reads_back (d : list (string * json)) (k : string) (x : json) :
  Forall (fun kv => reads_back kv.2) ((k, x) :: d) ->
  forall (level fuel : nat) (rest : string),
    (list_sum (map (fun kv => match kv with (_, y) => S (jsize y) end) ((k, x) :: d))
     <= fuel)%nat ->
    object_items fuel
      (Str.drop 1 (Str.join (item_separator level) (map (dict_item level) ((k, x) :: d))
                   +:+ newline_indent level +:+ "}" +:+ rest))
    = Some ((k, x) :: d, rest).
Proof.
  revert k x. induction d as [|[k2 x2] d IH]; intros k x Hall level fuel rest Hfuel;
    apply Forall_cons in Hall as [Hx Hall]; cbn [snd] in Hx;
    cbn [map list_sum fold_right] in Hfuel;
    (destruct fuel as [|fuel]; [lia|]).
  - cbn [map Str.join]. rewrite dict_item_append.
    change (Str.drop 1 (String dquote ?t)) with t.
    apply (object_items_close fuel level).
    + apply skip_ws_dumps_at.
    + apply Hx; [lia|reflexivity].
  - change (map (dict_item level) ((k, x) :: (k2, x2) :: d))
      with (dict_item level (k, x) :: map (dict_item level) ((k2, x2) :: d)).
    rewrite join_cons2_map, !append_assoc, dict_item_append.
    change (Str.drop 1 (String dquote ?t)) with t.
    pose proof (IH k2 x2 Hall level fuel rest) as IH2.
    destruct (join_dict_items_head level (k2, x2) d
                (newline_indent level +:+ "}" +:+ rest)) as (s5 & Hs5).
    rewrite Hs5 in IH2 |- *.
    change (Str.drop 1 (String dquote s5)) with s5 in IH2.
    unfold item_separator at 1.
    rewrite (append_cons ","%char (newline_indent (S level))).
    erewrite object_items_comma.
    + rewrite IH2; [reflexivity|]. cbn [map list_sum fold_right]. lia.
    + apply skip_ws_dumps_at.
    + apply Hx; [lia|reflexivity].
Qed.

Lemma dict_set_fresh (k : string) (x : json) (d : list (string * json)) :
  k ∉ map fst d -> dict_set k x d = d ++ [(k, x)].
Proof.
  induction d as [|[k' x'] d IH]; intros H; cbn [dict_set app].
  - reflexivity.
  - cbn [map fst] in H. apply not_elem_of_cons in H as [Hne H].
    assert (String.eqb k' k = false) as -> by (apply String.eqb_neq; congruence).
    rewrite (IH H). reflexivity.
Qed.

Lemma dict_of_pairs_nodup (d : list (string * json)) :
  NoDup (map fst d) -> dict_of_pairs d = d.
Proof.
  unfold dict_of_pairs.
  assert (forall acc, NoDup (map fst (acc ++ d)) ->
            foldl (fun a kv => dict_set kv.1 kv.2 a) acc d = acc ++ d) as H.
  { induction d as [|[k x] d IH]; intros acc Hnd; cbn [foldl].
    - rewrite app_nil_r. reflexivity.
    - cbn [fst snd]. rewrite dict_set_fresh.
      + rewrite IH; rewrite <- app_assoc; [reflexivity|exact Hnd].
      + rewrite map_app in Hnd. apply NoDup_app in Hnd as (_ & Hd & _).
        intros Hin. apply (Hd k Hin). cbn [map fst]. left. }
  intros Hnd. apply (H []). exact Hnd.
Qed.

Lemma join_dumps_head (sep : string) (level : nat) (y : json) (l : list json)
    (r : string) :
  exists c s,
    Str.join sep (map (dumps_at level) (y :: l)) +:+ r = String c s
    /\ Ascii.eqb c "]" = false.
Proof.
  destruct (dumps_at_head level y) as (c & s & Hy & Hc).
  apply value_start_spec in Hc as (_ & Hc & _).
  destruct l as [|z l]; cbn [map].
  - cbn [Str.join]. rewrite Hy, append_cons. eauto.
  - rewrite join_cons2, append_assoc, Hy, append_cons. eauto.
Qed.

(** Every document without a repeated key is read back from its printed
    form. *)
Lemma scan_once_dumps_at (v : json) : json_wf v = true -> reads_back v.
Proof.
  induction v as [ |b|n|s|l IH|d IH] using json_nested_ind;
    intros Hwf level fuel rest Hfuel Hrest;
    (destruct fuel as [|fuel]; [cbn [jsize] in Hfuel; lia|]).
  - reflexivity.
  - destruct b; reflexivity.
  - cbn [dumps_at].
    destruct (dumps_at_head level (JInt n)) as (c & ds & Heq & Hc).
    cbn [dumps_at] in Heq. rewrite Heq, append_cons, scan_once_number.
    + rewrite <- append_cons, <- Heq. apply match_number_str_int. exact Hrest.
    + unfold str_int in Heq. destruct (n <? 0) eqn:Hn.
      * right. inversion Heq. reflexivity.
      * apply Z.ltb_ge in Hn.
        destruct (str_nonneg_spec n Hn) as (c' & ds' & Heq' & Hc' & _).
        rewrite Heq' in Heq. inversion Heq; subst. left. exact Hc'.
  - cbn [dumps_at]. rewrite encode_string_append, scan_once_string,
      scanstring_escape_body. reflexivity.
  - cbn [dumps_at]. cbn [json_wf] in Hwf. destruct l as [|x l].
    + reflexivity.
    + assert (Forall reads_back (x :: l)) as Hall.
      { apply Forall_forall. intros y Hy.
        rewrite Forall_forall in IH. apply IH; [exact Hy|].
        rewrite forallb_forall in Hwf. apply Hwf, list_elem_of_In, Hy. }
      unfold container.
      change (map (dumps_at (S level)) (x :: l))
        with (dumps_at (S level) x :: map (dumps_at (S level)) l).
      cbv iota.
      change (dumps_at (S level) x :: map (dumps_at (S level)) l)
        with (map (dumps_at (S level)) (x :: l)).
      rewrite !append_assoc. change ("[" +:+ ?t) with (String "[" t).
      destruct (join_dumps_head (item_separator level) (S level) x l
                  (newline_indent level +:+ "]" +:+ rest)) as (c & s & Hhead & Hc).
      erewrite scan_once_array.
      2:{ rewrite skip_ws_newline_indent, skip_ws_join_dumps. exact Hhead. }
      2:{ exact Hc. }
      rewrite <- Hhead, (array_items_reads_back l x Hall); [reflexivity|].
      cbn [jsize] in Hfuel. lia.
  - cbn [dumps_at]. cbn [json_wf] in Hwf.
    apply andb_true_iff in Hwf as [Hnd Hwf]. apply bool_decide_eq_true in Hnd.
    change (fun kv : string * json =>
              let (k, x) := kv in encode_string k +:+ ": " +:+ dumps_at (S level) x)
      with (dict_item level).
    destruct d as [|[k x] d].
    + reflexivity.
    + assert (Forall (fun kv => reads_back kv.2) ((k, x) :: d)) as Hall.
      { apply Forall_forall. intros [k' y] Hy. cbn [snd].
        rewrite Forall_forall in IH. apply (IH (k', y) Hy).
        rewrite forallb_forall in Hwf.
        apply (Hwf (k', y)), list_elem_of_In, Hy. }
      unfold container.
      change (map (dict_item level) ((k, x) :: d))
        with (dict_item level (k, x) :: map (dict_item level) d).
      cbv iota.
      change (dict_item level (k, x) :: map (dict_item level) d)
        with (map (dict_item level) ((k, x) :: d)).
      rewrite !append_assoc. change ("{" +:+ ?t) with (String "{" t).
      pose proof (object_items_reads_back d k x Hall level fuel rest) as Hobj.
      destruct (join_dict_items_head level (k, x) d
                  (newline_indent level +:+ "}" +:+ rest)) as (s1 & Hs1).
      rewrite Hs1 in Hobj. change (Str.drop 1 (String dquote s1)) with s1 in Hobj.
      erewrite scan_once_object.
      2:{ rewrite skip_ws_newline_indent, Hs1. reflexivity. }
      rewrite Hobj by (cbn [jsize] in Hfuel; lia).
      rewrite dict_of_pairs_nodup by exact Hnd. reflexivity.
Qed.

(** The fuel [loads] starts with covers the document it reads. *)
Lemma join_length_ge (sep : string) (items : list string) :
  (1 <= String.length sep)%nat ->
  (list_sum (map (fun a => S (String.length a)) items)
   <= S (String.length (Str.join sep items)))%nat.
Proof.
  intros Hsep. induction items as [|a [|b items] IH].
  - cbn. lia.
  - cbn. lia.
  - rewrite join_cons2, !append_length. unfold list_sum in *.
    cbn [map fold_right] in *. lia.
Qed.

Lemma container_length_ge (open close : string) (level : nat) (items : list string) :
  (1 <= String.length open)%nat ->
  (list_sum (map (fun a => S (String.length a)) items)
   < String.length (container open close level items))%nat.
Proof.
  intros Hopen. unfold container. destruct items as [|a items].
  - rewrite append_length. cbn. lia.
  - rewrite !append_length.
    pose proof (join_length_ge (item_separator level) (a :: items)
                  ltac:(cbn [item_separator String.length]; lia)) as H.
    unfold newline_indent at 1. cbn [String.length]. lia.
Qed.

Lemma list_sum_le {A : Type} (f g : A -> nat) (l : list A) :
  Forall (fun x => f x <= g x)%nat l ->
  (list_sum (map f l) <= list_sum (map g l))%nat.
Proof.
  unfold list_sum.
  induction 1 as [|x l Hx Hl IH]; cbn [map fold_right] in *; cbv beta in *; lia.
Qed.

Lemma jsize_le_length (v : json) (level : nat) :
  (jsize v <= String.length (dumps_at level v))%nat.
Proof.
  revert level.
  induction v as [ |b|n|s|l IH|d IH] using json_nested_ind; intros level.
  - cbn. lia.
  - destruct b; cbn; lia.
  - destruct (dumps_at_head level (JInt n)) as (c & ds & -> & _). cbn. lia.
  - cbn. lia.
  - cbn [jsize dumps_at].
    pose proof (container_length_ge "[" "]" level (map (dumps_at (S level)) l)
                  ltac:(cbn; lia)) as H.
    rewrite map_map in H.
    assert (list_sum (map (fun x => S (jsize x)) l)
            <= list_sum (map (fun x => S (String.length (dumps_at (S level) x))) l))%nat
      as Hle.
    { apply list_sum_le. eapply Forall_impl; [exact IH|].
      cbv beta. intros x Hx. specialize (Hx (S level)). lia. }
    lia.
  - cbn [jsize dumps_at].
    change (fun kv : string * json =>
              let (k, x) := kv in encode_string k +:+ ": " +:+ dumps_at (S level) x)
      with (dict_item level).
    pose proof (container_length_ge "{" "}" level (map (dict_item level) d)
                  ltac:(cbn; lia)) as H.
    rewrite map_map in H.
    assert (list_sum (map (fun kv : string * json => let (_, x) := kv in S (jsize x)) d)
            <= list_sum (map (fun kv => S (String.length (dict_item level kv))) d))%nat
      as Hle.
    { apply list_sum_le. eapply Forall_impl; [exact IH|].
      cbv beta. intros [k x] Hx. cbn [snd] in Hx. specialize (Hx (S level)).
      unfold dict_item. rewrite !append_length. lia. }
    lia.
Qed.

(** [json.loads(json.dumps(v, indent=2))] is [v]. *)
Lemma loads_dumps (v : json) : json_wf v = true -> loads (dumps v) = Some v.
Proof.
  intros Hwf. unfold loads, dumps.
  pose proof (skip_ws_dumps_at 0 v "") as Hws. rewrite append_nil_r in Hws.
  pose proof (scan_once_dumps_at v Hwf 0%nat
                (2 * String.length (dumps_at 0 v) + 2)%nat "") as H.
  rewrite append_nil_r in H. rewrite Hws, H; [reflexivity| |reflexivity].
  pose proof (jsize_le_length v 0). lia.
Qed.

Lemma json_event_wf (ev : event) : json_wf (json_event ev) = true.
Proof. reflexivity. Qed.

Lemma json_output_wf (now : datetime) (target : option string) (evs : list event) :
  json_wf (json_output now target evs) = true.
Proof.
  assert (forallb json_wf (map json_event evs) = true) as Hevs.
  { induction evs as [|ev evs IH]; [reflexivity|].
    cbn [map forallb]. rewrite json_event_wf, IH. reflexivity. }
  unfold json_output. cbn [json_wf map fst forallb]. rewrite Hevs.
  destruct target; reflexivity.
Qed.

(** C7: decoding the text [events_to_json] returns gives back the
    document it printed: [event_count] is the number of events, and the
    array under [events] holds, in order, one object per event with the
    event's title, the ISO-8601 strings of its start and end, and its
    [all_day] flag. *)
Theorem events_to_json_round_trip (now : datetime) (evs : list event)
    (target : option string) :
  exists doc decoded,
    loads (events_to_json now evs target) = Some (JDict doc)
    /\ dict_get "event_count" doc = Some (JInt (Z.of_nat (length evs)))
    /\ dict_get "events" doc = Some (JList decoded)
    /\ Forall2 decodes_event evs decoded.
Proof.
  unfold events_to_json. rewrite loads_dumps by apply json_output_wf.
  unfold json_output. eexists _, _. split; [reflexivity|].
  split; [rewrite length_map; reflexivity|]. split; [reflexivity|].
  induction evs as [|ev evs IH]; cbn [map]; constructor; [|exact IH].
  eexists. split; [reflexivity|]. split_and!; reflexivity.
Qed.

(** * More properties *)

(** ** The segments of a raw text *)

Lemma split_length (c : ascii) (s : string) :
  length (Str.split c s) = S (count_char c s).
Proof.
  induction s as [|x s IH]; [reflexivity|].
  cbn [Str.split count_char]. destruct (Ascii.eqb x c).
  - cbn [length]. rewrite IH. reflexivity.
  - destruct (Str.split c s) as [|h t]; [discriminate IH|].
    cbn [length] in *. lia.
Qed.

Lemma split_no_sep (c : ascii) (s : string) :
  Forall (fun p => count_char c p = O) (Str.split c s).
Proof.
  induction s as [|x s IH]; [repeat constructor|].
  cbn [Str.split]. destruct (Ascii.eqb x c) eqn:E.
  - constructor; [reflexivity|exact IH].
  - destruct (Str.split c s) as [|h t].
    + constructor; [|constructor]. cbn [count_char]. rewrite E. reflexivity.
    + apply Forall_cons in IH as [Hh Ht]. constructor; [|exact Ht].
      cbn [count_char]. rewrite E, Hh. reflexivity.
Qed.

Lemma count_char_lstrip (c : ascii) (s : string) :
  (count_char c (Str.lstrip s) <= count_char c s)%nat.
Proof.
  induction s as [|x s IH]; [reflexivity|].
  cbn [Str.lstrip]. destruct (Str.is_space x); [|reflexivity].
  cbn [count_char]. lia.
Qed.

Lemma count_char_rstrip (c : ascii) (s : string) :
  (count_char c (Str.rstrip s) <= count_char c s)%nat.
Proof.
  induction s as [|x s IH]; [reflexivity|].
  cbn [Str.rstrip]. destruct (Str.rstrip s) as [|y r].
  - destruct (Str.is_space x); cbn [count_char] in *; lia.
  - cbn [count_char] in *. lia.
Qed.

Lemma rstrip_idem (s : string) : Str.rstrip (Str.rstrip s) = Str.rstrip s.
Proof.
  induction s as [|x s IH]; [reflexivity|].
  cbn [Str.rstrip]. destruct (Str.rstrip s) as [|y r] eqn:E.
  - destruct (Str.is_space x) eqn:Hx; [reflexivity|].
    cbn [Str.rstrip]. rewrite Hx. reflexivity.
  - change (Str.rstrip (String x (String y r)))
      with (match Str.rstrip (String y r) with
            | EmptyString => if Str.is_space x then EmptyString else String x EmptyString
            | r' => String x r'
            end).
    rewrite IH. reflexivity.
Qed.

Lemma rstrip_head (x : ascii) (s : string) :
  Str.is_space x = false -> exists r, Str.rstrip (String x s) = String x r.
Proof.
  intros Hx. cbn [Str.rstrip]. destruct (Str.rstrip s); [rewrite Hx|]; eauto.
Qed.

Lemma strip_idem (s : string) : Str.strip (Str.strip s) = Str.strip s.
Proof.
  unfold Str.strip.
  assert (Str.lstrip (Str.rstrip (Str.lstrip s)) = Str.rstrip (Str.lstrip s)) as ->.
  { induction s as [|x s IH]; [reflexivity|].
    cbn [Str.lstrip]. destruct (Str.is_space x) eqn:Hx; [exact IH|].
    destruct (rstrip_head x s Hx) as (r & ->). cbn [Str.lstrip]. rewrite Hx.
    reflexivity. }
  apply rstrip_idem.
Qed.

(** X1: the [parts] that [parse_event] works on are one more than the
    commas of the raw text; none of them contains a comma, and none has
    whitespace left at either end. *)
Theorem segments_spec (raw0 : string) :
  length (segments raw0) = S (count_char "," raw0)
  /\ Forall (fun p => count_char "," p = O /\ Str.strip p = p) (segments raw0).
Proof.
  unfold segments. split.
  - rewrite length_fmap. apply split_length.
  - apply Forall_fmap. eapply Forall_impl; [apply split_no_sep|].
    cbv beta. intros p Hp. split; [|apply strip_idem].
    unfold Str.strip.
    pose proof (count_char_rstrip "," (Str.lstrip p)).
    pose proof (count_char_lstrip "," p). lia.
Qed.

(** ** Rejections *)

(** X2: a raw text with fewer than two commas is rejected. *)
Theorem parse_event_few_commas (raw0 : string) :
  (count_char "," raw0 < 2)%nat -> parse_event raw0 = Ok None.
Proof.
  intros H. unfold parse_event. cbv zeta.
  rewrite decide_True; [reflexivity|].
  rewrite length_fmap, split_length. lia.
Qed.

Lemma parse_event_few_commas_witness :
  (count_char "," "current time indicator, 9:41 AM" < 2)%nat
  /\ parse_event "current time indicator, 9:41 AM" = Ok None.
Proof.
  assert (count_char "," "current time indicator, 9:41 AM" < 2)%nat as H
    by (vm_compute; lia).
  split; [exact H|]. exact (parse_event_few_commas _ H).
Defined.

(** X3: a raw text whose trimmed first segment starts with "calendar view"
    or with "current time" is rejected, whatever follows. *)
Theorem parse_event_sentinel (raw0 : string) :
  Str.startswith "calendar view" (Str.strip (hd "" (Str.split "," raw0))) = true
  \/ Str.startswith "current time" (Str.strip (hd "" (Str.split "," raw0))) = true ->
  parse_event raw0 = Ok None.
Proof.
  intros H. unfold parse_event. cbv zeta.
  destruct (decide _); [reflexivity|].
  rewrite strip_first_segment.
  destruct H as [-> | ->]; [reflexivity|rewrite orb_true_r; reflexivity].
Qed.

Lemma parse_event_sentinel_witness :
  Str.startswith "calendar view"
    (Str.strip (hd "" (Str.split ","
       "  calendar view, 10:00 AM to 11:00 AM, Tuesday, February 3, 2026"))) = true
  /\ parse_event "  calendar view, 10:00 AM to 11:00 AM, Tuesday, February 3, 2026"
     = Ok None.
Proof.
  assert (Str.startswith "calendar view"
            (Str.strip (hd "" (Str.split ","
               "  calendar view, 10:00 AM to 11:00 AM, Tuesday, February 3, 2026")))
          = true) as H by reflexivity.
  split; [exact H|]. exact (parse_event_sentinel _ (or_introl H)).
Defined.

Lemma scan_no_date (parts : list string) (i : nat) (rest : list string)
    (st : scan_state) :
  Forall (fun p => is_date_marker p = false) rest ->
  date_part (scan parts i rest st) = date_part st.
Proof.
  intros H. revert i st. induction H as [|p rest Hp Hrest IH]; intros i st;
    cbn [scan]; [reflexivity|].
  unfold is_date_marker in Hp.
  destruct (is_time_marker p); [rewrite IH; reflexivity|].
  destruct (is_all_day_marker p); [rewrite IH; reflexivity|].
  cbn [negb andb] in Hp. rewrite Hp. apply IH.
Qed.

(** X4: a raw text none of whose segments after the first is a date
    marker (a segment beginning with a weekday name that holds neither a
    time range nor "all day") is rejected. *)
Theorem parse_event_no_date_marker (raw0 : string) :
  Forall (fun p => is_date_marker p = false) (drop 1 (segments raw0)) ->
  parse_event raw0 = Ok None.
Proof.
  intros H. unfold parse_event. cbv zeta. fold (segments raw0).
  destruct (decide _); [reflexivity|].
  destruct (_ || _); [reflexivity|].
  rewrite (scan_no_date _ _ _ _ H). reflexivity.
Qed.

Lemma parse_event_no_date_marker_witness :
  Forall (fun p => is_date_marker p = false)
         (drop 1 (segments "Lunch, 12:00 PM to 1:00 PM, tuesday, February 3, 2026"))
  /\ parse_event "Lunch, 12:00 PM to 1:00 PM, tuesday, February 3, 2026" = Ok None.
Proof.
  assert (Forall (fun p => is_date_marker p = false)
            (drop 1 (segments "Lunch, 12:00 PM to 1:00 PM, tuesday, February 3, 2026")))
    as H by (vm_compute; repeat constructor).
  split; [exact H|]. exact (parse_event_no_date_marker _ H).
Defined.

(** ** The shape of an accepted text *)

Lemma parse_event_unfold (raw0 : string) (e : event) :
  parse_event raw0 = Ok (Some e) ->
  let st := scan (segments raw0) 1 (drop 1 (segments raw0)) scan_init in
  (3 <= length (segments raw0))%nat
  /\ opt_truthy (date_part st) = true
  /\ parse_date_time (default "" (segments raw0 !! 0%nat)) raw0 st
       (default "" (date_part st)) = Ok (Some e).
Proof.
  intros E st. unfold parse_event in E. cbv zeta in E.
  fold (segments raw0) in E. fold st in E.
  destruct (decide _) as [|Hlen]; [discriminate E|].
  destruct (_ || _); [discriminate E|].
  destruct (opt_truthy (date_part st)); [|discriminate E].
  apply catch_value_attribute_some in E. split; [lia|]. split; [reflexivity|exact E].
Qed.

(** X5: an accepted event carries the raw text it was parsed from, and
    its start and end have every field in range (year 1 to 9999, a day that
    exists in its month, hour 0 to 23, minute 0 to 59) with no seconds. *)
Theorem parse_event_fields (raw0 : string) (e : event) :
  parse_event raw0 = Ok (Some e) ->
  raw e = raw0 /\ minute_precise (start e) /\ minute_precise (end_ e).
Proof.
  intros E. apply parse_event_ok in E as (_ & _ & _ & E).
  destruct E as (y & m & d & sH & sM & eH & eM & -> & [] & [] & _).
  unfold minute_precise. cbn. split_and!; try reflexivity; lia.
Qed.

Lemma parse_event_fields_witness :
  let e := mk_event "Offsite" (mk_datetime 2026 2 3 0 0 0 0)
                    (mk_datetime 2026 2 3 23 59 0 0) true scenario2 in
  parse_event scenario2 = Ok (Some e)
  /\ raw e = scenario2 /\ minute_precise (start e) /\ minute_precise (end_ e).
Proof.
  split; [vm_compute; reflexivity|].
  apply (parse_event_fields scenario2). vm_compute; reflexivity.
Defined.

Lemma scan_date_found (parts : list string) (i : nat) (rest : list string)
    (st : scan_state) :
  date_part st = None ->
  opt_truthy (date_part (scan parts i rest st)) = true ->
  exists pre d post,
    rest = pre ++ d :: post
    /\ Forall (fun p => is_date_marker p = false) pre
    /\ is_date_marker d = true.
Proof.
  revert i st. induction rest as [|p rest IH]; intros i st Hst H; cbn [scan] in H.
  - rewrite Hst in H. discriminate H.
  - destruct (is_date_marker p) eqn:Hp.
    + exists [], p, rest. split; [reflexivity|]. split; [constructor|exact Hp].
    + assert (exists st', date_part st' = None
                /\ opt_truthy (date_part (scan parts (S i) rest st')) = true)
        as (st' & Hst' & H').
      { unfold is_date_marker in Hp.
        destruct (is_time_marker p); [eexists; split; [|exact H]; exact Hst|].
        destruct (is_all_day_marker p); [eexists; split; [|exact H]; exact Hst|].
        cbn [negb andb] in Hp. rewrite Hp in H. eauto. }
      destruct (IH (S i) st' Hst' H') as (pre & d & post & -> & Hpre & Hd).
      exists (p :: pre), d, post. split; [reflexivity|].
      split; [constructor; assumption|exact Hd].
Qed.

Lemma parse_date_time_timed (title0 raw0 : string) (st : scan_state) (dp : string)
    (e : event) :
  parse_date_time title0 raw0 st dp = Ok (Some e) ->
  is_Some (search date_re dp)
  /\ (all_day_flag st = false ->
      exists tp, time_part st = Some tp /\ is_Some (rmatch time_re tp)).
Proof.
  unfold parse_date_time. intros E.
  destruct (search date_re dp) as [dm|]; [|discriminate E].
  split; [eauto|]. intros Had. rewrite Had in E.
  bind_inv E d Hd. bind_inv E y Hy.
  destruct (time_part st) as [tp|]; [|discriminate E].
  cbn [opt_truthy] in E. change (default "" (Some tp)) with tp in E.
  destruct (Str.truthy tp); [|discriminate E].
  destruct (rmatch time_re tp) as [tm|] eqn:Htm; [|discriminate E].
  exists tp. rewrite Htm. eauto.
Qed.

(** X6: every accepted text has the shape the loop looks for: a first
    segment, which is the title; segments none of which is a date marker;
    the first date marker; and the rest.  The date pattern matches the date
    marker joined with at most the next two segments; the event is all-day
    exactly when one of the segments before the date marker reached the
    all-day branch; and if it is not, one of them is a time range that the
    time pattern matches. *)
Theorem parse_event_shape (raw0 : string) (e : event) :
  parse_event raw0 = Ok (Some e) ->
  exists t pre d post,
    segments raw0 = t :: pre ++ d :: post
    /\ Forall (fun p => is_date_marker p = false) pre
    /\ is_date_marker d = true
    /\ title e = t
    /\ is_Some (search date_re (Str.join ", " (d :: take 2 post)))
    /\ all_day e = existsb sets_all_day pre
    /\ (all_day e = false ->
        exists tp, last (List.filter is_time_marker pre) = Some tp
                   /\ is_Some (rmatch time_re tp)).
Proof.
  intros E. apply parse_event_unfold in E as (Hlen & Hdate & E).
  cbv zeta in E, Hdate.
  destruct (segments raw0) as [|t rest] eqn:Hseg; [cbn in Hlen; lia|].
  change (drop 1 (t :: rest)) with rest in *.
  destruct (scan_date_found (t :: rest) 1 rest scan_init eq_refl Hdate)
    as (pre & d & post & -> & Hpre & Hd).
  rewrite (scan_app _ pre d post 1 scan_init Hpre Hd) in E.
  cbn [date_part default lookup list_lookup] in E.
  pose proof (parse_date_time_ok _ _ _ _ _ E)
    as (y & m & dd & sH & sM & eH & eM & He & _).
  apply parse_date_time_timed in E as (Hsearch & Htimed).
  cbn [all_day_flag time_part scan_init orb] in *.
  exists t, pre, d, post. split; [reflexivity|]. split; [exact Hpre|].
  split; [exact Hd|]. subst e. cbn [title all_day]. split; [reflexivity|].
  split.
  { replace (t :: pre ++ d :: post)%list with ((t :: pre) ++ d :: post)%list in Hsearch
      by reflexivity.
    replace (1 + length pre)%nat with (length (t :: pre)) in Hsearch by reflexivity.
    rewrite build_date_part_join in Hsearch. exact Hsearch. }
  split; [reflexivity|].
  intros Had. destruct (Htimed Had) as (tp & Htp & Hm).
  exists tp. split; [|exact Hm].
  destruct (last (List.filter is_time_marker pre)); [exact Htp|discriminate Htp].
Qed.

Lemma parse_event_shape_witness :
  let e := mk_event "Team Sync" (mk_datetime 2026 2 3 10 0 0 0)
                    (mk_datetime 2026 2 3 11 0 0 0) false scenario1 in
  parse_event scenario1 = Ok (Some e)
  /\ exists t pre d post,
       segments scenario1 = t :: pre ++ d :: post
       /\ Forall (fun p => is_date_marker p = false) pre
       /\ is_date_marker d = true
       /\ title e = t.
Proof.
  split; [vm_compute; reflexivity|].
  destruct (parse_event_shape scenario1
              (mk_event "Team Sync" (mk_datetime 2026 2 3 10 0 0 0)
                        (mk_datetime 2026 2 3 11 0 0 0) false scenario1))
    as (t & pre & d & post & H1 & H2 & H3 & H4 & _).
  - vm_compute; reflexivity.
  - exists t, pre, d, post. auto.
Defined.

(** ** The matcher against what a match is *)

Lemma append_cons' (x : ascii) (a b : string) :
  String x a +:+ b = String x (a +:+ b).
Proof. reflexivity. Qed.

Lemma substring_append (t s : string) :
  String.substring 0 (String.length t) (t +:+ s) = t.
Proof.
  induction t as [|x t IH].
  - destruct s; reflexivity.
  - rewrite append_cons'. cbn [String.length String.substring]. rewrite IH.
    reflexivity.
Qed.

Lemma consumed_append (t s : string) : consumed (t +:+ s) s = t.
Proof.
  unfold consumed. rewrite append_length.
  replace (String.length t + String.length s - String.length s)%nat
    with (String.length t) by lia.
  apply substring_append.
Qed.

Lemma drop_prefix_some (p s s' : string) :
  drop_prefix p s = Some s' -> s = p +:+ s'.
Proof.
  revert s. induction p as [|a p IH]; intros s H; cbn [drop_prefix] in H.
  - inversion H. reflexivity.
  - destruct s as [|b s]; [discriminate H|].
    destruct (Ascii.eqb a b) eqn:E; [|discriminate H].
    apply Ascii.eqb_eq in E. subst b. rewrite append_cons', (IH s H). reflexivity.
Qed.

Lemma rep_sound {R : Type} (cls : ascii -> bool) (s : string) :
  forall (lo : nat) (hi : option nat) (k : string -> option R) (x : R),
    rep cls lo hi s k = Some x ->
    exists t s',
      s = t +:+ s' /\ k s' = Some x
      /\ all_in cls t = true /\ (lo <= String.length t)%nat
      /\ match hi with Some h => (String.length t <= h)%nat | None => True end.
Proof.
  assert (forall (lo : nat) (hi : option nat) (k : string -> option R) (x : R) s0,
            match lo with O => k s0 | S _ => None end = Some x ->
            exists t s',
              s0 = t +:+ s' /\ k s' = Some x
              /\ all_in cls t = true /\ (lo <= String.length t)%nat
              /\ match hi with Some h => (String.length t <= h)%nat | None => True end)
    as Hstop.
  { intros lo hi k x s0 H. destruct lo; [|discriminate H].
    exists "", s0. split_and!; try reflexivity; [exact H|].
    destruct hi; cbn; [lia|exact I]. }
  induction s as [|c s IH]; intros lo hi k x H; cbn [rep] in H.
  - eapply Hstop. exact H.
  - destruct (can_take hi && cls c) eqn:Hc; [|eapply Hstop; exact H].
    destruct (rep cls (Nat.pred lo) (dec_hi hi) s k) as [y|] eqn:E;
      [|eapply Hstop; exact H].
    inversion H; subst y. apply andb_true_iff in Hc as [Hhi Hc].
    apply IH in E as (t & s' & -> & Hk & Hall & Hlo & Hbound).
    exists (String c t), s'. split; [reflexivity|]. split; [exact Hk|].
    cbn [all_in String.length]. rewrite Hc, Hall. split; [reflexivity|].
    split; [lia|].
    destruct hi as [[|h]|]; [discriminate Hhi|cbn in Hbound; lia|exact I].
Qed.

(** Whatever the matcher finds is a match: the text splits into what the
    pattern took and what the continuation went on with. *)
Lemma run_sound {R : Type} (r : regex) :
  forall (s : string) (g : groups) (k : string -> groups -> option R) (x : R),
    run r s g k = Some x ->
    exists t s' g', s = t +:+ s' /\ matched r g t g' /\ k s' g' = Some x.
Proof.
  induction r as [p|cls lo hi|r1 IH1 r2 IH2|r1 IH1 r2 IH2|n r1 IH1];
    intros s g k x H; cbn [run] in H; cbn [matched].
  - destruct (drop_prefix p s) as [s'|] eqn:E; [|discriminate H].
    apply drop_prefix_some in E. exists p, s', g. auto.
  - apply rep_sound in H as (t & s' & -> & Hk & Hall & Hlo & Hhi).
    exists t, s', g. auto 10.
  - apply IH1 in H as (t1 & s1 & g1 & -> & H1 & H).
    apply IH2 in H as (t2 & s2 & g2 & -> & H2 & H).
    exists (t1 +:+ t2), s2, g2. split; [symmetry; apply append_assoc|].
    split; [|exact H]. exists t1, t2, g1. auto.
  - destruct (run r1 s g k) as [y|] eqn:E.
    + inversion H; subst y. apply IH1 in E as (t & s' & g' & -> & H1 & E).
      exists t, s', g'. auto.
    + apply IH2 in H as (t & s' & g' & -> & H2 & H).
      exists t, s', g'. auto.
  - apply IH1 in H as (t & s' & g1 & -> & H1 & H).
    rewrite consumed_append in H.
    exists t, s', ((n, t) :: g1). split; [reflexivity|]. split; [|exact H]. eauto.
Qed.

Lemma rmatch_sound (r : regex) (s : string) (g : groups) :
  rmatch r s = Some g -> exists t s', s = t +:+ s' /\ matched r [] t g.
Proof.
  unfold rmatch. intros H. apply run_sound in H as (t & s' & g' & -> & Hm & H).
  inversion H; subst g'. eauto.
Qed.

Lemma search_sound (r : regex) (s : string) (g : groups) :
  search r s = Some g ->
  exists before t s', s = before +:+ t +:+ s' /\ matched r [] t g.
Proof.
  induction s as [|c s IH]; cbn [search]; intros H;
    destruct (rmatch r _) as [g0|] eqn:E; try discriminate H.
  - inversion H; subst g0. apply rmatch_sound in E as (t & s' & -> & Hm).
    exists "", t, s'. auto.
  - inversion H; subst g0. apply rmatch_sound in E as (t & s' & -> & Hm).
    exists "", t, s'. auto.
  - apply IH in H as (before & t & s' & -> & Hm).
    exists (String c before), t, s'. auto.
Qed.

(** The groups of a date match: a weekday text, a month name made of word
    characters, a day made of digits, a year of four digits. *)
Lemma date_re_groups (s : string) (g : groups) :
  search date_re s = Some g ->
  exists wd name dd yyyy,
    g = [(4%nat, yyyy); (3%nat, dd); (2%nat, name); (1%nat, wd)]
    /\ all_in Str.is_word name = true /\ (1 <= String.length name)%nat
    /\ all_in Str.is_digit dd = true /\ (1 <= String.length dd)%nat
    /\ all_in Str.is_digit yyyy = true /\ String.length yyyy = 4%nat.
Proof.
  intros H. apply search_sound in H as (before & t & s' & _ & H).
  unfold date_re, plus, opt_char in H. cbn [matched] in H.
  destruct H as (t1 & t2 & g1 & _ & (g1' & (w & d & gw & _ & (-> & _) & (_ & ->)) & ->) & H).
  destruct H as (t3 & t4 & g2 & _ & (-> & _) & H).
  destruct H as (t5 & t6 & g3 & _ & (-> & _) & H).
  destruct H as (t7 & t8 & g4 & _ & (g4' & (-> & Hname & Hlen & _) & ->) & H).
  destruct H as (t9 & t10 & g5 & _ & (-> & _) & H).
  destruct H as (t11 & t12 & g6 & _ & (g6' & (-> & Hdd & Hdlen & _) & ->) & H).
  destruct H as (t13 & t14 & g7 & _ & (-> & _) & H).
  destruct H as (t15 & t16 & g8 & _ & (-> & _) & H).
  destruct H as (g9 & (-> & Hy & Hylo & Hyhi) & ->).
  eexists _, t7, t11, t16. split; [reflexivity|].
  split_and!; try assumption. lia.
Qed.

(** The groups of a time match: hours of one or two digits, minutes of
    two, and "AM" or "PM". *)
Lemma time_re_groups (s : string) (g : groups) :
  rmatch time_re s = Some g ->
  exists h1 m1 a1 h2 m2 a2,
    g = [(6%nat, a2); (5%nat, m2); (4%nat, h2); (3%nat, a1); (2%nat, m1); (1%nat, h1)]
    /\ all_in Str.is_digit h1 = true /\ (1 <= String.length h1 <= 2)%nat
    /\ all_in Str.is_digit m1 = true /\ String.length m1 = 2%nat
    /\ (a1 = "AM" \/ a1 = "PM")
    /\ all_in Str.is_digit h2 = true /\ (1 <= String.length h2 <= 2)%nat
    /\ all_in Str.is_digit m2 = true /\ String.length m2 = 2%nat
    /\ (a2 = "AM" \/ a2 = "PM").
Proof.
  intros H. apply rmatch_sound in H as (t & s' & _ & H).
  unfold time_re, plus, star in H. cbn [matched] in H.
  destruct H as (? & ? & ? & _ & (? & (-> & Hh1 & Hh1lo & Hh1hi) & ->) & H).
  destruct H as (? & ? & ? & _ & (_ & ->) & H).
  destruct H as (? & ? & ? & _ & (? & (-> & Hm1 & Hm1lo & Hm1hi) & ->) & H).
  destruct H as (? & ? & ? & _ & (-> & _) & H).
  destruct H as (? & ? & ? & _ & (? & Ha1 & ->) & H).
  destruct H as (? & ? & ? & _ & (-> & _) & H).
  destruct H as (? & ? & ? & _ & (_ & ->) & H).
  destruct H as (? & ? & ? & _ & (-> & _) & H).
  destruct H as (? & ? & ? & _ & (? & (-> & Hh2 & Hh2lo & Hh2hi) & ->) & H).
  destruct H as (? & ? & ? & _ & (_ & ->) & H).
  destruct H as (? & ? & ? & _ & (? & (-> & Hm2 & Hm2lo & Hm2hi) & ->) & H).
  destruct H as (? & ? & ? & _ & (-> & _) & H).
  destruct H as (? & Ha2 & ->).
  assert (forall (a : string) (g0 g1 : groups),
            (a = "AM" /\ g1 = g0) \/ (a = "PM" /\ g1 = g0) ->
            (a = "AM" \/ a = "PM") /\ g1 = g0) as Hap by (intros; tauto).
  apply Hap in Ha1 as [Ha1 ->]. apply Hap in Ha2 as [Ha2 ->].
  eexists _, _, _, _, _, _. split; [reflexivity|].
  split_and!; try assumption; lia.
Qed.

(** ** Numbers read from a match *)

Lemma int_digits_bound (s : string) :
  all_in Str.is_digit s = true ->
  forall a, 0 <= a ->
    exists v, int_digits a s = Some v
              /\ a * 10 ^ Z.of_nat (String.length s) <= v
                 < (a + 1) * 10 ^ Z.of_nat (String.length s).
Proof.
  induction s as [|c s IH]; intros Hs a Ha.
  - exists a. split; [reflexivity|]. cbn [String.length]. change (10 ^ Z.of_nat 0) with 1. lia.
  - cbn [all_in] in Hs. apply andb_true_iff in Hs as [Hc Hs].
    cbn [int_digits]. rewrite Hc.
    assert (0 <= digit_value c <= 9) as Hd.
    { unfold digit_value. unfold Str.is_digit, Str.in_range in Hc.
      apply andb_true_iff in Hc as [H1 H2]. lia. }
    destruct (IH Hs (10 * a + digit_value c) ltac:(lia)) as (v & Hv & Hb).
    exists v. split; [exact Hv|].
    cbn [String.length]. rewrite Nat2Z.inj_succ, Z.pow_succ_r by lia.
    set (p := 10 ^ Z.of_nat (String.length s)) in *.
    assert (0 < p) by (apply Z.pow_pos_nonneg; lia). nia.
Qed.

(** [int] on a short text of digits is the number they write. *)
Lemma int_digits_text (s : string) (n : nat) :
  all_in Str.is_digit s = true ->
  (1 <= String.length s <= n)%nat -> (n <= 4300)%nat ->
  exists v, int_ s = Ok v /\ 0 <= v < 10 ^ Z.of_nat n.
Proof.
  intros Hs Hlen Hn.
  destruct (int_digits_bound s Hs 0 ltac:(lia)) as (v & Hv & Hb).
  exists v. split.
  - unfold int_, int_max_str_digits, Str.len.
    assert ((4300 <? Z.of_nat (String.length s)) = false) as -> by (apply Z.ltb_ge; lia).
    destruct s; [cbn in Hlen; lia|]. rewrite Hv. reflexivity.
  - split; [lia|].
    assert (10 ^ Z.of_nat (String.length s) <= 10 ^ Z.of_nat n)
      by (apply Z.pow_le_mono_r; lia).
    lia.
Qed.

Lemma int_raise (s : string) (e : exn) : int_ s = Raise e -> e = ValueError.
Proof. intros H. apply (int_group_raise (Some s)); [eauto|exact H]. Qed.

Lemma month_map_range (name : string) (v : Z) :
  month_map !! name = Some v -> 1 <= v <= 12.
Proof.
  unfold month_map. intros H. apply elem_of_list_to_map_2 in H.
  repeat (apply elem_of_cons in H as [H|H]; [inversion H; lia|]).
  apply elem_of_nil in H. contradiction.
Qed.

Lemma month_default_range (o : option string) :
  1 <= default 1 (o ≫= (month_map !!.)) <= 12.
Proof.
  destruct o as [name|]; [|cbn; lia].
  change (Some name ≫= (month_map !!.)) with (month_map !! name).
  destruct (month_map !! name) as [v|] eqn:E; [|cbn; lia].
  apply month_map_range in E. exact E.
Qed.

Lemma datetime_new_overflow (y m d H M : Z) :
  datetime_new y m d H M = Raise OverflowError ->
  fits_c_int y = true -> fits_c_int m = true -> fits_c_int H = true ->
  fits_c_int M = true -> 0 <= d -> INT_MAX < d.
Proof.
  unfold datetime_new. intros E Hy Hm HH HM Hd.
  rewrite Hy, Hm, HH, HM in E. cbn [andb] in E. rewrite !andb_true_r in E.
  destruct (fits_c_int d) eqn:Hfit; cbn [negb] in E.
  - repeat match type of E with
           | (if ?c then _ else _) = _ => destruct c
           end; discriminate E.
  - unfold fits_c_int, INT_MIN, INT_MAX in *.
    apply andb_false_iff in Hfit as [Hfit|Hfit];
      [apply Z.leb_gt in Hfit|apply Z.leb_gt in Hfit]; lia.
Qed.

Lemma fits_small (n : Z) : 0 <= n < 10000 -> fits_c_int n = true.
Proof.
  intros H. unfold fits_c_int, INT_MIN, INT_MAX.
  apply andb_true_iff. split; apply Z.leb_le; lia.
Qed.

Lemma to_24h_range (ampm : option string) (h : Z) :
  0 <= h < 100 -> 0 <= to_24h ampm h < 10000.
Proof.
  intros H. unfold to_24h.
  destruct (bool_decide _ && negb _); [lia|].
  destruct (bool_decide _ && _); lia.
Qed.

Lemma parse_date_time_overflow (title0 raw0 : string) (st : scan_state) (dp : string) :
  parse_date_time title0 raw0 st dp = Raise OverflowError ->
  exists g dd day,
    search date_re dp = Some g /\ group 3 g = Some dd
    /\ int_ dd = Ok day /\ INT_MAX < day.
Proof.
  unfold parse_date_time. intros E.
  destruct (search date_re dp) as [dm|] eqn:Hdm; [|discriminate E].
  destruct (date_re_groups dp dm Hdm)
    as (wd & name & dd & yyyy & -> & Hname & Hnlen & Hdd & Hdlen & Hy & Hylen).
  cbn [group Nat.eqb] in E.
  change (int_group (Some dd)) with (int_ dd) in E.
  change (int_group (Some yyyy)) with (int_ yyyy) in E.
  destruct (int_digits_text yyyy 4 Hy ltac:(lia) ltac:(lia)) as (y & Hyv & Hyb).
  assert (forall day, 0 <= day ->
            forall H M, fits_c_int H = true -> fits_c_int M = true ->
            datetime_new y (default 1 (Some name ≫= (month_map !!.))) day H M
            = Raise OverflowError -> INT_MAX < day) as Hover.
  { intros day Hday H M HH HM Hraise.
    eapply datetime_new_overflow; try eassumption.
    - apply fits_small. change (10 ^ Z.of_nat 4) with 10000 in Hyb. exact Hyb.
    - apply fits_small. pose proof (month_default_range (Some name)). lia. }
  assert (forall day, int_ dd = Ok day -> 0 <= day) as Hpos.
  { intros day Hday. destruct (int_digits_bound dd Hdd 0 ltac:(lia)) as (v & Hv & Hb).
    unfold int_ in Hday. destruct (_ <? _); [discriminate Hday|].
    destruct dd; [discriminate Hday|]. rewrite Hv in Hday. inversion Hday; subst.
    assert (0 <= 10 ^ Z.of_nat (String.length (String a dd))) by (apply Z.pow_nonneg; lia).
    lia. }
  raise_inv E; [apply int_raise in E; discriminate E|].
  rename a into day. rename Ha into Hday.
  raise_inv E; [apply int_raise in E; discriminate E|].
  rewrite Hyv in Ha. inversion Ha; subst a. clear Ha.
  exists [(4%nat, yyyy); (3%nat, dd); (2%nat, name); (1%nat, wd)], dd, day.
  split; [reflexivity|]. split; [reflexivity|]. split; [exact Hday|].
  specialize (Hpos day Hday). specialize (Hover day Hpos).
  destruct (all_day_flag st).
  - raise_inv E; [eapply Hover; [| |exact E]; reflexivity|].
    raise_inv E; [eapply Hover; [| |exact E]; reflexivity|discriminate E].
  - destruct (opt_truthy (time_part st)); [|discriminate E].
    destruct (rmatch time_re _) as [tm|] eqn:Htm; [|discriminate E].
    destruct (time_re_groups _ tm Htm)
      as (h1 & m1 & a1 & h2 & m2 & a2 & -> & Hh1 & Hh1l & Hm1 & Hm1l & _
          & Hh2 & Hh2l & Hm2 & Hm2l & _).
    cbn [group Nat.eqb] in E.
    change (int_group (Some ?s)) with (int_ s) in E.
    destruct (int_digits_text h1 2 Hh1 ltac:(lia) ltac:(lia)) as (sh & Hsh & Hshb).
    destruct (int_digits_text m1 2 Hm1 ltac:(lia) ltac:(lia)) as (sm & Hsm & Hsmb).
    destruct (int_digits_text h2 2 Hh2 ltac:(lia) ltac:(lia)) as (eh & Heh & Hehb).
    destruct (int_digits_text m2 2 Hm2 ltac:(lia) ltac:(lia)) as (em & Hem & Hemb).
    rewrite Hsh, Hsm, Heh, Hem in E.
    change (10 ^ Z.of_nat 2) with 100 in *.
    cbn [mbind result_bind] in E. cbv zeta in E.
    raise_inv E.
    + eapply Hover; [| |exact E]; apply fits_small;
        [apply to_24h_range; assumption|lia].
    + raise_inv E; [|discriminate E].
      eapply Hover; [| |exact E]; apply fits_small;
        [apply to_24h_range; assumption|lia].
Qed.

(** X7: the only exception that leaves [parse_event] is [OverflowError],
    and it leaves only when the day number written in the date text is
    above 2147483647. *)
Theorem parse_event_raise_day (raw0 : string) (e : exn) :
  parse_event raw0 = Raise e ->
  e = OverflowError
  /\ exists g dd day,
       search date_re (date_text raw0) = Some g /\ group 3 g = Some dd
       /\ int_ dd = Ok day /\ INT_MAX < day.
Proof.
  intros E. pose proof (parse_event_raise raw0 e E) as ->. split; [reflexivity|].
  unfold parse_event in E. cbv zeta in E. fold (segments raw0) in E.
  destruct (decide _); [discriminate E|].
  destruct (_ || _); [discriminate E|].
  destruct (negb _); [discriminate E|].
  fold (date_text raw0) in E.
  destruct (parse_date_time _ _ _ _) as [o|e'] eqn:Hp; [discriminate E|].
  destruct e'; try discriminate E.
  apply parse_date_time_overflow in Hp. exact Hp.
Qed.

Lemma parse_event_raise_day_witness :
  parse_event huge_day = Raise OverflowError
  /\ exists g dd day,
       search date_re (date_text huge_day) = Some g /\ group 3 g = Some dd
       /\ int_ dd = Ok day /\ INT_MAX < day.
Proof.
  assert (parse_event huge_day = Raise OverflowError) as H by (vm_compute; reflexivity).
  split; [exact H|]. exact (proj2 (parse_event_raise_day huge_day OverflowError H)).
Defined.

Lemma parse_date_time_date (title0 raw0 : string) (st : scan_state) (dp : string)
    (e : event) :
  parse_date_time title0 raw0 st dp = Ok (Some e) ->
  exists g name dd yyyy,
    search date_re dp = Some g
    /\ group 2 g = Some name /\ group 3 g = Some dd /\ group 4 g = Some yyyy
    /\ String.length yyyy = 4%nat
    /\ int_ yyyy = Ok (year (start e)) /\ int_ dd = Ok (day (start e))
    /\ month (start e) = default 1 (month_map !! name).
Proof.
  intros E. pose proof (parse_date_time_ok _ _ _ _ _ E)
    as (y & m & d & sH & sM & eH & eM & He & _).
  unfold parse_date_time in E.
  destruct (search date_re dp) as [dm|] eqn:Hdm; [|discriminate E].
  destruct (date_re_groups dp dm Hdm)
    as (wd & name & dd & yyyy & -> & _ & _ & _ & _ & _ & Hylen).
  cbn [group Nat.eqb] in E.
  change (int_group (Some dd)) with (int_ dd) in E.
  change (int_group (Some yyyy)) with (int_ yyyy) in E.
  change (Some name ≫= (month_map !!.)) with (month_map !! name) in E.
  bind_inv E d' Hd. bind_inv E y' Hy.
  assert (y' = y /\ default 1 (month_map !! name) = m /\ d' = d) as (-> & Hm & ->).
  { destruct (all_day_flag st).
    - bind_inv E s Hs. bind_inv E t Ht. apply datetime_new_ok in Hs as [-> _].
      inversion E; subst e. inversion H0. auto.
    - destruct (opt_truthy (time_part st)); [|discriminate E].
      destruct (rmatch time_re _); [|discriminate E].
      bind_inv E sh Hsh. bind_inv E sm Hsm. bind_inv E eh Heh. bind_inv E em Hem.
      cbv zeta in E. bind_inv E s Hs. bind_inv E t Ht.
      apply datetime_new_ok in Hs as [-> _].
      inversion E; subst e. inversion H0. auto. }
  exists [(4%nat, yyyy); (3%nat, dd); (2%nat, name); (1%nat, wd)], name, dd, yyyy.
  subst e. cbn [start year month day group Nat.eqb]. split_and!; auto.
Qed.

(** X8: the date of an accepted event is read off the match of the date
    pattern on the date text: the year is the number its four digits write,
    the day the number of the day group, and the month that of the month
    name when it is one of the twelve English names, and January for any
    other name. *)
Theorem parse_event_date (raw0 : string) (e : event) :
  parse_event raw0 = Ok (Some e) ->
  exists g name dd yyyy,
    search date_re (date_text raw0) = Some g
    /\ group 2 g = Some name /\ group 3 g = Some dd /\ group 4 g = Some yyyy
    /\ String.length yyyy = 4%nat
    /\ int_ yyyy = Ok (year (start e)) /\ int_ dd = Ok (day (start e))
    /\ month (start e) = default 1 (month_map !! name)
    /\ (month_map !! name = None -> month (start e) = 1).
Proof.
  intros E. apply parse_event_unfold in E as (_ & _ & E). cbv zeta in E.
  fold (date_text raw0) in E.
  apply parse_date_time_date in E
    as (g & name & dd & yyyy & H1 & H2 & H3 & H4 & H5 & H6 & H7 & H8).
  exists g, name, dd, yyyy. split_and!; try assumption.
  intros Hnone. rewrite H8, Hnone. reflexivity.
Qed.

Lemma parse_event_date_witness :
  let e := mk_event "Demo" (mk_datetime 2026 1 5 0 0 0 0)
                    (mk_datetime 2026 1 5 23 59 0 0) true
                    "Demo, all day, Monday, Febuary 5, 2026" in
  parse_event "Demo, all day, Monday, Febuary 5, 2026" = Ok (Some e)
  /\ month_map !! "Febuary" = None
  /\ exists g name dd yyyy,
       search date_re (date_text "Demo, all day, Monday, Febuary 5, 2026") = Some g
       /\ group 2 g = Some name /\ group 3 g = Some dd /\ group 4 g = Some yyyy
       /\ month (start e) = default 1 (month_map !! name).
Proof.
  split; [vm_compute; reflexivity|]. split; [vm_compute; reflexivity|].
  destruct (parse_event_date "Demo, all day, Monday, Febuary 5, 2026"
              (mk_event "Demo" (mk_datetime 2026 1 5 0 0 0 0)
                        (mk_datetime 2026 1 5 23 59 0 0) true
                        "Demo, all day, Monday, Febuary 5, 2026"))
    as (g & name & dd & yyyy & H1 & H2 & H3 & H4 & _ & _ & _ & H8 & _).
  - vm_compute; reflexivity.
  - exists g, name, dd, yyyy. auto.
Defined.

(** ** More on the collector *)

Lemma collect_step_default (st : collector) (o : option string) :
  collect_step st (ItemDict o) = collect_step st (ItemDict (Some (default "" o))).
Proof. reflexivity. Qed.

Lemma foldl_collect_fragments (items : list item) (st : collector) :
  foldl collect_step st items = foldl collect_step st (items_of (fragments items)).
Proof.
  revert st. induction items as [|[o|] items IH]; intros st.
  - reflexivity.
  - change (fragments (ItemDict o :: items)) with (default "" o :: fragments items).
    cbn [items_of map foldl]. rewrite collect_step_default. apply IH.
  - change (fragments (ItemOther :: items)) with (fragments items).
    cbn [foldl collect_step]. apply IH.
Qed.

Lemma foldl_collect_sublist (items : list item) (st : collector) :
  exists more,
    events (foldl collect_step st items) = events st ++ more
    /\ sublist more (fragments items).
Proof.
  revert st. induction items as [|it items IH]; intros st; cbn [foldl].
  - exists []. rewrite app_nil_r. split; [reflexivity|constructor].
  - destruct (IH (collect_step st it)) as (more & -> & Hsub).
    destruct it as [o|]; cbn [collect_step].
    + change (fragments (ItemDict o :: items)) with (default "" o :: fragments items).
      destruct (_ && _ && _); cbn [events].
      * exists (default "" o :: more). rewrite <- app_assoc.
        split; [reflexivity|]. constructor. exact Hsub.
      * exists more. split; [reflexivity|]. constructor. exact Hsub.
    + exists more. split; [reflexivity|exact Hsub].
Qed.

(** X9: the loop keeps a subsequence of the texts it reads, and reads
    nothing but the text under ['raw']: items that are no dict are skipped,
    and a dict without the key counts as the empty text. *)
Theorem collect_events_fragments (events_data : list item) :
  sublist (collect_events events_data) (fragments events_data)
  /\ collect_events events_data = collect_events (items_of (fragments events_data)).
Proof.
  unfold collect_events. split.
  - destruct (foldl_collect_sublist events_data (mk_collector ∅ []))
      as (more & -> & Hsub). exact Hsub.
  - rewrite foldl_collect_fragments. reflexivity.
Qed.

Lemma foldl_collect_fresh (l : list string) (st : collector) :
  (forall x, x ∈ seen st <-> x ∈ events st) ->
  NoDup (events st ++ l) -> Forall (fun x => 5 < Str.len x) l ->
  events (foldl collect_step st (items_of l)) = events st ++ l.
Proof.
  revert st. induction l as [|x l IH]; intros st Hseen Hnd Hlong; cbn [items_of map foldl].
  - rewrite app_nil_r. reflexivity.
  - apply Forall_cons in Hlong as [Hx Hlong].
    assert (x ∉ events st) as Hnew.
    { apply NoDup_app in Hnd as (_ & Hd & _). intros Hin. apply (Hd x Hin). left. }
    cbn [collect_step]. change (default "" (Some x)) with x.
    assert (Str.truthy x = true) as ->.
    { destruct x; [vm_compute in Hx; discriminate Hx|reflexivity]. }
    rewrite bool_decide_eq_true_2 by (rewrite Hseen; exact Hnew).
    apply Z.ltb_lt in Hx. rewrite Hx. cbn [andb].
    change (foldl collect_step ?s (map (fun t => ItemDict (Some t)) l))
      with (foldl collect_step s (items_of l)).
    rewrite IH; cbn [seen events].
    + rewrite <- app_assoc. reflexivity.
    + intros y. rewrite elem_of_union, elem_of_singleton, elem_of_app,
        list_elem_of_singleton, Hseen. reflexivity.
    + rewrite <- app_assoc. exact Hnd.
    + exact Hlong.
Qed.

(** X10: collecting again what the loop returned changes nothing. *)
Theorem collect_events_idempotent (events_data : list item) :
  collect_events (items_of (collect_events events_data)) = collect_events events_data.
Proof.
  destruct (collect_inv_foldl [] events_data _ collect_inv_init)
    as [_ Hnd Hlong _ _].
  fold (collect_events events_data) in Hnd, Hlong.
  unfold collect_events at 1. rewrite foldl_collect_fresh; cbn [seen events].
  - reflexivity.
  - intros x. rewrite elem_of_nil. set_solver.
  - exact Hnd.
  - exact Hlong.
Qed.

(** ** The loop of [main] over the candidates *)

Lemma parse_all_ok (raws : list string) (acc evs : list event) :
  parse_all raws acc = Ok evs ->
  exists new,
    evs = acc ++ new
    /\ sublist (raw <$> new) raws
    /\ Forall (fun ev => parse_event (raw ev) = Ok (Some ev)) new.
Proof.
  revert acc. induction raws as [|r raws IH]; intros acc H; cbn [parse_all] in H.
  - inversion H; subst evs. exists []. rewrite app_nil_r.
    split; [reflexivity|]. split; constructor.
  - bind_inv H o Ho. apply IH in H as (new & -> & Hsub & Hall).
    destruct o as [ev|].
    + exists (ev :: new). rewrite <- app_assoc. split; [reflexivity|].
      pose proof (parse_event_ok r ev Ho) as (_ & _ & _ & Hev).
      destruct Hev as (y & m & d & sH & sM & eH & eM & Hev & _).
      assert (raw ev = r) as Hraw by (rewrite Hev; reflexivity).
      split.
      * cbn [fmap list_fmap]. rewrite Hraw. constructor. exact Hsub.
      * constructor; [rewrite Hraw; exact Ho|exact Hall].
    + exists new. split; [reflexivity|]. split; [constructor; exact Hsub|exact Hall].
Qed.

(** X11: when the loop of [main] ends, the events it built come from
    distinct collected texts, in order: their source texts are a subsequence
    of the texts scraped, no text has produced two events, and each event is
    what [parse_event] returns for its own source text. *)
Theorem parse_all_collected (events_data : list item) (evs : list event) :
  parse_all (collect_events events_data) [] = Ok evs ->
  sublist (raw <$> evs) (fragments events_data)
  /\ NoDup (raw <$> evs)
  /\ (length evs <= length (collect_events events_data))%nat
  /\ Forall (fun ev => parse_event (raw ev) = Ok (Some ev)) evs.
Proof.
  intros H. apply parse_all_ok in H as (new & -> & Hsub & Hall). cbn [app].
  destruct (collect_inv_foldl [] events_data _ collect_inv_init)
    as [_ Hnd _ _ _].
  fold (collect_events events_data) in Hnd.
  destruct (foldl_collect_sublist events_data (mk_collector ∅ []))
    as (more & Hmore & Hfrag).
  fold (collect_events events_data) in Hmore. cbn [events app] in Hmore.
  split; [etrans; [exact Hsub|rewrite Hmore; exact Hfrag]|].
  split; [eapply sublist_NoDup; eassumption|].
  split; [|exact Hall].
  apply sublist_length in Hsub. rewrite length_fmap in Hsub. exact Hsub.
Qed.

Lemma parse_all_collected_witness :
  parse_all (collect_events (items_of [scenario1; "noise"; scenario1; scenario2])) []
  = Ok [mk_event "Team Sync" (mk_datetime 2026 2 3 10 0 0 0)
                 (mk_datetime 2026 2 3 11 0 0 0) false scenario1;
        mk_event "Offsite" (mk_datetime 2026 2 3 0 0 0 0)
                 (mk_datetime 2026 2 3 23 59 0 0) true scenario2]
  /\ NoDup [scenario1; scenario2].
Proof.
  assert (parse_all (collect_events (items_of [scenario1; "noise"; scenario1; scenario2])) []
          = Ok [mk_event "Team Sync" (mk_datetime 2026 2 3 10 0 0 0)
                         (mk_datetime 2026 2 3 11 0 0 0) false scenario1;
                mk_event "Offsite" (mk_datetime 2026 2 3 0 0 0 0)
                         (mk_datetime 2026 2 3 23 59 0 0) true scenario2]) as H
    by (vm_compute; reflexivity).
  split; [exact H|].
  exact (proj1 (proj2 (parse_all_collected _ _ H))).
Defined.

(** X12: the loop of [main] raises exactly when [parse_event] raises on
    one of the texts: the exception is that of the first such text, and no
    event list comes out, whatever the other texts are. *)
Theorem parse_all_raises (raws : list string) (e : exn) :
  parse_all raws [] = Raise e
  <-> exists before r after,
        raws = before ++ r :: after
        /\ Forall (fun x => exists o, parse_event x = Ok o) before
        /\ parse_event r = Raise e.
Proof.
  generalize (@nil event) as acc. induction raws as [|r raws IH]; intros acc;
    cbn [parse_all].
  - split; [discriminate|]. intros (before & r & after & H & _).
    destruct before; discriminate H.
  - destruct (parse_event r) as [o|e'] eqn:Hr.
    + change (Ok o ≫= ?f) with (f o). cbv beta. rewrite IH. split.
      * intros (before & r' & after & -> & Hb & Hr').
        exists (r :: before), r', after. split; [reflexivity|].
        split; [constructor; eauto|exact Hr'].
      * intros (before & r' & after & Heq & Hb & Hr').
        destruct before as [|b before].
        -- inversion Heq; subst. rewrite Hr in Hr'. discriminate Hr'.
        -- inversion Heq; subst. apply Forall_cons in Hb as [_ Hb].
           exists before, r', after. auto.
    + change (Raise e' ≫= ?f) with (@Raise (list event) e'). split.
      * intros H. inversion H; subst e'. exists [], r, raws. auto.
      * intros (before & r' & after & Heq & Hb & Hr').
        destruct before as [|b before].
        -- inversion Heq; subst. rewrite Hr in Hr'. inversion Hr'. reflexivity.
        -- inversion Heq; subst. apply Forall_cons in Hb as [[o Hb'] _].
           rewrite Hr in Hb'. discriminate Hb'.
Qed.


(** ** More on secure delivery *)

Lemma first_missing_cert_files (w : world) (ca cert key : string) :
  first_missing w (cert_files ca cert key) = Answer None
  <-> path_exists w ca = Answer true /\ path_exists w cert = Answer true
      /\ path_exists w key = Answer true.
Proof.
  unfold cert_files. cbn [first_missing].
  destruct (path_exists w ca) as [[]|], (path_exists w cert) as [[]|],
    (path_exists w key) as [[]|];
    split; try discriminate; try (intros (? & ? & ?); discriminate); auto.
Qed.

Lemma is_success_spec (status : Z) : is_success status = true <-> 200 <= status <= 299.
Proof. unfold is_success. rewrite andb_true_iff, !Z.leb_le. reflexivity. Qed.

(** [post_to_url] by what the path resolution answers: an exception there
    leaves the function before anything is done. *)
Lemma post_to_url_unfold (w : world) (data url : string)
    (config : gmap string (gmap string string)) :
  post_to_url w data url config
  = match resolved_files w config with
    | Raises err => (Raises err, [])
    | Answer files =>
        match first_missing w files with
        | Raises err => (Raises err, [])
        | Answer (Some (path, name)) =>
            (Answer false, [PrintStderr (MsgFileNotFound name path)])
        | Answer None =>
            match files with
            | [(ca, _); (cert, _); (key, _)] =>
                (Answer (try_post w data url ca cert key).1,
                 (try_post w data url ca cert key).2)
            | _ => (Answer false, [])
            end
        end
    end.
Proof.
  unfold resolved_files. cbv zeta.
  destruct (resolve w _ "ca" "ca.pem") as [ca|e] eqn:H1.
  2: { unfold post_to_url. cbv zeta. rewrite H1. reflexivity. }
  destruct (resolve w _ "cert" "crt.pem") as [cert|e] eqn:H2.
  2: { unfold post_to_url. cbv zeta. rewrite H1, H2. reflexivity. }
  destruct (resolve w _ "key" "key.pem") as [key|e] eqn:H3.
  2: { unfold post_to_url. cbv zeta. rewrite H1, H2, H3. reflexivity. }
  rewrite (post_to_url_resolved w data url config ca cert key H1 H2 H3).
  unfold mbind, answer_bind, mret, answer_ret. cbv beta iota.
  destruct (first_missing w (cert_files ca cert key)) as [[[path name]|]|err];
    reflexivity.
Qed.

(** X13: [post_to_url] returns [True] exactly when the three paths
    resolve, the three files exist there, the three [ssl] calls succeed, and
    the server answers the request with a status from 200 to 299. *)
Theorem post_to_url_true_iff (w : world) (data url : string)
    (config : gmap string (gmap string string)) :
  (post_to_url w data url config).1 = Answer true
  <-> exists ca cert key,
        resolved_files w config = Answer (cert_files ca cert key)
        /\ (path_exists w ca = Answer true /\ path_exists w cert = Answer true
            /\ path_exists w key = Answer true)
        /\ ssl_create_default_context w = None
        /\ ssl_load_verify_locations w ca = None
        /\ ssl_load_cert_chain w cert key = None
        /\ exists status text,
             http_post w url data = Response status text /\ 200 <= status <= 299.
Proof.
  rewrite post_to_url_unfold.
  destruct (resolved_files w config) as [files|err] eqn:Hres.
  2: { cbn [fst]. split; [discriminate|]. intros (ca & cert & key & H & _).
       discriminate H. }
  apply resolved_files_inv in Hres as (ca & cert & key & _ & _ & _ & ->).
  assert (forall P : string -> string -> string -> Prop,
            (exists ca' cert' key',
                Answer (cert_files ca cert key) = Answer (cert_files ca' cert' key')
                /\ P ca' cert' key') <-> P ca cert key) as Hex.
  { intros P. split.
    - intros (ca' & cert' & key' & E & HP). inversion E; subst. exact HP.
    - intros HP. exists ca, cert, key. auto. }
  rewrite Hex. clear Hex.
  rewrite <- first_missing_cert_files.
  destruct (first_missing w (cert_files ca cert key)) as [[[path name]|]|err].
  { cbn [fst]. split; [discriminate|]. intros (H & _). discriminate H. }
  2: { cbn [fst]. split; [discriminate|]. intros (H & _). discriminate H. }
  cbn [cert_files fst snd]. unfold try_post, call.
  destruct (ssl_create_default_context w) as [e1|].
  { cbn [fst]. split; [discriminate|]. intros (_ & H & _). discriminate H. }
  destruct (ssl_load_verify_locations w ca) as [e2|].
  { cbn [fst]. split; [discriminate|]. intros (_ & _ & H & _). discriminate H. }
  destruct (ssl_load_cert_chain w cert key) as [e3|].
  { cbn [fst]. split; [discriminate|]. intros (_ & _ & _ & H & _). discriminate H. }
  destruct (http_post w url data) as [status text|err].
  - destruct (is_success status) eqn:Hs; cbn [fst].
    + split; [|reflexivity]. intros _. repeat (split; [reflexivity|]).
      exists status, text. split; [reflexivity|]. apply is_success_spec. exact Hs.
    + split; [discriminate|].
      intros (_ & _ & _ & _ & status' & text' & Heq & Hr).
      inversion Heq; subst status' text'.
      apply is_success_spec in Hr. rewrite Hr in Hs. discriminate Hs.
  - cbn [fst]. split; [discriminate|].
    intros (_ & _ & _ & _ & status' & text' & Heq & _). discriminate Heq.
Qed.

(** X14: what [post_to_url] does, in every world.  When the path
    resolution or an existence check raises, the exception leaves the
    function and nothing has been done: no line printed, no [ssl] call, no
    request.  When the function returns, it has made a beginning of the
    four calls (default context, CA file, client certificate and key, one
    request for [url] with [data] as a JSON body) and then printed exactly
    one line on stderr; all four calls are made exactly when the files
    exist and the three [ssl] calls succeed, so the request is never sent
    without the client certificate loaded and never repeated; and the value
    returned is [True] exactly when the line is the success message. *)
Theorem post_to_url_trace (w : world) (data url : string)
    (config : gmap string (gmap string string)) :
  match post_to_url w data url config with
  | (Raises err, trace) =>
      trace = []
      /\ (resolved_files w config = Raises err
          \/ exists files,
               resolved_files w config = Answer files
               /\ first_missing w files = Raises err)
  | (Answer b, trace) =>
      exists ca cert key done m,
        resolved_files w config = Answer (cert_files ca cert key)
        /\ trace = done ++ [PrintStderr m]
        /\ done `prefix_of` post_calls ca cert key url data
        /\ (done = post_calls ca cert key url data
            <-> (path_exists w ca = Answer true /\ path_exists w cert = Answer true
                 /\ path_exists w key = Answer true)
                /\ ssl_create_default_context w = None
                /\ ssl_load_verify_locations w ca = None
                /\ ssl_load_cert_chain w cert key = None)
        /\ (b = true <-> exists status, m = MsgPosted url status)
  end.
Proof.
  rewrite post_to_url_unfold.
  destruct (resolved_files w config) as [files|err] eqn:Hres; [|split; auto].
  apply resolved_files_inv in Hres as (ca & cert & key & _ & _ & _ & ->).
  pose proof (first_missing_cert_files w ca cert key) as Hfm.
  destruct (first_missing w (cert_files ca cert key)) as [[[path name]|]|err] eqn:Hf.
  { exists ca, cert, key, [], (MsgFileNotFound name path). cbn [app].
    split; [reflexivity|]. split; [reflexivity|]. split; [apply prefix_nil|].
    split; [split; [discriminate|intros (H & _); apply Hfm in H; discriminate H]|].
    split; [discriminate|intros (? & H); discriminate H]. }
  2: { split; [reflexivity|]. right. exists (cert_files ca cert key). auto. }
  assert (path_exists w ca = Answer true /\ path_exists w cert = Answer true
          /\ path_exists w key = Answer true) as Hfiles by (apply Hfm; reflexivity).
  clear Hfm. cbn [cert_files]. unfold try_post, call, post_calls.
  exists ca, cert, key.
  destruct (ssl_create_default_context w) as [e1|].
  { exists [SslCreateDefaultContext], (MsgPostFailed e1). cbn [fst snd app].
    split; [reflexivity|]. split; [reflexivity|].
    split; [apply prefix_cons, prefix_nil|].
    split; [split; [discriminate|intros (_ & H & _); discriminate H]|].
    split; [discriminate|intros (? & H); discriminate H]. }
  destruct (ssl_load_verify_locations w ca) as [e2|].
  { exists [SslCreateDefaultContext; SslLoadVerifyLocations ca], (MsgPostFailed e2).
    cbn [fst snd app]. split; [reflexivity|]. split; [reflexivity|].
    split; [do 2 apply prefix_cons; apply prefix_nil|].
    split; [split; [discriminate|intros (_ & _ & H & _); discriminate H]|].
    split; [discriminate|intros (? & H); discriminate H]. }
  destruct (ssl_load_cert_chain w cert key) as [e3|].
  { exists [SslCreateDefaultContext; SslLoadVerifyLocations ca; SslLoadCertChain cert key],
      (MsgPostFailed e3).
    cbn [fst snd app]. split; [reflexivity|]. split; [reflexivity|].
    split; [do 3 apply prefix_cons; apply prefix_nil|].
    split; [split; [discriminate|intros (_ & _ & _ & H); discriminate H]|].
    split; [discriminate|intros (? & H); discriminate H]. }
  exists [SslCreateDefaultContext; SslLoadVerifyLocations ca;
          SslLoadCertChain cert key; HttpPost url data "application/json"].
  destruct (http_post w url data) as [status text|err];
    [destruct (is_success status)|]; cbn [fst snd app];
    eexists; (split; [reflexivity|]); (split; [reflexivity|]);
    (split; [reflexivity|]); (split; [split; auto|]).
  - split; [eauto|reflexivity].
  - split; [discriminate|intros (? & H); discriminate H].
  - split; [discriminate|intros (? & H); discriminate H].
Qed.

Lemma tls_calls_app (l1 l2 : list action) :
  tls_calls (l1 ++ l2) = tls_calls l1 ++ tls_calls l2.
Proof. apply List.filter_app. Qed.

Lemma tls_calls_quiet (logs : list action) :
  quiet logs = true -> tls_calls logs = [].
Proof.
  unfold quiet, tls_calls. induction logs as [|a logs IH]; intros H; [reflexivity|].
  cbn [forallb] in H. apply andb_true_iff in H as [Ha H].
  cbn [List.filter]. apply negb_true_iff in Ha. rewrite Ha. cbn [andb]. auto.
Qed.

(** The result of [create_ssl_context] and the [ssl] calls it makes, by
    cases on what the outside world answers. *)
Lemma create_ssl_context_cases (w : world) (ca cert key : string) (system_cas : bool) :
  ((create_ssl_context w ca cert key system_cas).1,
   tls_calls (create_ssl_context w ca cert key system_cas).2)
  = match first_missing w (cert_files ca cert key) with
    | Raises err => (OsError err, [])
    | Answer (Some (path, name)) => (FileNotFoundError name path, [])
    | Answer None =>
        match (if system_cas then ssl_create_default_context w else None) with
        | Some err => (SslError err, [context_call system_cas])
        | None =>
            match ssl_load_verify_locations w ca with
            | Some err =>
                (SslError err, [context_call system_cas; SslLoadVerifyLocations ca])
            | None =>
                (match ssl_load_cert_chain w cert key with
                 | Some err => SslError err
                 | None => ContextReady
                 end,
                 [context_call system_cas; SslLoadVerifyLocations ca;
                  SslLoadCertChain cert key])
            end
        end
    end.
Proof.
  unfold create_ssl_context.
  destruct (verify_files_spec w (cert_files ca cert key)
              [Log LogCreating; Log (LogPaths ca cert key system_cas)])
    as (logs & -> & Hq).
  apply tls_calls_quiet in Hq.
  destruct (first_missing w (cert_files ca cert key)) as [[[path name]|]|err].
  { cbn [fst snd]. rewrite tls_calls_app, Hq. reflexivity. }
  2: { cbn [fst snd]. rewrite tls_calls_app, Hq. reflexivity. }
  unfold ssl_call.
  destruct system_cas; cbn [context_call];
    [destruct (ssl_create_default_context w) as [e1|]|];
    try (destruct (ssl_load_verify_locations w ca) as [e2|];
         [|destruct (ssl_load_cert_chain w cert key) as [e3|]]);
    cbn [fst snd]; rewrite ?tls_calls_app, Hq; reflexivity.
Qed.

(** Whether [post_to_url] sends the request, and the [ssl] calls it
    makes, once the paths are resolved. *)
Lemma post_to_url_cases (w : world) (data url : string)
    (config : gmap string (gmap string string)) (ca cert key : string) :
  resolved_files w config = Answer (cert_files ca cert key) ->
  (existsb is_http_post (post_to_url w data url config).2,
   tls_calls (post_to_url w data url config).2)
  = match first_missing w (cert_files ca cert key) with
    | Raises _ | Answer (Some _) => (false, [])
    | Answer None =>
        match ssl_create_default_context w with
        | Some _ => (false, [SslCreateDefaultContext])
        | None =>
            match ssl_load_verify_locations w ca with
            | Some _ => (false, [SslCreateDefaultContext; SslLoadVerifyLocations ca])
            | None =>
                (match ssl_load_cert_chain w cert key with
                 | Some _ => false
                 | None => true
                 end,
                 [SslCreateDefaultContext; SslLoadVerifyLocations ca;
                  SslLoadCertChain cert key])
            end
        end
    end.
Proof.
  intros Hres. rewrite post_to_url_unfold, Hres.
  destruct (first_missing w (cert_files ca cert key)) as [[[path name]|]|err];
    [reflexivity| |reflexivity].
  cbn [cert_files]. unfold try_post, call.
  destruct (ssl_create_default_context w) as [e1|]; [reflexivity|].
  destruct (ssl_load_verify_locations w ca) as [e2|]; [reflexivity|].
  destruct (ssl_load_cert_chain w cert key) as [e3|]; [reflexivity|].
  destruct (http_post w url data) as [status text|err];
    [destruct (is_success status)|]; reflexivity.
Qed.

(** X15: [create_ssl_context] returns a context exactly when the three
    files exist and the [ssl] calls it makes succeed.  The [ssl] calls it
    makes are a beginning of: the context (the default one, with the system
    CAs, only when [include_system_cas]; the bare one otherwise), the custom
    CA file, the client certificate and key; a returned context has gone
    through all three. *)
Theorem create_ssl_context_spec (w : world) (ca cert key : string) (system_cas : bool) :
  let r := create_ssl_context w ca cert key system_cas in
  (r.1 = ContextReady
   <-> (path_exists w ca = Answer true /\ path_exists w cert = Answer true
        /\ path_exists w key = Answer true)
       /\ (system_cas = true -> ssl_create_default_context w = None)
       /\ ssl_load_verify_locations w ca = None
       /\ ssl_load_cert_chain w cert key = None)
  /\ tls_calls r.2 `prefix_of` [context_call system_cas; SslLoadVerifyLocations ca;
                                SslLoadCertChain cert key]
  /\ (r.1 = ContextReady ->
      tls_calls r.2 = [context_call system_cas; SslLoadVerifyLocations ca;
                       SslLoadCertChain cert key]).
Proof.
  intros r. subst r.
  pose proof (create_ssl_context_cases w ca cert key system_cas) as H.
  pose proof (first_missing_cert_files w ca cert key) as Hfm.
  destruct (create_ssl_context w ca cert key system_cas) as [res trace].
  cbn [fst snd] in *.
  destruct (first_missing w (cert_files ca cert key)) as [[[path name]|]|err].
  { apply pair_equal_spec in H as [-> ->].
    split; [|split; [apply prefix_nil|discriminate]].
    split; [discriminate|]. intros (Hf & _). apply Hfm in Hf. discriminate Hf. }
  2: { apply pair_equal_spec in H as [-> ->].
       split; [|split; [apply prefix_nil|discriminate]].
       split; [discriminate|]. intros (Hf & _). apply Hfm in Hf. discriminate Hf. }
  assert (path_exists w ca = Answer true /\ path_exists w cert = Answer true
          /\ path_exists w key = Answer true) as Hfiles by (apply Hfm; reflexivity).
  clear Hfm.
  destruct system_cas; cbn [context_call] in *.
  - destruct (ssl_create_default_context w) as [e1|].
    { apply pair_equal_spec in H as [-> ->].
      split; [|split; [apply prefix_cons, prefix_nil|discriminate]].
      split; [discriminate|]. intros (_ & Hc & _). discriminate (Hc eq_refl). }
    destruct (ssl_load_verify_locations w ca) as [e2|].
    { apply pair_equal_spec in H as [-> ->].
      split; [|split; [do 2 apply prefix_cons; apply prefix_nil|discriminate]].
      split; [discriminate|]. intros (_ & _ & Hc & _). discriminate Hc. }
    destruct (ssl_load_cert_chain w cert key) as [e3|];
      apply pair_equal_spec in H as [-> ->].
    + split; [|split; [reflexivity|discriminate]].
      split; [discriminate|]. intros (_ & _ & _ & Hc). discriminate Hc.
    + split; [|split; reflexivity]. split; auto.
  - destruct (ssl_load_verify_locations w ca) as [e2|].
    { apply pair_equal_spec in H as [-> ->].
      split; [|split; [do 2 apply prefix_cons; apply prefix_nil|discriminate]].
      split; [discriminate|]. intros (_ & _ & Hc & _). discriminate Hc. }
    destruct (ssl_load_cert_chain w cert key) as [e3|];
      apply pair_equal_spec in H as [-> ->].
    + split; [|split; [reflexivity|discriminate]].
      split; [discriminate|]. intros (_ & _ & _ & Hc). discriminate Hc.
    + split; [|split; reflexivity]. split; [|reflexivity].
      intros _. split; [exact Hfiles|]. split; [discriminate|]. auto.
Qed.

(** X16: [create_ssl_context] with the system CAs, on the paths
    [post_to_url] resolves, makes exactly the [ssl] calls [post_to_url]
    makes, in every world; and it returns a context exactly when
    [post_to_url] gets as far as sending the request. *)
Theorem post_to_url_create_ssl_context (w : world) (data url : string)
    (config : gmap string (gmap string string)) (ca cert key : string) :
  resolved_files w config = Answer (cert_files ca cert key) ->
  tls_calls (create_ssl_context w ca cert key true).2
  = tls_calls (post_to_url w data url config).2
  /\ ((create_ssl_context w ca cert key true).1 = ContextReady
      <-> existsb is_http_post (post_to_url w data url config).2 = true).
Proof.
  intros Hres.
  pose proof (create_ssl_context_cases w ca cert key true) as Hc.
  pose proof (post_to_url_cases w data url config ca cert key Hres) as Hp.
  destruct (create_ssl_context w ca cert key true) as [res trace].
  cbn [fst snd context_call] in *.
  destruct (first_missing w (cert_files ca cert key)) as [[[path name]|]|err];
    [| |];
    try (destruct (ssl_create_default_context w) as [e1|];
         [|destruct (ssl_load_verify_locations w ca) as [e2|];
           [|destruct (ssl_load_cert_chain w cert key) as [e3|]]]);
    apply pair_equal_spec in Hc as [-> ->]; apply pair_equal_spec in Hp as [-> ->];
    split; try reflexivity;
    split; (discriminate || reflexivity).
Qed.

Lemma post_to_url_create_ssl_context_witness :
  tls_calls (create_ssl_context world_without_cert "/home/u/.config/cauth/ca.pem"
               "/home/u/.config/cauth/crt.pem" "/home/u/.config/cauth/key.pem" true).2
  = tls_calls (post_to_url world_without_cert "{}" "https://example.org/in" ∅).2.
Proof.
  refine (proj1 (post_to_url_create_ssl_context world_without_cert "{}"
                   "https://example.org/in" ∅ _ _ _ _)).
  vm_compute. reflexivity.
Defined.

(** ** More on iCal *)

Lemma replace_char (x : ascii) (new : string) (c : ascii) (s : string) :
  Str.replace (String x "") new (String c s)
  = if Ascii.eqb x c then new +:+ Str.replace (String x "") new s
    else String c (Str.replace (String x "") new s).
Proof.
  unfold Str.replace. cbn [Str.replace_from Str.startswith String.length Nat.sub].
  rewrite andb_true_r. reflexivity.
Qed.

Lemma escape_title_cons (c : ascii) (t : string) :
  escape_title (String c t)
  = if needs_escape c then String "\" (String c (escape_title t))
    else String c (escape_title t).
Proof.
  unfold escape_title, needs_escape.
  rewrite (replace_char "\" "\\" c t). rewrite (Ascii.eqb_sym c "\").
  destruct (Ascii.eqb "\" c) eqn:E1.
  { apply Ascii.eqb_eq in E1. subst c. cbn [orb].
    change ("\\" +:+ ?r) with (String "\" (String "\" r)).
    rewrite !replace_char. reflexivity. }
  rewrite replace_char. rewrite (Ascii.eqb_sym c ",").
  destruct (Ascii.eqb "," c) eqn:E2.
  { apply Ascii.eqb_eq in E2. subst c. cbn [orb].
    change ("\," +:+ ?r) with (String "\" (String "," r)).
    rewrite !replace_char. reflexivity. }
  rewrite replace_char. rewrite (Ascii.eqb_sym c ";").
  destruct (Ascii.eqb ";" c) eqn:E3; [|reflexivity].
  apply Ascii.eqb_eq in E3. subst c. reflexivity.
Qed.

Lemma escape_title_each (t : string) : escape_title t = escape_each t.
Proof.
  induction t as [|c t IH]; [reflexivity|].
  rewrite escape_title_cons. cbn [escape_each]. rewrite IH. reflexivity.
Qed.

Lemma unescape_escape_each (t : string) : unescape_title (escape_each t) = t.
Proof.
  induction t as [|c t IH]; [reflexivity|].
  cbn [escape_each]. destruct (needs_escape c) eqn:E.
  - cbn [unescape_title Ascii.eqb Bool.eqb]. rewrite IH. reflexivity.
  - cbn [unescape_title]. unfold needs_escape in E.
    apply orb_false_iff in E as [E _]. apply orb_false_iff in E as [E _].
    rewrite E, IH. reflexivity.
Qed.

(** X17: the three [replace] calls on a title put one backslash before
    every backslash, comma and semicolon and change no other character (a
    line break in a title stays a line break); nothing is lost: the title
    can be read back, so different titles get different [SUMMARY] lines. *)
Theorem escape_title_spec (t : string) :
  escape_title t = escape_each t
  /\ unescape_title (escape_title t) = t
  /\ forall ev1 ev2 : event,
       summary_line ev1 = summary_line ev2 -> title ev1 = title ev2.
Proof.
  split; [apply escape_title_each|].
  split; [rewrite escape_title_each; apply unescape_escape_each|].
  intros ev1 ev2 H. unfold summary_line in H.
  assert (escape_title (title ev1) = escape_title (title ev2)) as H'.
  { change (Str.drop 8 ("SUMMARY:" +:+ escape_title (title ev1))
            = Str.drop 8 ("SUMMARY:" +:+ escape_title (title ev2))).
    rewrite H. reflexivity. }
  rewrite !escape_title_each in H'.
  rewrite <- (unescape_escape_each (title ev1)), H'. apply unescape_escape_each.
Qed.

Lemma land_255_range (n : Z) : 0 <= Z.land n 255 < 256.
Proof.
  change 255 with (Z.ones 8). rewrite Z.land_ones by lia.
  apply Z.mod_pos_bound. lia.
Qed.

Lemma le_bytes_spec (k : nat) (n : Z) :
  length (Md5.le_bytes k n) = k
  /\ Forall (fun b => 0 <= b < 256) (Md5.le_bytes k n).
Proof.
  revert n. induction k as [|k IH]; intros n; cbn [Md5.le_bytes length].
  - split; [reflexivity|constructor].
  - destruct (IH (Z.shiftr n 8)) as [Hl Hr]. split; [rewrite Hl; reflexivity|].
    constructor; [apply land_255_range|exact Hr].
Qed.

Lemma hex_char_spec (n : Z) : 0 <= n < 16 -> is_lower_hex (Md5.hex_char n) = true.
Proof.
  intros H. assert (exists k : nat, (k < 16)%nat /\ n = Z.of_nat k) as (k & Hk & ->).
  { exists (Z.to_nat n). lia. }
  do 16 (destruct k as [|k]; [reflexivity|]). lia.
Qed.

Lemma hex_spec (bytes : list Z) :
  Forall (fun b => 0 <= b < 256) bytes ->
  String.length (Md5.hex bytes) = (2 * length bytes)%nat
  /\ all_in is_lower_hex (Md5.hex bytes) = true.
Proof.
  induction 1 as [|b bytes Hb _ [IHl IHh]]; [split; reflexivity|].
  cbn [Md5.hex String.length length all_in]. split; [lia|].
  rewrite IHh, !hex_char_spec; [reflexivity| |].
  - change 15 with (Z.ones 4). rewrite Z.land_ones by lia.
    apply Z.mod_pos_bound. lia.
  - rewrite Z.shiftr_div_pow2 by lia. change (2 ^ 4) with 16.
    split; [apply Z.div_pos; lia|apply Z.div_lt_upper_bound; lia].
Qed.

Lemma md5_hexdigest_spec (s : string) :
  String.length (md5_hexdigest s) = 32%nat
  /\ all_in is_lower_hex (md5_hexdigest s) = true.
Proof.
  unfold md5_hexdigest, Md5.digest.
  destruct (fold_left Md5.process _ Md5.initial) as [[[a b] c] d].
  destruct (hex_spec (Md5.le_bytes 4 a ++ Md5.le_bytes 4 b
                      ++ Md5.le_bytes 4 c ++ Md5.le_bytes 4 d)) as [Hl Hh].
  { repeat apply Forall_app_2; apply le_bytes_spec. }
  split; [|exact Hh]. rewrite Hl, !length_app.
  rewrite !(proj1 (le_bytes_spec 4 _)). reflexivity.
Qed.

(** X18: the [UID] line of an event is [UID:], 32 lower-case hexadecimal
    digits and [@calscripts]; it is computed from the title and the start
    only, so two events with the same title and start get the same [UID],
    whatever their ends, all-day flags and raw texts. *)
Theorem uid_line_spec (ev : event) :
  (exists h,
      uid_line ev = "UID:" +:+ h +:+ "@calscripts"
      /\ String.length h = 32%nat
      /\ all_in is_lower_hex h = true)
  /\ forall ev' : event,
       title ev' = title ev -> start ev' = start ev -> uid_line ev' = uid_line ev.
Proof.
  split.
  - exists (md5_hexdigest (title ev +:+ str_datetime (start ev))).
    split; [reflexivity|]. apply md5_hexdigest_spec.
  - intros ev' Ht Hs. unfold uid_line. rewrite Ht, Hs. reflexivity.
Qed.


(** ** Dates as they are printed *)

Lemma zero_pad_ok_spec (w : nat) (n : Z) :
  zero_pad_ok w (Z.to_nat n) = true -> 0 <= n ->
  String.length (zero_pad w n) = w
  /\ all_digits (zero_pad w n) = true
  /\ int_digits 0 (zero_pad w n) = Some n.
Proof.
  unfold zero_pad_ok. cbv zeta. intros H Hn. rewrite Z2Nat.id in H by exact Hn.
  apply andb_true_iff in H as [H H3]. apply andb_true_iff in H as [H1 H2].
  apply Nat.eqb_eq in H1. split; [exact H1|]. split; [exact H2|].
  destruct (int_digits 0 (zero_pad w n)) as [v|]; [|discriminate H3].
  apply Z.eqb_eq in H3. rewrite H3. reflexivity.
Qed.

Lemma zero_pad_2 (n : Z) :
  0 <= n <= 99 ->
  String.length (zero_pad 2 n) = 2%nat
  /\ all_digits (zero_pad 2 n) = true
  /\ int_digits 0 (zero_pad 2 n) = Some n.
Proof.
  intros H. apply zero_pad_ok_spec; [|lia].
  assert (forallb (zero_pad_ok 2) (seq 0 100) = true) as Hall
    by (vm_compute; reflexivity).
  rewrite forallb_forall in Hall. apply Hall. apply in_seq. lia.
Qed.

Lemma zero_pad_4 (n : Z) :
  0 <= n <= 9999 ->
  String.length (zero_pad 4 n) = 4%nat
  /\ all_digits (zero_pad 4 n) = true
  /\ int_digits 0 (zero_pad 4 n) = Some n.
Proof.
  intros H. apply zero_pad_ok_spec; [|lia].
  assert (forallb (zero_pad_ok 4) (seq 0 (Z.to_nat 10000)) = true) as Hall
    by (vm_compute; reflexivity).
  rewrite forallb_forall in Hall. apply Hall. apply in_seq. lia.
Qed.

Lemma str_int_year (y : Z) : 1000 <= y <= 9999 -> str_int y = zero_pad 4 y.
Proof.
  intros H.
  assert (forallb (fun k => (String.length (str_int (Z.of_nat k)) =? 4)%nat)
                  (seq (Z.to_nat 1000) (Z.to_nat 9000)) = true) as Hall
    by (vm_compute; reflexivity).
  rewrite forallb_forall in Hall.
  specialize (Hall (Z.to_nat y)). rewrite Z2Nat.id in Hall by lia.
  unfold zero_pad. cbv zeta.
  rewrite (proj1 (Nat.eqb_eq _ _) (Hall ltac:(apply in_seq; lia))). reflexivity.
Qed.

Lemma days_in_month_le (y m : Z) : days_in_month y m <= 31.
Proof.
  unfold days_in_month.
  destruct (m =? 2); [destruct (is_leap y); lia|].
  destruct ((m =? 4) || (m =? 6) || (m =? 9) || (m =? 11)); lia.
Qed.

Lemma parse_event_datetimes (raw0 : string) (e : event) :
  parse_event raw0 = Ok (Some e) ->
  minute_precise (start e) /\ minute_precise (end_ e)
  /\ year (end_ e) = year (start e)
  /\ month (end_ e) = month (start e)
  /\ day (end_ e) = day (start e).
Proof.
  intros E. apply parse_event_ok in E as (_ & _ & _ & Hev).
  destruct Hev as (y & m & d & sH & sM & eH & eM & -> & [? ? ? ? ?] & [? ? ? ? ?] & _).
  cbn [start end_ year month day]. unfold minute_precise.
  cbn [year month day hour minute second microsecond]. split_and!; auto; lia.
Qed.

Lemma strftime_date_same (t1 t2 : datetime) :
  year t2 = year t1 -> month t2 = month t1 -> day t2 = day t1 ->
  strftime_date t2 = strftime_date t1.
Proof. unfold strftime_date. intros -> -> ->. reflexivity. Qed.

Lemma strftime_date_digits (t : datetime) :
  minute_precise t -> 1000 <= year t ->
  String.length (strftime_date t) = 8%nat /\ all_digits (strftime_date t) = true.
Proof.
  intros (Hy & Hm & Hd & _) Hy'. pose proof (days_in_month_le (year t) (month t)).
  unfold strftime_date. rewrite str_int_year by lia.
  destruct (zero_pad_4 (year t)) as (L1 & D1 & _); [lia|].
  destruct (zero_pad_2 (month t)) as (L2 & D2 & _); [lia|].
  destruct (zero_pad_2 (day t)) as (L3 & D3 & _); [lia|].
  rewrite !append_length, !all_digits_app, L1, L2, L3, D1, D2, D3.
  split; reflexivity.
Qed.

Lemma strftime_time_digits (t : datetime) :
  minute_precise t ->
  exists hm,
    strftime_time t = hm +:+ "00"
    /\ String.length hm = 4%nat /\ all_digits hm = true.
Proof.
  intros (_ & _ & _ & HH & HM & HS & _).
  exists (zero_pad 2 (hour t) +:+ zero_pad 2 (minute t)).
  unfold strftime_time. rewrite HS, append_assoc.
  destruct (zero_pad_2 (hour t)) as (L1 & D1 & _); [lia|].
  destruct (zero_pad_2 (minute t)) as (L2 & D2 & _); [lia|].
  rewrite append_length, all_digits_app, L1, L2, D1, D2.
  split; [reflexivity|]. split; reflexivity.
Qed.

(** X19: in the iCal output of an accepted event, [DTSTART] and [DTEND]
    carry the same date.  An all-day event has the two lines as dates, the
    end on the day of the start and not on the day after; a timed event has
    them as local times without zone, four digits of hour and minute and
    [00] for the seconds.  The date is eight digits when the year is 1000
    or later ([%Y] does not pad a smaller year). *)
Theorem parse_event_ical_lines (raw0 : string) (e : event) :
  parse_event raw0 = Ok (Some e) ->
  exists D hm1 hm2,
    strftime_date (start e) = D /\ strftime_date (end_ e) = D
    /\ (1000 <= year (start e) -> String.length D = 8%nat /\ all_digits D = true)
    /\ String.length hm1 = 4%nat /\ all_digits hm1 = true
    /\ String.length hm2 = 4%nat /\ all_digits hm2 = true
    /\ dtstart_line e
       = (if all_day e then "DTSTART;VALUE=DATE:" +:+ D
          else "DTSTART:" +:+ D +:+ "T" +:+ hm1 +:+ "00")
    /\ dtend_line e
       = (if all_day e then "DTEND;VALUE=DATE:" +:+ D
          else "DTEND:" +:+ D +:+ "T" +:+ hm2 +:+ "00").
Proof.
  intros E. apply parse_event_datetimes in E as (Hs & He & Hy & Hm & Hd).
  destruct (strftime_time_digits _ Hs) as (hm1 & Ht1 & L1 & D1).
  destruct (strftime_time_digits _ He) as (hm2 & Ht2 & L2 & D2).
  exists (strftime_date (start e)), hm1, hm2.
  split; [reflexivity|]. split; [apply strftime_date_same; assumption|].
  split; [intros Hy'; apply strftime_date_digits; assumption|].
  split_and!; try assumption.
  - unfold dtstart_line. rewrite Ht1. reflexivity.
  - unfold dtend_line. rewrite Ht2, (strftime_date_same (start e) (end_ e)) by assumption.
    reflexivity.
Qed.

Lemma parse_event_ical_lines_witness :
  exists D hm1 hm2,
    strftime_date (mk_datetime 2026 2 3 10 0 0 0) = D
    /\ String.length hm1 = 4%nat /\ String.length hm2 = 4%nat
    /\ "DTSTART:20260203T100000" = "DTSTART:" +:+ D +:+ "T" +:+ hm1 +:+ "00"
    /\ "DTEND:20260203T110000" = "DTEND:" +:+ D +:+ "T" +:+ hm2 +:+ "00".
Proof.
  destruct (parse_event_ical_lines scenario1
              (mk_event "Team Sync" (mk_datetime 2026 2 3 10 0 0 0)
                        (mk_datetime 2026 2 3 11 0 0 0) false scenario1))
    as (D & hm1 & hm2 & H1 & _ & _ & L1 & _ & L2 & _ & Hs & He).
  - vm_compute. reflexivity.
  - exists D, hm1, hm2. split; [exact H1|]. split; [exact L1|]. split; [exact L2|].
    cbn [all_day] in Hs, He.
    split; [rewrite <- Hs|rewrite <- He]; vm_compute; reflexivity.
Defined.

Lemma append_inj_len (a a' b b' : string) :
  String.length a = String.length a' -> a +:+ b = a' +:+ b' -> a = a' /\ b = b'.
Proof.
  revert a'. induction a as [|x a IH]; intros [|x' a'] Hl H; try discriminate Hl.
  - split; [reflexivity|exact H].
  - rewrite !append_cons in H. inversion H; subst x'.
    destruct (IH a') as [-> ->]; [cbn [String.length] in Hl; lia|assumption|].
    split; reflexivity.
Qed.

Lemma sep_inj (c : ascii) (a b : string) :
  String c "" +:+ a = String c "" +:+ b -> a = b.
Proof. intros H. change (String c a = String c b) in H. inversion H. reflexivity. Qed.

Lemma zero_pad_2_inj (n n' : Z) (r r' : string) :
  0 <= n <= 99 -> 0 <= n' <= 99 ->
  zero_pad 2 n +:+ r = zero_pad 2 n' +:+ r' -> n = n' /\ r = r'.
Proof.
  intros Hn Hn' H.
  destruct (zero_pad_2 n Hn) as (L & _ & V).
  destruct (zero_pad_2 n' Hn') as (L' & _ & V').
  apply append_inj_len in H as [H ->]; [|congruence].
  rewrite H in V. rewrite V in V'. inversion V'. split; reflexivity.
Qed.

Lemma isoformat_minute (t : datetime) :
  minute_precise t ->
  isoformat t
  = zero_pad 4 (year t) +:+ "-" +:+ zero_pad 2 (month t) +:+ "-"
    +:+ zero_pad 2 (day t) +:+ "T" +:+ zero_pad 2 (hour t) +:+ ":"
    +:+ zero_pad 2 (minute t) +:+ ":00".
Proof.
  intros (_ & _ & _ & _ & _ & HS & HU).
  unfold isoformat, isoformat_sep. rewrite HS, HU. reflexivity.
Qed.

(** X20: the ISO string printed for a datetime that [parse_event] built
    is 19 characters, [YYYY-MM-DDTHH:MM:00] with every field padded with
    zeros, and it identifies the datetime: two such datetimes with the same
    string are equal. *)
Theorem isoformat_minute_precise (t1 t2 : datetime) :
  minute_precise t1 -> minute_precise t2 ->
  String.length (isoformat t1) = 19%nat
  /\ (isoformat t1 = isoformat t2 -> t1 = t2).
Proof.
  intros H1 H2. rewrite (isoformat_minute t1 H1), (isoformat_minute t2 H2).
  pose proof H1 as (Hy1 & Hm1 & Hd1 & HH1 & HM1 & HS1 & HU1).
  pose proof H2 as (Hy2 & Hm2 & Hd2 & HH2 & HM2 & HS2 & HU2).
  pose proof (days_in_month_le (year t1) (month t1)).
  pose proof (days_in_month_le (year t2) (month t2)).
  destruct (zero_pad_4 (year t1)) as (LY1 & _ & VY1); [lia|].
  destruct (zero_pad_4 (year t2)) as (LY2 & _ & VY2); [lia|].
  split.
  - destruct (zero_pad_2 (month t1)) as (L2 & _); [lia|].
    destruct (zero_pad_2 (day t1)) as (L3 & _); [lia|].
    destruct (zero_pad_2 (hour t1)) as (L4 & _); [lia|].
    destruct (zero_pad_2 (minute t1)) as (L5 & _); [lia|].
    rewrite !append_length, LY1, L2, L3, L4, L5. reflexivity.
  - intros E. apply append_inj_len in E as [Ey E]; [|congruence].
    rewrite Ey in VY1. rewrite VY1 in VY2. inversion VY2 as [Hy].
    apply sep_inj in E.
    apply zero_pad_2_inj in E as [Hm E]; [|lia|lia]. apply sep_inj in E.
    apply zero_pad_2_inj in E as [Hd E]; [|lia|lia]. apply sep_inj in E.
    apply zero_pad_2_inj in E as [HH E]; [|lia|lia]. apply sep_inj in E.
    apply zero_pad_2_inj in E as [HM _]; [|lia|lia].
    destruct t1, t2. cbn in *. congruence.
Qed.

Lemma isoformat_minute_precise_witness :
  String.length (isoformat (mk_datetime 2026 2 3 10 0 0 0)) = 19%nat.
Proof.
  assert (minute_precise (mk_datetime 2026 2 3 10 0 0 0)) as H.
  { unfold minute_precise. cbn. vm_compute. intuition discriminate. }
  exact (proj1 (isoformat_minute_precise _ _ H H)).
Defined.


(** ** More on the JSON document *)

Lemma count_char_app (c : ascii) (a b : string) :
  count_char c (a +:+ b) = (count_char c a + count_char c b)%nat.
Proof.
  induction a as [|x a IH]; [reflexivity|].
  rewrite append_cons. cbn [count_char]. rewrite IH. lia.
Qed.

Lemma digits_no_plus (s : string) : all_digits s = true -> count_char "+" s = O.
Proof.
  induction s as [|c s IH]; [reflexivity|]. cbn [all_digits count_char].
  intros H. apply andb_true_iff in H as [Hc Hs]. rewrite (IH Hs).
  destruct (Ascii.eqb c "+") eqn:E; [|reflexivity].
  apply Ascii.eqb_eq in E. subst c. discriminate Hc.
Qed.

Lemma str_nonneg_digits (n : Z) : 0 <= n -> all_digits (str_nonneg n) = true.
Proof.
  intros Hn. destruct (str_nonneg_spec n Hn) as (c & ds & -> & Hc & Hds & _).
  cbn [all_digits]. rewrite Hc, Hds. reflexivity.
Qed.

Lemma str_int_no_plus (n : Z) : count_char "+" (str_int n) = O.
Proof.
  unfold str_int. destruct (n <? 0) eqn:E.
  - apply Z.ltb_lt in E. cbn [count_char Ascii.eqb Bool.eqb].
    rewrite digits_no_plus; [reflexivity|]. apply str_nonneg_digits. lia.
  - apply Z.ltb_ge in E. apply digits_no_plus, str_nonneg_digits. exact E.
Qed.

Lemma zeros_no_plus (k : nat) : count_char "+" (zeros k) = O.
Proof. induction k as [|k IH]; [reflexivity|]. cbn [zeros count_char]. exact IH. Qed.

Lemma zero_pad_no_plus (w : nat) (n : Z) : count_char "+" (zero_pad w n) = O.
Proof.
  unfold zero_pad. cbv zeta. rewrite count_char_app, zeros_no_plus, str_int_no_plus.
  reflexivity.
Qed.

Lemma isoformat_no_plus (t : datetime) : count_char "+" (isoformat t) = O.
Proof.
  unfold isoformat, isoformat_sep.
  destruct (microsecond t =? 0);
    rewrite !count_char_app, !zero_pad_no_plus; reflexivity.
Qed.

Lemma replace_utc_offset (s : string) :
  count_char "+" s = O -> Str.replace "+00:00" "Z" (s +:+ "+00:00") = s +:+ "Z".
Proof.
  induction s as [|c s IH]; intros H; [reflexivity|].
  cbn [count_char] in H. destruct (Ascii.eqb c "+") eqn:E; [discriminate H|].
  rewrite !append_cons. unfold Str.replace. cbn [Str.replace_from Str.startswith].
  rewrite Ascii.eqb_sym, E. cbn [andb]. f_equal. apply IH. exact H.
Qed.

(** X21: the text [events_to_json] returns decodes to one object with the
    keys [target], [fetched_at], [event_count] and [events] and nothing
    else: [target] is null when no target was given, [fetched_at] is the
    ISO string of the clock reading with [Z] in place of the UTC offset, and
    each event object has the keys [title], [start], [end] and [all_day] only
    (the raw text is not part of the document). *)
Theorem events_to_json_document (now : datetime) (evs : list event)
    (target : option string) :
  fetched_at now = isoformat now +:+ "Z"
  /\ loads (events_to_json now evs target)
     = Some (JDict
               [("target", match target with Some t => JStr t | None => JNull end);
                ("fetched_at", JStr (isoformat now +:+ "Z"));
                ("event_count", JInt (Z.of_nat (length evs)));
                ("events",
                 JList (map (fun ev =>
                               JDict [("title", JStr (title ev));
                                      ("start", JStr (isoformat (start ev)));
                                      ("end", JStr (isoformat (end_ ev)));
                                      ("all_day", JBool (all_day ev))]) evs))]).
Proof.
  assert (fetched_at now = isoformat now +:+ "Z") as Hf
    by apply replace_utc_offset, isoformat_no_plus.
  split; [exact Hf|].
  unfold events_to_json. rewrite loads_dumps by apply json_output_wf.
  unfold json_output. cbv zeta. rewrite Hf, length_map. reflexivity.
Qed.

Lemma all_in_app (cls : ascii -> bool) (a b : string) :
  all_in cls (a +:+ b) = all_in cls a && all_in cls b.
Proof.
  induction a as [|x a IH]; [reflexivity|].
  rewrite append_cons. cbn [all_in]. rewrite IH, andb_assoc. reflexivity.
Qed.

Lemma escape_char_ascii (c : ascii) : all_in is_ascii_text (escape_char c) = true.
Proof. destruct c as [[] [] [] [] [] [] [] []]; reflexivity. Qed.

Lemma encode_string_ascii (s : string) : all_in is_ascii_text (encode_string s) = true.
Proof.
  unfold encode_string. cbn [all_in]. rewrite all_in_app.
  assert (all_in is_ascii_text (escape_body s) = true) as ->; [|reflexivity].
  induction s as [|c s IH]; [reflexivity|].
  cbn [escape_body]. rewrite all_in_app, escape_char_ascii, IH. reflexivity.
Qed.

Lemma digits_ascii (s : string) : all_digits s = true -> all_in is_ascii_text s = true.
Proof.
  induction s as [|c s IH]; [reflexivity|]. cbn [all_digits all_in].
  intros H. apply andb_true_iff in H as [Hc Hs]. rewrite (IH Hs), andb_true_r.
  destruct c as [[] [] [] [] [] [] [] []]; try discriminate Hc; reflexivity.
Qed.

Lemma str_int_ascii (n : Z) : all_in is_ascii_text (str_int n) = true.
Proof.
  unfold str_int. destruct (n <? 0) eqn:E.
  - apply Z.ltb_lt in E. cbn [all_in]. rewrite digits_ascii; [reflexivity|].
    apply str_nonneg_digits. lia.
  - apply Z.ltb_ge in E. apply digits_ascii, str_nonneg_digits. exact E.
Qed.

Lemma spaces_ascii (k : nat) : all_in is_ascii_text (spaces k) = true.
Proof. induction k as [|k IH]; [reflexivity|]. cbn [spaces all_in]. exact IH. Qed.

Lemma newline_indent_ascii (level : nat) :
  all_in is_ascii_text (newline_indent level) = true.
Proof. unfold newline_indent. cbn [all_in]. apply spaces_ascii. Qed.

Lemma join_ascii (sep : string) (items : list string) :
  all_in is_ascii_text sep = true ->
  Forall (fun x => all_in is_ascii_text x = true) items ->
  all_in is_ascii_text (Str.join sep items) = true.
Proof.
  intros Hsep. induction 1 as [|x items Hx Hitems IH]; [reflexivity|].
  destruct items as [|y items]; [exact Hx|].
  rewrite join_cons2, !all_in_app, Hx, Hsep, IH. reflexivity.
Qed.

Lemma container_ascii (open close : string) (level : nat) (items : list string) :
  all_in is_ascii_text open = true -> all_in is_ascii_text close = true ->
  Forall (fun x => all_in is_ascii_text x = true) items ->
  all_in is_ascii_text (container open close level items) = true.
Proof.
  intros Ho Hc Hitems. unfold container. destruct items as [|x items].
  - rewrite all_in_app, Ho, Hc. reflexivity.
  - rewrite !all_in_app, Ho, Hc, !newline_indent_ascii, join_ascii; [reflexivity| |exact Hitems].
    unfold item_separator. cbn [all_in]. apply newline_indent_ascii.
Qed.

Lemma dumps_at_ascii (v : json) :
  forall level, all_in is_ascii_text (dumps_at level v) = true.
Proof.
  induction v as [ |b|n|s|l IH|d IH] using json_nested_ind; intros level;
    cbn [dumps_at].
  - reflexivity.
  - destruct b; reflexivity.
  - apply str_int_ascii.
  - apply encode_string_ascii.
  - apply container_ascii; [reflexivity|reflexivity|].
    apply Forall_map. eapply Forall_impl; [exact IH|]. intros x Hx. apply Hx.
  - apply container_ascii; [reflexivity|reflexivity|].
    apply Forall_map. eapply Forall_impl; [exact IH|]. intros [k x] Hx.
    cbn [snd] in Hx. rewrite !all_in_app, encode_string_ascii, Hx. reflexivity.
Qed.

(** X22: the text [events_to_json] returns is made of printable ASCII
    characters and line breaks only, whatever characters the titles and the
    target contain: every other character is printed as an escape. *)
Theorem events_to_json_ascii (now : datetime) (evs : list event)
    (target : option string) :
  all_in is_ascii_text (events_to_json now evs target) = true.
Proof. apply dumps_at_ascii. Qed.


(** ** [main] *)

Lemma sinks_app (a b : list main_action) : sinks (a ++ b) = sinks a ++ sinks b.
Proof. apply omap_app. Qed.

Lemma sinks_status (l : list main_action) : forallb is_status l = true -> sinks l = [].
Proof.
  induction l as [|a l IH]; [reflexivity|]. cbn [forallb]. intros H.
  apply andb_true_iff in H as [Ha Hl]. unfold sinks. cbn [omap list_omap].
  fold (sinks l). rewrite (IH Hl).
  destruct a as [[]| | | |]; try discriminate Ha; reflexivity.
Qed.

Lemma fetch_status (l : list main_action) :
  forallb is_status l = true -> List.filter is_fetch l = [].
Proof.
  induction l as [|a l IH]; [reflexivity|]. cbn [forallb]. intros H.
  apply andb_true_iff in H as [Ha Hl]. cbn [List.filter]. rewrite (IH Hl).
  destruct a as [[]| | | |]; try discriminate Ha; reflexivity.
Qed.

Lemma stdout_stderr (l : list main_action) :
  forallb (fun a => match a with Stderr _ => true | _ => false end) l = true ->
  existsb is_stdout l = false.
Proof.
  induction l as [|a l IH]; [reflexivity|]. cbn [forallb existsb]. intros H.
  apply andb_true_iff in H as [Ha Hl]. rewrite (IH Hl).
  destruct a; try discriminate Ha; reflexivity.
Qed.

Lemma credentials_status (args : arguments) (config : toml_config) :
  forallb (fun a => match a with Stderr _ => true | _ => false end)
          (credentials args config).2 = true.
Proof.
  unfold credentials, get_credentials.
  destruct (opt_truthy (arg_target args)); [|reflexivity].
  destruct (target_lookup _ _) as [cfg|]; [|reflexivity].
  cbv zeta. cbn [snd]. destruct (_ && _); reflexivity.
Qed.

Lemma stderr_status (l : list main_action) :
  forallb (fun a => match a with Stderr _ => true | _ => false end) l = true ->
  forallb is_status l = true.
Proof.
  induction l as [|a l IH]; [reflexivity|]. cbn [forallb]. intros H.
  apply andb_true_iff in H as [Ha Hl]. rewrite (IH Hl).
  destruct a; try discriminate Ha; reflexivity.
Qed.

Lemma list_targets_status (config : toml_config) :
  forallb is_status (list_targets config) = true.
Proof.
  unfold list_targets. destruct (targets config) as [|t ts]; [reflexivity|].
  cbn [forallb is_status andb]. generalize (t :: ts). intros l.
  induction l as [|[name cfg] l IH]; [reflexivity|]. cbn [map forallb is_status andb].
  exact IH.
Qed.

(** A run that does not go on to the browser only reports. *)
Lemma main_stops (mw : main_world) (args : arguments) (config : toml_config) :
  proceeds args config = false ->
  (main mw args config).1 = Returned
  /\ forallb is_status (main mw args config).2 = true.
Proof.
  unfold proceeds, main. intros H.
  destruct (arg_list_targets args).
  { split; [reflexivity|apply list_targets_status]. }
  pose proof (credentials_status args config) as Hc.
  destruct (credentials args config) as [[username password] trace].
  cbn [fst snd negb andb] in *. apply stderr_status in Hc.
  destruct (opt_truthy (arg_target args) && negb (opt_truthy username)) eqn:Ht.
  { split; [reflexivity|]. cbn [snd]. rewrite forallb_app, Hc. reflexivity. }
  destruct (arg_post args && negb (arg_json args)) eqn:Hp.
  { split; [reflexivity|]. cbn [snd]. rewrite forallb_app, Hc. reflexivity. }
  exfalso. apply andb_false_iff in H as [H|H].
  - destruct (opt_truthy (arg_target args)), (opt_truthy username); discriminate.
  - destruct (arg_post args), (arg_json args); discriminate.
Qed.

(** The part of [output] that does not depend on what was done before. *)
Lemma output_app (mw : main_world) (args : arguments) (config : toml_config)
    (evs : list event) (trace : list main_action) :
  output mw args config evs trace
  = ((output mw args config evs []).1, trace ++ (output mw args config evs []).2).
Proof.
  unfold output, save. cbv zeta.
  destruct (arg_json args); [destruct (arg_post args)|destruct (arg_ical args)];
    try destruct (negb (opt_truthy (post_url config)));
    try destruct (post_to_url (net mw) _ _ _) as [[posted|err] did];
    try destruct (opt_truthy (arg_output args));
    try destruct (write_file mw _ _);
    cbn [fst snd negb app]; rewrite ?app_nil_r, <- ?app_assoc; reflexivity.
Qed.

(** A run that goes on to the browser: the lines before the call are status
    lines on stderr, and what follows depends on the raw events. *)
Lemma main_goes_on (mw : main_world) (args : arguments) (config : toml_config) :
  proceeds args config = true ->
  exists before,
    forallb (fun a => match a with Stderr _ => true | _ => false end) before = true
    /\ main mw args config
       = match raw_events_of mw args config with
         | [] => (Returned,
                  before ++ [fetch_call args config; Stderr ErrNoEvents;
                             Stderr ErrTryAgain])
         | _ =>
             match parse_all (raw_events_of mw args config) [] with
             | Raise e => (Raised e, before ++ [fetch_call args config])
             | Ok evs =>
                 ((output mw args config evs []).1,
                  before ++ fetch_call args config
                  :: (if status_quiet args then []
                      else [Stderr (ErrFound (length evs))])
                  ++ (output mw args config evs []).2)
             end
         end.
Proof.
  unfold proceeds, main, raw_events_of, fetch_call. intros H.
  apply andb_true_iff in H as [H Hp]. apply andb_true_iff in H as [Hl Ht].
  apply negb_true_iff in Hl. rewrite Hl.
  pose proof (credentials_status args config) as Hc.
  destruct (credentials args config) as [[username password] trace].
  cbn [fst snd] in *.
  assert (opt_truthy (arg_target args) && negb (opt_truthy username) = false) as ->
    by (destruct (opt_truthy (arg_target args)), (opt_truthy username);
        try reflexivity; discriminate Ht).
  assert (arg_post args && negb (arg_json args) = false) as ->
    by (destruct (arg_post args), (arg_json args); try reflexivity; discriminate Hp).
  cbv zeta.
  exists (trace ++
          (if status_quiet args then []
           else Stderr ErrBanner :: Stderr ErrRule
                :: (if opt_truthy (arg_target args)
                    then [Stderr (ErrTargetLine (default "" (arg_target args))
                                                (default "" username))]
                    else []))).
  split.
  { rewrite forallb_app, Hc.
    destruct (status_quiet args); [reflexivity|].
    destruct (opt_truthy (arg_target args)); reflexivity. }
  destruct (calendar mw _ _ _ username password) as [|r raws].
  { rewrite <- !app_assoc. reflexivity. }
  destruct (parse_all (r :: raws) []) as [evs|e]; [|reflexivity].
  rewrite output_app. rewrite <- !app_assoc. reflexivity.
Qed.

Lemma output_no_fetch (mw : main_world) (args : arguments) (config : toml_config)
    (evs : list event) :
  List.filter is_fetch (output mw args config evs []).2 = [].
Proof.
  unfold output, save. cbv zeta.
  assert (forall l : list action, List.filter is_fetch (map Deliver l) = []) as Hd
    by (induction l; [reflexivity|assumption]).
  assert (forall l : list event, List.filter is_fetch (map text_line l) = []) as Hl.
  { induction l as [|ev l IH]; [reflexivity|]. cbn [map List.filter].
    unfold text_line at 1. destruct (all_day ev); exact IH. }
  destruct (arg_json args); [destruct (arg_post args)|destruct (arg_ical args)];
    try destruct (negb (opt_truthy (post_url config)));
    try destruct (post_to_url (net mw) _ _ _) as [[posted|err] did];
    try destruct (opt_truthy (arg_output args));
    try destruct (write_file mw _ _);
    cbn [fst snd negb app]; rewrite ?List.filter_app, ?Hd, ?Hl; reflexivity.
Qed.

(** X23: [main] opens the browser, once, exactly when [--list-targets] is
    absent, the target (when one is given) is configured with a user name,
    and [--post] comes with [--json]; the call gets the days, the headless
    flag, the browser and the credentials of the target.  Otherwise [main]
    returns after status lines only: nothing is fetched, written or sent. *)
Theorem main_fetches (mw : main_world) (args : arguments) (config : toml_config) :
  List.filter is_fetch (main mw args config).2
  = (if proceeds args config then [fetch_call args config] else [])
  /\ (proceeds args config = false ->
      (main mw args config).1 = Returned
      /\ forallb is_status (main mw args config).2 = true
      /\ sinks (main mw args config).2 = []).
Proof.
  destruct (proceeds args config) eqn:Hp.
  - split; [|discriminate].
    destruct (main_goes_on mw args config Hp) as (before & Hb & ->).
    apply stderr_status, fetch_status in Hb.
    destruct (raw_events_of mw args config) as [|r raws].
    { cbn [snd]. rewrite List.filter_app, Hb. reflexivity. }
    destruct (parse_all (r :: raws) []) as [evs|e]; cbn [snd].
    + rewrite List.filter_app, Hb. cbn [List.filter is_fetch app].
      rewrite List.filter_app, output_no_fetch.
      destruct (status_quiet args); reflexivity.
    + rewrite List.filter_app, Hb. reflexivity.
  - destruct (main_stops mw args config Hp) as [H1 H2].
    split; [apply fetch_status, H2|]. intros _.
    split; [exact H1|]. split; [exact H2|apply sinks_status, H2].
Qed.


Lemma opt_truthy_some (o : option string) :
  opt_truthy o = true -> o = Some (default "" o) /\ Str.truthy (default "" o) = true.
Proof. destruct o as [s|]; [|discriminate]. intros H. split; [reflexivity|exact H]. Qed.

Lemma sinks_deliver (w : world) (data url : string)
    (config : gmap string (gmap string string)) :
  sinks (map Deliver (post_to_url w data url config).2)
  = if existsb is_http_post (post_to_url w data url config).2
    then [ToUrl url data] else [].
Proof.
  rewrite post_to_url_unfold.
  destruct (resolved_files w config) as [files|err] eqn:Hres; [|reflexivity].
  apply resolved_files_inv in Hres as (ca & cert & key & _ & _ & _ & ->).
  destruct (first_missing w _) as [[[path name]|]|err]; [reflexivity| |reflexivity].
  cbn [cert_files]. unfold try_post, call.
  destruct (ssl_create_default_context w); [reflexivity|].
  destruct (ssl_load_verify_locations w _); [reflexivity|].
  destruct (ssl_load_cert_chain w _ _); [reflexivity|].
  destruct (http_post w url data) as [status text|err];
    [destruct (is_success status)|]; reflexivity.
Qed.

(** An exception of [post_to_url] comes before anything is done. *)
Lemma post_to_url_fails (w : world) (data url : string)
    (config : gmap string (gmap string string)) (err : string) :
  (post_to_url w data url config).1 = Raises err ->
  (post_to_url w data url config).2 = [].
Proof.
  rewrite post_to_url_unfold.
  destruct (resolved_files w config) as [files|e]; [|reflexivity].
  destruct (first_missing w files) as [[[path name]|]|e];
    [discriminate| |reflexivity].
  destruct files as [|[ca ?] [|[cert ?] [|[key ?] [|? ?]]]]; discriminate.
Qed.

Lemma sinks_text_lines (evs : list event) : sinks (map text_line evs) = [].
Proof.
  induction evs as [|ev evs IH]; [reflexivity|]. unfold sinks in *.
  cbn [map omap list_omap]. rewrite IH. unfold text_line.
  destruct (all_day ev); reflexivity.
Qed.

(** The documents [output] hands out, in order. *)
Lemma output_sinks (mw : main_world) (args : arguments) (config : toml_config)
    (evs : list event) :
  let doc := document mw args evs in
  let url := default "" (post_url config) in
  let to_file := [ToFile (default "" (arg_output args)) doc] in
  sinks (output mw args config evs []).2
  = if arg_json args then
      if arg_post args then
        if opt_truthy (post_url config) then
          match post_to_url (net mw) doc url (tables config) with
          | (Raises _, _) => []
          | (Answer _, did) =>
              (if existsb is_http_post did then [ToUrl url doc] else [])
              ++ (if opt_truthy (arg_output args) then to_file else [])
          end
        else []
      else if opt_truthy (arg_output args) then to_file else [ToStdout doc]
    else if arg_ical args then
      if opt_truthy (arg_output args) then to_file else [ToStdout doc]
    else [].
Proof.
  unfold output, save, document. cbv zeta.
  destruct (arg_json args); [destruct (arg_post args)|destruct (arg_ical args)];
    try destruct (opt_truthy (post_url config)); cbn [negb];
    try (pose proof (sinks_deliver (net mw)
                       (events_to_json (utc_now mw 0) evs (arg_target args))
                       (default "" (post_url config)) (tables config)) as Hd;
         pose proof (post_to_url_fails (net mw)
                       (events_to_json (utc_now mw 0) evs (arg_target args))
                       (default "" (post_url config)) (tables config)) as Hf;
         destruct (post_to_url (net mw) _ _ _) as [[posted|err] did];
         cbn [fst snd] in Hd, Hf; [|rewrite (Hf err eq_refl)]);
    try destruct (opt_truthy (arg_output args));
    try destruct (write_file mw _ _);
    cbn [fst snd negb app]; rewrite ?app_nil_l, ?sinks_app, ?Hd,
      ?sinks_text_lines, ?app_nil_r; reflexivity.
Qed.

Lemma output_end (mw : main_world) (args : arguments) (config : toml_config)
    (evs : list event) (e : exn) :
  (output mw args config evs []).1 <> Raised e.
Proof.
  unfold output, save. cbv zeta.
  destruct (arg_json args); [destruct (arg_post args)|destruct (arg_ical args)];
    try destruct (negb (opt_truthy (post_url config)));
    try destruct (post_to_url (net mw) _ _ _) as [[posted|err] did];
    try destruct (opt_truthy (arg_output args));
    try destruct (write_file mw _ _); discriminate.
Qed.

(** The documents a run hands out. *)
Lemma main_sinks (mw : main_world) (args : arguments) (config : toml_config) :
  sinks (main mw args config).2
  = if proceeds args config then
      match raw_events_of mw args config with
      | [] => []
      | _ =>
          match parse_all (raw_events_of mw args config) [] with
          | Raise _ => []
          | Ok evs => sinks (output mw args config evs []).2
          end
      end
    else [].
Proof.
  destruct (proceeds args config) eqn:Hp.
  - destruct (main_goes_on mw args config Hp) as (before & Hb & ->).
    apply stderr_status, sinks_status in Hb.
    destruct (raw_events_of mw args config) as [|r raws].
    { cbn [snd]. rewrite sinks_app, Hb. reflexivity. }
    destruct (parse_all (r :: raws) []) as [evs|e]; cbn [snd].
    + rewrite sinks_app, Hb.
      change (fetch_call args config :: ?l) with ([fetch_call args config] ++ l).
      rewrite !sinks_app. destruct (status_quiet args); reflexivity.
    + rewrite sinks_app, Hb. reflexivity.
  - apply sinks_status, main_stops, Hp.
Qed.

(** X24: whatever [main] hands out (on stdout, in the file of [--output]
    or in a request) is the one document of the run: the JSON text of the
    parsed events when [--json] is given, the iCal text otherwise.  A
    document is handed out only after the browser returned at least one raw
    event and every raw event was parsed without an exception; it goes to
    stdout only without [--output] and without posting, to a file only at
    the path of [--output], and to a URL only under [--json --post], at the
    URL of the configuration. *)
Theorem main_documents (mw : main_world) (args : arguments) (config : toml_config)
    (s : sink) :
  s ∈ sinks (main mw args config).2 ->
  proceeds args config = true
  /\ raw_events_of mw args config <> []
  /\ arg_json args || arg_ical args = true
  /\ exists evs,
       parse_all (raw_events_of mw args config) [] = Ok evs
       /\ match s with
          | ToStdout text =>
              text = document mw args evs
              /\ opt_truthy (arg_output args) = false
              /\ arg_json args && arg_post args = false
          | ToFile path text =>
              text = document mw args evs
              /\ arg_output args = Some path /\ Str.truthy path = true
          | ToUrl url text =>
              text = document mw args evs
              /\ arg_json args = true /\ arg_post args = true
              /\ post_url config = Some url /\ Str.truthy url = true
          end.
Proof.
  rewrite main_sinks. intros H.
  destruct (proceeds args config); [|apply elem_of_nil in H; contradiction].
  split; [reflexivity|].
  destruct (raw_events_of mw args config) as [|r raws] eqn:Hr;
    [apply elem_of_nil in H; contradiction|].
  split; [discriminate|].
  destruct (parse_all (r :: raws) []) as [evs|e];
    [|apply elem_of_nil in H; contradiction].
  rewrite output_sinks in H. cbv zeta in H.
  assert (forall (b : bool) (x : sink), s ∈ (if b then [x] else []) -> b = true /\ s = x)
    as Hone.
  { intros [] x Hx; [|apply elem_of_nil in Hx; contradiction].
    apply list_elem_of_singleton in Hx. auto. }
  destruct (arg_json args) eqn:Hj.
  - split; [reflexivity|]. exists evs. split; [reflexivity|].
    destruct (arg_post args) eqn:Hpost.
    + destruct (opt_truthy (post_url config)) eqn:Hu;
        [|apply elem_of_nil in H; contradiction].
      apply opt_truthy_some in Hu as [Hu1 Hu2].
      destruct (post_to_url (net mw) _ _ _) as [[posted|err] did];
        [|apply elem_of_nil in H; contradiction].
      apply elem_of_app in H as [H|H]; apply Hone in H as [Hb ->].
      * auto.
      * apply opt_truthy_some in Hb as [Hb1 Hb2]. auto.
    + destruct (opt_truthy (arg_output args)) eqn:Ho.
      * apply list_elem_of_singleton in H. subst s.
        apply opt_truthy_some in Ho as [Ho1 Ho2]. auto.
      * apply list_elem_of_singleton in H. subst s. auto.
  - destruct (arg_ical args) eqn:Hi; [|apply elem_of_nil in H; contradiction].
    split; [reflexivity|]. exists evs. split; [reflexivity|].
    destruct (opt_truthy (arg_output args)) eqn:Ho.
    + apply list_elem_of_singleton in H. subst s.
      apply opt_truthy_some in Ho as [Ho1 Ho2]. auto.
    + apply list_elem_of_singleton in H. subst s. auto.
Qed.

Lemma main_documents_witness :
  exists evs,
    parse_all (raw_events_of (demo_world [scenario1; "noise, only"; scenario2])
                             (demo_args true false None) demo_config) [] = Ok evs
    /\ document (demo_world [scenario1; "noise, only"; scenario2])
                (demo_args true false None) demo_events
       = document (demo_world [scenario1; "noise, only"; scenario2])
                  (demo_args true false None) evs
    /\ opt_truthy (arg_output (demo_args true false None)) = false
    /\ arg_json (demo_args true false None) && arg_post (demo_args true false None)
       = false.
Proof.
  assert (ToStdout (document (demo_world [scenario1; "noise, only"; scenario2])
                             (demo_args true false None) demo_events)
            ∈ sinks (main (demo_world [scenario1; "noise, only"; scenario2])
                          (demo_args true false None) demo_config).2) as H
    by (vm_compute; left).
  exact (proj2 (proj2 (proj2 (main_documents _ _ _ _ H)))).
Defined.

Lemma stdout_filter_stderr (l : list main_action) :
  forallb (fun a => match a with Stderr _ => true | _ => false end) l = true ->
  List.filter is_stdout l = [].
Proof.
  induction l as [|a l IH]; [reflexivity|]. cbn [forallb List.filter]. intros H.
  apply andb_true_iff in H as [Ha Hl]. rewrite (IH Hl).
  destruct a; try discriminate Ha; reflexivity.
Qed.

Lemma stdout_text_lines (evs : list event) :
  List.filter is_stdout (map text_line evs) = map text_line evs.
Proof.
  induction evs as [|ev evs IH]; [reflexivity|]. cbn [map List.filter].
  rewrite IH. unfold text_line. destruct (all_day ev); reflexivity.
Qed.

(** X25: where the document goes once the raw events are parsed (also
    when none of them gave an event: the document is then one without
    events).  Under [--json --post] without a configured URL nothing is
    handed out, not even the file of [--output].  With a URL,
    [post_to_url] is called: when it returns, [True] or [False], with or
    without the request sent, the file of [--output] is written all the
    same and nothing goes to stdout; when it raises on its path checks,
    the exception ends [main] and nothing is handed out.  Without posting,
    the document goes to the file of [--output] or else to stdout, once.
    Without [--json] and [--ical], stdout gets one text line per event and
    no document. *)
Theorem main_destinations (mw : main_world) (args : arguments) (config : toml_config)
    (evs : list event) :
  proceeds args config = true ->
  raw_events_of mw args config <> [] ->
  parse_all (raw_events_of mw args config) [] = Ok evs ->
  let doc := document mw args evs in
  let url := default "" (post_url config) in
  let out := sinks (main mw args config).2 in
  let to_file := if opt_truthy (arg_output args)
                 then [ToFile (default "" (arg_output args)) doc] else [] in
  (arg_json args && arg_post args = true ->
   if opt_truthy (post_url config)
   then match (post_to_url (net mw) doc url (tables config)).1 with
        | Answer _ => out = to_file \/ out = ToUrl url doc :: to_file
        | Raises err => out = [] /\ (main mw args config).1 = RaisedError err
        end
   else out = [])
  /\ (arg_json args || arg_ical args = true -> arg_json args && arg_post args = false ->
      out = if opt_truthy (arg_output args) then to_file else [ToStdout doc])
  /\ (arg_json args || arg_ical args = false ->
      out = [] /\ List.filter is_stdout (main mw args config).2 = map text_line evs).
Proof.
  intros Hp Hr Hevs doc url out to_file. subst out to_file url doc.
  rewrite main_sinks, Hp.
  destruct (main_goes_on mw args config Hp) as (before & Hb & Hmain).
  destruct (raw_events_of mw args config) as [|r raws]; [contradiction|].
  rewrite Hevs in *. rewrite output_sinks. cbv zeta. rewrite Hmain. cbn [fst snd].
  split_and!.
  - intros H. apply andb_true_iff in H as [Hj Hpost]. rewrite Hj, Hpost.
    destruct (opt_truthy (post_url config)) eqn:Hu; [|reflexivity].
    unfold document. rewrite Hj.
    unfold output. rewrite Hj, Hpost, Hu. cbn [negb].
    destruct (post_to_url (net mw) _ _ _) as [[posted|err] did]; cbn [fst].
    + destruct (existsb is_http_post did); [right|left]; reflexivity.
    + split; reflexivity.
  - intros H1 H2. destruct (arg_json args).
    + cbn [andb] in H2. rewrite H2. destruct (opt_truthy (arg_output args)); reflexivity.
    + cbn [orb] in H1. rewrite H1. destruct (opt_truthy (arg_output args)); reflexivity.
  - intros H. apply orb_false_iff in H as [Hj Hi]. rewrite Hj, Hi.
    split; [reflexivity|].
    assert (status_quiet args = false) as ->
      by (unfold status_quiet; rewrite Hj, Hi; reflexivity).
    unfold output. rewrite Hj, Hi. cbn [snd app].
    rewrite List.filter_app, (stdout_filter_stderr before Hb).
    cbn [List.filter is_stdout app]. apply stdout_text_lines.
Qed.

Lemma main_destinations_witness :
  (sinks (main (demo_world ["noise, only"]) (demo_args true true (Some "out.json"))
               demo_config).2
   = [ToFile "out.json"
             (document (demo_world ["noise, only"])
                       (demo_args true true (Some "out.json")) [])]
   \/ sinks (main (demo_world ["noise, only"]) (demo_args true true (Some "out.json"))
                  demo_config).2
      = [ToUrl "https://example.org/in"
               (document (demo_world ["noise, only"])
                         (demo_args true true (Some "out.json")) []);
         ToFile "out.json"
                (document (demo_world ["noise, only"])
                          (demo_args true true (Some "out.json")) [])])
  /\ sinks (main (demo_world ["noise, only"]) (demo_args true true (Some "out.json"))
                 empty_config).2 = []
  /\ (sinks (main (long_name_world ["noise, only"])
                  (demo_args true true (Some "out.json")) demo_config).2 = []
      /\ (main (long_name_world ["noise, only"])
               (demo_args true true (Some "out.json")) demo_config).1
         = RaisedError "[Errno 36] File name too long").
Proof.
  split_and!.
  - destruct (main_destinations (demo_world ["noise, only"])
                (demo_args true true (Some "out.json")) demo_config [])
      as (H & _); [reflexivity|discriminate|reflexivity|].
    exact (H eq_refl).
  - destruct (main_destinations (demo_world ["noise, only"])
                (demo_args true true (Some "out.json")) empty_config [])
      as (H & _); [reflexivity|discriminate|reflexivity|].
    exact (H eq_refl).
  - destruct (main_destinations (long_name_world ["noise, only"])
                (demo_args true true (Some "out.json")) demo_config [])
      as (H & _); [reflexivity|discriminate|reflexivity|].
    exact (proj1 (H eq_refl)).
  - destruct (main_destinations (long_name_world ["noise, only"])
                (demo_args true true (Some "out.json")) demo_config [])
      as (H & _); [reflexivity|discriminate|reflexivity|].
    exact (proj2 (H eq_refl)).
Defined.

Lemma parse_all_raise_inv (raws : list string) (acc : list event) (e : exn) :
  parse_all raws acc = Raise e ->
  exists r, r ∈ raws /\ parse_event r = Raise e.
Proof.
  revert acc. induction raws as [|r raws IH]; intros acc H; cbn [parse_all] in H.
  - discriminate H.
  - destruct (parse_event r) as [o|e'] eqn:Hr.
    + change (Ok o ≫= ?f) with (f o) in H. cbv beta in H.
      apply IH in H as (r' & Hin & Hr'). exists r'. split; [right; exact Hin|exact Hr'].
    + change (@Raise (list event) e' = Raise e) in H. inversion H; subst e'.
      exists r. split; [left|exact Hr].
Qed.

Lemma parse_all_raise_intro (raws : list string) (acc : list event) (r : string)
    (e : exn) :
  r ∈ raws -> parse_event r = Raise e ->
  parse_all raws acc = Raise OverflowError.
Proof.
  intros Hin Hr. revert acc. induction raws as [|x raws IH]; intros acc.
  - apply elem_of_nil in Hin. contradiction.
  - cbn [parse_all]. destruct (parse_event x) as [o|e'] eqn:Hx.
    + apply elem_of_cons in Hin as [->|Hin]; [rewrite Hr in Hx; discriminate Hx|].
      change (Ok o ≫= ?f) with (f o). cbv beta. apply IH, Hin.
    + rewrite (parse_event_raise x e' Hx). reflexivity.
Qed.

(** X26: one raw event on which [parse_event] raises ends the run.  The
    exception is the [OverflowError] of a day number that does not fit a C
    [int]; [main] does not catch it, and it leaves [main] right after the
    browser session and before any output: nothing has been printed on
    stdout, written or sent, also for the events that were parsed before
    it. *)
Theorem main_overflow_aborts (mw : main_world) (args : arguments)
    (config : toml_config) (r : string) (e : exn) :
  proceeds args config = true ->
  r ∈ raw_events_of mw args config ->
  parse_event r = Raise e ->
  e = OverflowError
  /\ (main mw args config).1 = Raised OverflowError
  /\ sinks (main mw args config).2 = []
  /\ List.filter is_stdout (main mw args config).2 = []
  /\ last (main mw args config).2 = Some (fetch_call args config).
Proof.
  intros Hp Hin Hr. split; [exact (parse_event_raise r e Hr)|].
  pose proof (parse_all_raise_intro _ [] r e Hin Hr) as Hparse.
  rewrite main_sinks, Hp.
  destruct (main_goes_on mw args config Hp) as (before & Hb & Hmain).
  rewrite Hmain. clear Hmain.
  destruct (raw_events_of mw args config) as [|x raws];
    [apply elem_of_nil in Hin; contradiction|].
  rewrite Hparse. cbn [fst snd].
  split; [reflexivity|]. split; [reflexivity|].
  split; [rewrite List.filter_app, (stdout_filter_stderr before Hb); reflexivity|].
  apply last_snoc.
Qed.

Lemma main_overflow_aborts_witness :
  (main (demo_world [scenario1; huge_day]) (demo_args true false None) demo_config).1
  = Raised OverflowError
  /\ sinks (main (demo_world [scenario1; huge_day]) (demo_args true false None)
                 demo_config).2 = [].
Proof.
  assert (parse_event huge_day = Raise OverflowError) as H by (vm_compute; reflexivity).
  destruct (main_overflow_aborts (demo_world [scenario1; huge_day])
              (demo_args true false None) demo_config huge_day OverflowError)
    as (_ & H1 & H2 & _); [reflexivity|right; left|exact H|].
  split; [exact H1|exact H2].
Defined.

(** ** The extraction scripts *)

Lemma js_trim_start_ink (s : string) :
  Str.truthy (js_trim_start s) = has_ink s /\ has_ink (js_trim_start s) = has_ink s.
Proof.
  induction s as [|c s [IH1 IH2]]; [split; reflexivity|].
  cbn [js_trim_start has_ink]. destruct (js_space c) eqn:E; cbn [negb orb].
  - split; assumption.
  - cbn [has_ink]. rewrite E. split; reflexivity.
Qed.

Lemma js_trim_end_ink (s : string) : Str.truthy (js_trim_end s) = has_ink s.
Proof.
  induction s as [|c s IH]; [reflexivity|].
  cbn [js_trim_end has_ink]. destruct (js_trim_end s) as [|x r].
  - rewrite <- IH, orb_false_r. destruct (js_space c); reflexivity.
  - rewrite <- IH, orb_true_r. reflexivity.
Qed.

Lemma js_trim_ink (s : string) : Str.truthy (js_trim s) = has_ink s.
Proof.
  unfold js_trim. rewrite js_trim_end_ink. apply js_trim_start_ink.
Qed.

Lemma split_ink (s : string) : existsb has_ink (Str.split newline s) = has_ink s.
Proof.
  induction s as [|c s IH]; [reflexivity|].
  cbn [Str.split has_ink]. destruct (Ascii.eqb c newline) eqn:E.
  - apply Ascii.eqb_eq in E. subst c. cbn [existsb has_ink]. rewrite IH. reflexivity.
  - destruct (Str.split newline s) as [|h t].
    + cbn [existsb has_ink] in *. rewrite <- IH, !orb_false_r. reflexivity.
    + cbn [existsb has_ink] in *. rewrite <- IH, orb_assoc. reflexivity.
Qed.

(** The test on [lines] in the first script never fails: a text with a
    character that [trim] keeps has a line with one. *)
Lemma js_lines_nonempty (text : string) :
  Str.truthy (js_trim text) = true -> (0 <? length (js_lines text))%nat = true.
Proof.
  rewrite js_trim_ink, <- split_ink. unfold js_lines.
  induction (Str.split newline text) as [|l ls IH]; [discriminate|].
  cbn [existsb map List.filter]. rewrite js_trim_ink.
  destruct (has_ink l); [reflexivity|]. exact IH.
Qed.

Lemma element_item_spec (text : string) :
  element_item text
  = if Str.truthy (js_trim text) && (2 <? Str.len text) && (Str.len text <? 500)
    then [ItemDict (Some (js_trim text))] else [].
Proof.
  unfold element_item. destruct (Str.truthy (js_trim text)) eqn:E; [|reflexivity].
  rewrite (js_lines_nonempty text E). reflexivity.
Qed.

Lemma fragments_app (a b : list item) : fragments (a ++ b) = fragments a ++ fragments b.
Proof. apply omap_app. Qed.

Lemma fragments_elements (texts : list string) (x : string) :
  x ∈ fragments (concat (map element_item texts))
  <-> exists text,
        text ∈ texts /\ x = js_trim text /\ Str.truthy x = true
        /\ 2 < Str.len text < 500.
Proof.
  induction texts as [|t texts IH]; cbn [map concat].
  - change (fragments []) with (@nil string). rewrite elem_of_nil.
    split; [contradiction|]. intros (text & H & _). apply elem_of_nil in H. exact H.
  - rewrite fragments_app, elem_of_app, IH, element_item_spec. split.
    + intros [H|(text & Hin & H)].
      * destruct (_ && _ && _) eqn:E; [|apply elem_of_nil in H; contradiction].
        apply list_elem_of_singleton in H. subst x.
        apply andb_true_iff in E as [E E3]. apply andb_true_iff in E as [E1 E2].
        exists t. split; [left|]. split; [reflexivity|]. split; [exact E1|]. lia.
      * exists text. split; [right; exact Hin|exact H].
    + intros (text & Hin & -> & Ht & Hl). apply elem_of_cons in Hin as [->|Hin].
      * left. rewrite Ht. cbn [andb].
        replace (2 <? Str.len t) with true by (symmetry; apply Z.ltb_lt; lia).
        replace (Str.len t <? 500) with true by (symmetry; apply Z.ltb_lt; lia).
        left.
      * right. exists text. auto.
Qed.

Lemma fragments_labels (labels : list string) (x : string) :
  x ∈ fragments (concat (map label_item labels))
  <-> x ∈ labels /\ label_kept x = true.
Proof.
  induction labels as [|l labels IH]; cbn [map concat].
  - change (fragments []) with (@nil string). rewrite !elem_of_nil. tauto.
  - rewrite fragments_app, elem_of_app, IH, elem_of_cons. unfold label_item at 1.
    split.
    + intros [H|[H1 H2]]; [|auto].
      destruct (label_kept l) eqn:E; [|apply elem_of_nil in H; contradiction].
      apply list_elem_of_singleton in H. subst x. auto.
    + intros [[->|H1] H2]; [|auto]. left. rewrite H2. left.
Qed.

Lemma collect_events_elem (items : list item) (x : string) :
  x ∈ collect_events items <-> x ∈ fragments items /\ 5 < Str.len x.
Proof.
  destruct (collect_inv_foldl [] items _ collect_inv_init) as [_ _ _ Hall _].
  apply Hall.
Qed.

Lemma long_truthy (x : string) : 5 < Str.len x -> Str.truthy x = true.
Proof. destruct x; [vm_compute; discriminate|reflexivity]. Qed.

(** X27: the raw events [get_calendar_events] returns for a page.  The
    second script never contributes: its result is a dict, whose keys the
    loop skips.  A text is returned exactly when it has more than 5
    characters and is the trimmed text of a matched element whose untrimmed
    text has 3 to 499 characters, or an [aria-label] that contains a colon
    and one of [AM], [PM], [meeting], [event]; so a label without a colon
    (an all-day event's, say) is returned only if an element text equals it.
    No text is returned twice. *)
Theorem scraped_spec (texts labels : list string) (fb : fallback_result) :
  scraped texts labels fb = collect_events (first_script texts labels)
  /\ NoDup (scraped texts labels fb)
  /\ forall raw,
       raw ∈ scraped texts labels fb
       <-> 5 < Str.len raw
           /\ ((exists text,
                   text ∈ texts /\ raw = js_trim text /\ 2 < Str.len text < 500)
               \/ (raw ∈ labels /\ Str.contains ":" raw = true
                   /\ (Str.contains "AM" raw || Str.contains "PM" raw
                       || Str.contains "meeting" raw || Str.contains "event" raw)
                      = true)).
Proof.
  assert (scraped texts labels fb = collect_events (first_script texts labels)) as Heq.
  { unfold scraped. cbv zeta.
    destruct (first_script texts labels); [destruct fb|]; reflexivity. }
  split; [exact Heq|]. rewrite Heq. split.
  { destruct (collect_inv_foldl [] (first_script texts labels) _ collect_inv_init)
      as [_ Hnd _ _ _]. exact Hnd. }
  intros raw. rewrite collect_events_elem. unfold first_script.
  rewrite fragments_app, elem_of_app, fragments_elements, fragments_labels.
  unfold label_kept. split.
  - intros [[(text & Hin & Hraw & _ & Hlen)|[Hin Hk]] Hlong]; (split; [exact Hlong|]).
    + left. exists text. auto.
    + right. apply andb_true_iff in Hk as [Hk H3]. apply andb_true_iff in Hk as [_ H2].
      auto.
  - intros [Hlong [(text & Hin & Hraw & Hlen)|(Hin & H2 & H3)]]; (split; [|exact Hlong]).
    + left. exists text. split; [exact Hin|]. split; [exact Hraw|].
      split; [apply long_truthy, Hlong|exact Hlen].
    + right. split; [exact Hin|]. rewrite (long_truthy raw Hlong), H2, H3. reflexivity.
Qed.


Example scraped_example :
  scraped ["  Lunch with Ana  "; "x"] [scenario1; scenario2; "Team Sync"]
          (Embedded "calendarEvents")
  = ["Lunch with Ana"; scenario1].
Proof. vm_compute. reflexivity. Qed.

(** ** Titles and their escaping *)

Lemma replace_absent (x : ascii) (new s : string) :
  count_char x s = O -> Str.replace (String x "") new s = s.
Proof.
  induction s as [|c s IH]; intros H; [reflexivity|].
  cbn [count_char] in H. rewrite replace_char, Ascii.eqb_sym.
  destruct (Ascii.eqb c x); [discriminate H|]. rewrite IH by exact H. reflexivity.
Qed.

Lemma count_comma_escape_each (t : string) :
  count_char "," (escape_each t) = count_char "," t.
Proof.
  induction t as [|c t IH]; [reflexivity|].
  cbn [escape_each]. destruct (needs_escape c); cbn [count_char Ascii.eqb Bool.eqb];
    rewrite IH; reflexivity.
Qed.

Lemma count_comma_backslashes (t : string) :
  count_char "," (Str.replace "\" "\\" t) = count_char "," t.
Proof.
  induction t as [|c t IH]; [reflexivity|].
  rewrite replace_char. destruct (Ascii.eqb "\" c) eqn:E.
  - apply Ascii.eqb_eq in E. subst c.
    change ("\\" +:+ ?r) with (String "\" (String "\" r)).
    cbn [count_char Ascii.eqb Bool.eqb]. exact IH.
  - cbn [count_char]. rewrite IH. reflexivity.
Qed.

(** X28: the title of an accepted event contains no comma and has no
    whitespace at either end.  In the iCal output the comma replacement
    therefore never applies to it: its [SUMMARY] line is the title with the
    backslashes and semicolons escaped, and has no comma in it. *)
Theorem parse_event_title_no_comma (raw0 : string) (e : event) :
  parse_event raw0 = Ok (Some e) ->
  count_char "," (title e) = O
  /\ Str.strip (title e) = title e
  /\ summary_line e
     = "SUMMARY:" +:+ Str.replace ";" "\;" (Str.replace "\" "\\" (title e))
  /\ count_char "," (summary_line e) = O.
Proof.
  intros E. apply parse_event_ok in E as (_ & _ & _ & E).
  destruct E as (y & m & d & sH & sM & eH & eM & -> & _). cbn [title].
  rewrite strip_first_segment.
  set (h := hd "" (Str.split "," raw0)).
  assert (count_char "," (Str.strip h) = O) as Hc.
  { assert (count_char "," h = O) as Hh.
    { pose proof (split_no_sep "," raw0) as Hall. subst h.
      destruct (Str.split "," raw0) as [|x l]; [reflexivity|].
      apply Forall_cons in Hall as [Hx _]. exact Hx. }
    unfold Str.strip.
    pose proof (count_char_rstrip "," (Str.lstrip h)).
    pose proof (count_char_lstrip "," h). lia. }
  split; [exact Hc|]. split; [apply strip_idem|].
  unfold summary_line. cbn [title]. split.
  - unfold escape_title.
    rewrite (replace_absent "," "\," (Str.replace "\" "\\" (Str.strip h)))
      by (rewrite count_comma_backslashes; exact Hc).
    reflexivity.
  - rewrite count_char_app, escape_title_each, count_comma_escape_each, Hc. reflexivity.
Qed.

Lemma parse_event_title_no_comma_witness :
  count_char "," "Team Sync" = O
  /\ "SUMMARY:Team Sync"
     = "SUMMARY:" +:+ Str.replace ";" "\;" (Str.replace "\" "\\" "Team Sync").
Proof.
  destruct (parse_event_title_no_comma scenario1
              (mk_event "Team Sync" (mk_datetime 2026 2 3 10 0 0 0)
                        (mk_datetime 2026 2 3 11 0 0 0) false scenario1))
    as (H1 & _ & H3 & _).
  - vm_compute. reflexivity.
  - split; [exact H1|]. cbn [title] in H3. rewrite <- H3. vm_compute. reflexivity.
Defined.


(** ** Running the matcher forward *)

Lemma rep_cons {R : Type} (cls : ascii -> bool) (lo : nat) (hi : option nat)
    (c : ascii) (s : string) (k : string -> option R) :
  rep cls lo hi (String c s) k
  = if can_take hi && cls c then
      match rep cls (Nat.pred lo) (dec_hi hi) s k with
      | Some r => Some r
      | None => match lo with O => k (String c s) | S _ => None end
      end
    else match lo with O => k (String c s) | S _ => None end.
Proof. reflexivity. Qed.

Lemma rep_blocked {R : Type} (cls : ascii -> bool) (lo : nat) (hi : option nat)
    (s : string) (k : string -> option R) :
  blocked cls s = true ->
  rep cls lo hi s k = match lo with O => k s | S _ => None end.
Proof.
  destruct s as [|c s]; [reflexivity|]. cbn [blocked]. intros H.
  apply negb_true_iff in H. rewrite rep_cons, H, andb_false_r. reflexivity.
Qed.

(** A greedy repetition that takes all of [t] and goes on with success. *)
Lemma rep_greedy {R : Type} (cls : ascii -> bool) (t : string) :
  forall (lo : nat) (hi : option nat) (s' : string) (k : string -> option R) (r : R),
    all_in cls t = true -> (lo <= String.length t)%nat ->
    match hi with Some h => (String.length t <= h)%nat | None => True end ->
    blocked cls s' = true \/ hi = Some (String.length t) ->
    k s' = Some r ->
    rep cls lo hi (t +:+ s') k = Some r.
Proof.
  induction t as [|c t IH]; intros lo hi s' k r Hall Hlo Hhi Hb Hk.
  - cbn [String.length] in *. assert (lo = O) as -> by lia.
    change ("" +:+ s') with s'. destruct Hb as [Hb| ->].
    + rewrite rep_blocked by exact Hb. exact Hk.
    + destruct s' as [|c s']; [exact Hk|]. rewrite rep_cons. exact Hk.
  - cbn [all_in] in Hall. apply andb_true_iff in Hall as [Hc Hall].
    rewrite append_cons, rep_cons, Hc, andb_true_r.
    assert (can_take hi = true) as ->.
    { destruct hi as [[|h]|]; try reflexivity. cbn [String.length] in Hhi. lia. }
    rewrite (IH (Nat.pred lo) (dec_hi hi) s' k r); try assumption.
    + reflexivity.
    + cbn [String.length] in Hlo. lia.
    + destruct hi as [h|]; [|exact I]. cbn [dec_hi String.length] in *. lia.
    + destruct Hb as [Hb| ->]; [left; exact Hb|right; reflexivity].
Qed.

Lemma rep_greedy_end {R : Type} (cls : ascii -> bool) (t : string)
    (lo : nat) (hi : option nat) (k : string -> option R) (r : R) :
  all_in cls t = true -> (lo <= String.length t)%nat ->
  match hi with Some h => (String.length t <= h)%nat | None => True end ->
  k "" = Some r ->
  rep cls lo hi t k = Some r.
Proof.
  intros. rewrite <- (append_nil_r t). apply rep_greedy; auto.
Qed.

(** [\w+day] on a word that ends in [day]: the repetition takes the
    whole word and gives back three characters. *)
Lemma rep_word_day {R : Type} (pre : string) :
  forall (lo : nat) (s' : string) (k : string -> option R) (r : R),
    all_in Str.is_word pre = true -> (lo <= String.length pre)%nat ->
    blocked Str.is_word s' = true ->
    k s' = None -> k ("y" +:+ s') = None -> k ("ay" +:+ s') = None ->
    k ("day" +:+ s') = Some r ->
    rep Str.is_word lo None (pre +:+ "day" +:+ s') k = Some r.
Proof.
  induction pre as [|c pre IH]; intros lo s' k r Hall Hlo Hb H0 H1 H2 H3.
  - cbn [String.length] in Hlo. assert (lo = O) as -> by lia.
    change ("" +:+ "day" +:+ s') with (String "d" (String "a" (String "y" s'))).
    change ("y" +:+ s') with (String "y" s') in H1.
    change ("ay" +:+ s') with (String "a" (String "y" s')) in H2.
    change ("day" +:+ s') with (String "d" (String "a" (String "y" s'))) in H3.
    rewrite rep_cons. change (can_take None && Str.is_word "d") with true. cbv iota.
    cbn [Nat.pred dec_hi].
    rewrite rep_cons. change (can_take None && Str.is_word "a") with true. cbv iota.
    cbn [Nat.pred dec_hi].
    rewrite rep_cons. change (can_take None && Str.is_word "y") with true. cbv iota.
    cbn [Nat.pred dec_hi].
    rewrite rep_blocked by exact Hb. rewrite H0, H1, H2. exact H3.
  - cbn [all_in] in Hall. apply andb_true_iff in Hall as [Hc Hall].
    rewrite append_cons, rep_cons, Hc. cbn [can_take andb dec_hi].
    rewrite (IH (Nat.pred lo) s' k r); try assumption; [reflexivity|].
    cbn [String.length] in Hlo. lia.
Qed.

Lemma search_here (r : regex) (s : string) (g : groups) :
  rmatch r s = Some g -> search r s = Some g.
Proof. intros H. destruct s; cbn [search]; rewrite H; reflexivity. Qed.

Lemma drop_prefix_append (p s : string) : drop_prefix p (p +:+ s) = Some s.
Proof.
  induction p as [|c p IH]; [reflexivity|].
  rewrite append_cons. cbn [drop_prefix]. rewrite Ascii.eqb_refl. exact IH.
Qed.

(** Characters of one class are outside another. *)
Lemma word_not_space (c : ascii) : Str.is_word c = true -> Str.is_space c = false.
Proof. destruct c as [[] [] [] [] [] [] [] []]; intros H; try discriminate H; reflexivity. Qed.

Lemma digit_is_word (c : ascii) : Str.is_digit c = true -> Str.is_word c = true.
Proof. destruct c as [[] [] [] [] [] [] [] []]; intros H; try discriminate H; reflexivity. Qed.

Lemma word_not_comma (c : ascii) : Str.is_word c = true -> Ascii.eqb c "," = false.
Proof. destruct c as [[] [] [] [] [] [] [] []]; intros H; try discriminate H; reflexivity. Qed.

Lemma all_in_impl (p q : ascii -> bool) (s : string) :
  (forall c, p c = true -> q c = true) -> all_in p s = true -> all_in q s = true.
Proof.
  intros Hpq. induction s as [|c s IH]; [reflexivity|]. cbn [all_in]. intros H.
  apply andb_true_iff in H as [Hc Hs]. rewrite (Hpq c Hc), (IH Hs). reflexivity.
Qed.

Lemma all_in_digits (s : string) : all_in Str.is_digit s = all_digits s.
Proof. induction s as [|c s IH]; [reflexivity|]. cbn [all_in all_digits]. rewrite IH. reflexivity. Qed.

Lemma word_no_comma (s : string) : all_in Str.is_word s = true -> count_char "," s = O.
Proof.
  induction s as [|c s IH]; [reflexivity|]. cbn [all_in count_char]. intros H.
  apply andb_true_iff in H as [Hc Hs]. rewrite (word_not_comma c Hc), (IH Hs). reflexivity.
Qed.

Lemma blocked_head (cls other : ascii -> bool) (t s : string) :
  (forall c, other c = true -> cls c = false) ->
  all_in other t = true -> t <> "" -> blocked cls (t +:+ s) = true.
Proof.
  intros Hd Hall Hne. destruct t as [|c t]; [contradiction|].
  cbn [all_in] in Hall. apply andb_true_iff in Hall as [Hc _].
  rewrite append_cons. cbn [blocked]. rewrite (Hd c Hc). reflexivity.
Qed.

(** ** Splitting and trimming labels *)

Lemma split_app (sep : ascii) (a b : string) :
  count_char sep a = O ->
  Str.split sep (a +:+ String sep b) = a :: Str.split sep b.
Proof.
  induction a as [|c a IH]; intros H.
  - change ("" +:+ String sep b) with (String sep b). cbn [Str.split].
    rewrite Ascii.eqb_refl. reflexivity.
  - cbn [count_char] in H. destruct (Ascii.eqb c sep) eqn:E; [discriminate H|].
    rewrite append_cons. cbn [Str.split]. rewrite E, IH by exact H. reflexivity.
Qed.

Lemma split_whole (sep : ascii) (a : string) :
  count_char sep a = O -> Str.split sep a = [a].
Proof.
  induction a as [|c a IH]; intros H; [reflexivity|].
  cbn [count_char] in H. destruct (Ascii.eqb c sep) eqn:E; [discriminate H|].
  cbn [Str.split]. rewrite E, IH by exact H. reflexivity.
Qed.

Lemma lstrip_ink (s : string) : blocked Str.is_space s = true -> Str.lstrip s = s.
Proof.
  destruct s as [|c s]; [reflexivity|]. cbn [blocked Str.lstrip]. intros H.
  apply negb_true_iff in H. rewrite H. reflexivity.
Qed.

Lemma rstrip_ink (s : string) : all_in not_space s = true -> Str.rstrip s = s.
Proof.
  induction s as [|c s IH]; [reflexivity|]. cbn [all_in]. intros H.
  apply andb_true_iff in H as [Hc Hs]. cbn [Str.rstrip]. rewrite (IH Hs).
  apply negb_true_iff in Hc. destruct s; [rewrite Hc|]; reflexivity.
Qed.

Lemma rstrip_app (a b : string) :
  Str.rstrip b <> "" -> Str.rstrip (a +:+ b) = a +:+ Str.rstrip b.
Proof.
  intros Hb. induction a as [|c a IH]; [reflexivity|].
  rewrite !append_cons. cbn [Str.rstrip]. rewrite IH.
  destruct (a +:+ Str.rstrip b) eqn:E; [|reflexivity].
  destruct a; [|discriminate E]. contradiction.
Qed.


(** ** Labels in the expected format *)

Lemma consumed_all (t : string) : consumed t "" = t.
Proof. rewrite <- (append_nil_r t) at 1. apply consumed_append. Qed.

Lemma blocked_word (cls other : ascii -> bool) (t : string) :
  (forall c, other c = true -> cls c = false) ->
  all_in other t = true -> t <> "" -> blocked cls t = true.
Proof.
  intros Hd Hall Hne. rewrite <- (append_nil_r t). eapply blocked_head; eassumption.
Qed.

Lemma digit_not_space (c : ascii) : Str.is_digit c = true -> Str.is_space c = false.
Proof. intros H. apply word_not_space, digit_is_word, H. Qed.

Lemma length_pos (s : string) : s <> "" -> (1 <= String.length s)%nat.
Proof. destruct s; [contradiction|cbn [String.length]; lia]. Qed.

Lemma date_re_date_words (pre M dd yyyy : string) :
  all_in Str.is_word pre = true -> pre <> "" ->
  all_in Str.is_word M = true -> M <> "" ->
  all_digits dd = true -> dd <> "" ->
  all_digits yyyy = true -> String.length yyyy = 4%nat ->
  search date_re (date_words (pre +:+ "day") M dd yyyy)
  = Some [(4%nat, yyyy); (3%nat, dd); (2%nat, M); (1%nat, pre +:+ "day")].
Proof.
  intros Hpre Hpre' HM HM' Hdd Hdd' Hy Hy'.
  rewrite <- all_in_digits in Hdd, Hy.
  apply search_here. unfold rmatch, date_re, date_words.
  rewrite !append_assoc.
  cbn [run plus opt_char star].
  change (", " +:+ M +:+ " " +:+ dd +:+ ", " +:+ yyyy)
    with ("," +:+ " " +:+ M +:+ " " +:+ dd +:+ "," +:+ " " +:+ yyyy).
  apply rep_word_day;
    [exact Hpre|apply length_pos, Hpre'|reflexivity|reflexivity|reflexivity
    |reflexivity|].
  rewrite drop_prefix_append.
  apply rep_greedy; [reflexivity|cbn; lia|cbn; lia|right; reflexivity|].
  apply rep_greedy;
    [reflexivity|cbn; lia|exact I
    |left; apply (blocked_head _ Str.is_word); [apply word_not_space|exact HM|exact HM']|].
  apply rep_greedy; [exact HM|apply length_pos, HM'|exact I|left; reflexivity|].
  apply rep_greedy;
    [reflexivity|cbn; lia|exact I
    |left; apply (blocked_head _ Str.is_digit); [apply digit_not_space|exact Hdd|exact Hdd']|].
  apply rep_greedy; [exact Hdd|apply length_pos, Hdd'|exact I|left; reflexivity|].
  apply rep_greedy; [reflexivity|cbn; lia|cbn; lia|right; reflexivity|].
  apply rep_greedy;
    [reflexivity|cbn; lia|exact I
    |left; apply (blocked_word _ Str.is_digit);
     [apply digit_not_space|exact Hy|intros ->; discriminate Hy']|].
  apply rep_greedy_end; [exact Hy|lia|lia|].
  rewrite consumed_all, !consumed_append, <- (append_assoc pre "day"), consumed_append.
  reflexivity.
Qed.

Lemma alt_am_pm {R : Type} (ap X : string) (K : string -> option R)
    (r : R) :
  ap = "AM" \/ ap = "PM" ->
  K X = Some r ->
  match
    match drop_prefix "AM" (ap +:+ X) with
    | Some s' => K s'
    | None => None
    end
  with
  | Some x => Some x
  | None =>
      match drop_prefix "PM" (ap +:+ X) with
      | Some s' => K s'
      | None => None
      end
  end = Some r.
Proof.
  intros [-> | ->] H.
  - rewrite drop_prefix_append, H. reflexivity.
  - change (drop_prefix "AM" ("PM" +:+ X)) with (@None string).
    rewrite drop_prefix_append. exact H.
Qed.

Lemma time_re_time_words (h1 m1 ap1 h2 m2 ap2 : string) :
  all_digits h1 = true -> (1 <= String.length h1 <= 2)%nat ->
  all_digits m1 = true -> String.length m1 = 2%nat ->
  ap1 = "AM" \/ ap1 = "PM" ->
  all_digits h2 = true -> (1 <= String.length h2 <= 2)%nat ->
  all_digits m2 = true -> String.length m2 = 2%nat ->
  ap2 = "AM" \/ ap2 = "PM" ->
  rmatch time_re (time_words h1 m1 ap1 h2 m2 ap2)
  = Some [(6%nat, ap2); (5%nat, m2); (4%nat, h2); (3%nat, ap1); (2%nat, m1);
          (1%nat, h1)].
Proof.
  intros Hh1 Lh1 Hm1 Lm1 Hap1 Hh2 Lh2 Hm2 Lm2 Hap2.
  rewrite <- all_in_digits in Hh1, Hm1, Hh2, Hm2.
  unfold rmatch, time_re, time_words.
  replace (h1 +:+ ":" +:+ m1 +:+ " " +:+ ap1 +:+ " to " +:+ h2 +:+ ":" +:+ m2
           +:+ " " +:+ ap2)
    with (h1 +:+ ":" +:+ m1 +:+ " " +:+ ap1 +:+ " " +:+ "to" +:+ " " +:+ h2 +:+ ":"
          +:+ m2 +:+ " " +:+ ap2 +:+ "")
    by (rewrite (append_nil_r ap2); reflexivity).
  cbn [run plus opt_char star].
  apply rep_greedy; [exact Hh1|lia|lia|left; reflexivity|].
  rewrite drop_prefix_append.
  apply rep_greedy; [exact Hm1|lia|lia|left; reflexivity|].
  apply rep_greedy;
    [reflexivity|cbn; lia|exact I|left; destruct Hap1 as [-> | ->]; reflexivity|].
  apply alt_am_pm; [exact Hap1|].
  apply rep_greedy; [reflexivity|cbn; lia|exact I|left; reflexivity|].
  rewrite drop_prefix_append.
  apply rep_greedy;
    [reflexivity|cbn; lia|exact I
    |left; apply (blocked_head _ Str.is_digit);
     [apply digit_not_space|exact Hh2|intros ->; cbn in Lh2; lia]|].
  apply rep_greedy; [exact Hh2|lia|lia|left; reflexivity|].
  rewrite drop_prefix_append.
  apply rep_greedy; [exact Hm2|lia|lia|left; reflexivity|].
  apply rep_greedy;
    [reflexivity|cbn; lia|exact I|left; destruct Hap2 as [-> | ->]; reflexivity|].
  apply alt_am_pm; [exact Hap2|].
  rewrite !consumed_append. reflexivity.
Qed.

Lemma bind_value {A B : Type} (a : A) (f : A -> result B) : (Ok a ≫= f) = f a.
Proof. reflexivity. Qed.

Lemma datetime_new_valid (y m d H M : Z) :
  1 <= y <= 9999 -> 1 <= m <= 12 -> 1 <= d <= days_in_month y m ->
  0 <= H <= 23 -> 0 <= M <= 59 ->
  datetime_new y m d H M = Ok (mk_datetime y m d H M 0 0).
Proof.
  intros Hy Hm Hd HH HM. pose proof (days_in_month_le y m).
  unfold datetime_new.
  rewrite !fits_small by lia. cbn [andb negb].
  replace (1 <=? y) with true by (symmetry; apply Z.leb_le; lia).
  replace (y <=? 9999) with true by (symmetry; apply Z.leb_le; lia).
  replace (1 <=? m) with true by (symmetry; apply Z.leb_le; lia).
  replace (m <=? 12) with true by (symmetry; apply Z.leb_le; lia).
  replace (1 <=? d) with true by (symmetry; apply Z.leb_le; lia).
  replace (d <=? days_in_month y m) with true by (symmetry; apply Z.leb_le; lia).
  replace (0 <=? H) with true by (symmetry; apply Z.leb_le; lia).
  replace (H <=? 23) with true by (symmetry; apply Z.leb_le; lia).
  replace (0 <=? M) with true by (symmetry; apply Z.leb_le; lia).
  replace (M <=? 59) with true by (symmetry; apply Z.leb_le; lia).
  reflexivity.
Qed.

Lemma int_year (yyyy : string) (y : Z) :
  all_digits yyyy = true -> String.length yyyy = 4%nat -> int_ yyyy = Ok y ->
  0 <= y <= 9999.
Proof.
  intros Hd Hl Hy. rewrite <- all_in_digits in Hd.
  destruct (int_digits_text yyyy 4 Hd) as (v & Hv & Hb); [lia|lia|].
  rewrite Hy in Hv. inversion Hv; subst v. change (10 ^ Z.of_nat 4) with 10000 in Hb. lia.
Qed.

Lemma int_nonempty (s : string) (v : Z) : int_ s = Ok v -> s <> "".
Proof. intros H ->. vm_compute in H. discriminate H. Qed.

Lemma strip_lead (x : string) :
  blocked Str.is_space x = true -> Str.rstrip x = x -> Str.strip (" " +:+ x) = x.
Proof.
  intros Hb Hr. unfold Str.strip. change (" " +:+ x) with (String " " x).
  cbn [Str.lstrip]. change (Str.is_space " ") with true. cbv iota.
  rewrite lstrip_ink by exact Hb. exact Hr.
Qed.

Lemma digits_no_comma (s : string) : all_digits s = true -> count_char "," s = O.
Proof.
  intros H. apply word_no_comma. rewrite <- all_in_digits in H.
  eapply all_in_impl; [apply digit_is_word|exact H].
Qed.

Lemma rstrip_digits (s : string) : all_digits s = true -> Str.rstrip s = s.
Proof.
  intros H. apply rstrip_ink. rewrite <- all_in_digits in H.
  eapply all_in_impl; [|exact H]. intros c Hc. unfold not_space.
  rewrite (digit_not_space c Hc). reflexivity.
Qed.

(** The parts of the date of a label. *)
Lemma segments_date_words (pre M dd yyyy : string) :
  all_in Str.is_word pre = true -> pre <> "" ->
  all_in Str.is_word M = true -> M <> "" ->
  all_digits dd = true -> dd <> "" ->
  all_digits yyyy = true -> yyyy <> "" ->
  Str.strip <$> Str.split "," (" " +:+ date_words (pre +:+ "day") M dd yyyy)
  = [pre +:+ "day"; M +:+ " " +:+ dd; yyyy].
Proof.
  intros Hpre Hpre' HM HM' Hdd Hdd' Hy Hy'.
  assert (all_in Str.is_digit dd = true) as Hdd2 by (rewrite all_in_digits; exact Hdd).
  assert (all_in Str.is_digit yyyy = true) as Hy2 by (rewrite all_in_digits; exact Hy).
  replace (" " +:+ date_words (pre +:+ "day") M dd yyyy)
    with ((" " +:+ pre +:+ "day") +:+ String ","
          ((" " +:+ M +:+ " " +:+ dd) +:+ String "," (" " +:+ yyyy)))
    by (unfold date_words; rewrite !append_assoc; reflexivity).
  rewrite split_app, split_app, split_whole.
  - cbn [fmap list_fmap]. f_equal; [|f_equal; [|f_equal]].
    + apply strip_lead.
      * apply (blocked_head _ Str.is_word); [apply word_not_space|exact Hpre|exact Hpre'].
      * apply rstrip_app. discriminate.
    + apply strip_lead.
      * apply (blocked_head _ Str.is_word); [apply word_not_space|exact HM|exact HM'].
      * rewrite <- (append_assoc M " " dd). rewrite rstrip_app; rewrite rstrip_digits by exact Hdd;
          [reflexivity|exact Hdd'].
    + apply strip_lead.
      * apply (blocked_word _ Str.is_digit); [apply digit_not_space|exact Hy2|exact Hy'].
      * apply rstrip_digits, Hy.
  - change (" " +:+ yyyy) with (String " " yyyy). cbn [count_char Ascii.eqb Bool.eqb].
    apply digits_no_comma, Hy.
  - rewrite !count_char_app, (word_no_comma M HM), (digits_no_comma dd Hdd). reflexivity.
  - rewrite !count_char_app, (word_no_comma pre Hpre). reflexivity.
Qed.

Lemma scan_all_day_step (parts : list string) (i : nat) (p : string)
    (rest : list string) (st : scan_state) :
  is_time_marker p = false -> is_all_day_marker p = true ->
  scan parts i (p :: rest) st
  = scan parts (S i) rest (mk_scan (time_part st) (date_part st) true).
Proof. intros H1 H2. cbn [scan]. rewrite H1, H2. reflexivity. Qed.

Lemma scan_time_step (parts : list string) (i : nat) (p : string)
    (rest : list string) (st : scan_state) :
  is_time_marker p = true ->
  scan parts i (p :: rest) st
  = scan parts (S i) rest (mk_scan (Some p) (date_part st) (all_day_flag st)).
Proof. intros H1. cbn [scan]. rewrite H1. reflexivity. Qed.

Lemma scan_date_step (parts : list string) (i : nat) (p : string)
    (rest : list string) (st : scan_state) :
  is_time_marker p = false -> is_all_day_marker p = false ->
  is_weekday_marker p = true ->
  scan parts i (p :: rest) st
  = mk_scan (time_part st) (Some (build_date_part parts i p)) (all_day_flag st).
Proof. intros H1 H2 H3. cbn [scan]. rewrite H1, H2, H3. reflexivity. Qed.

(** What the seven weekday names have in common. *)
Lemma weekdays_words (W : string) :
  W ∈ weekdays ->
  exists pre,
    W = pre +:+ "day" /\ all_in Str.is_word pre = true /\ pre <> ""
    /\ is_time_marker W = false /\ is_all_day_marker W = false
    /\ is_weekday_marker W = true.
Proof.
  unfold weekdays. intros H.
  repeat (apply elem_of_cons in H as [->|H];
          [first [ exists "Mon"; split_and!; first [reflexivity|discriminate]
                 | exists "Tues"; split_and!; first [reflexivity|discriminate]
                 | exists "Wednes"; split_and!; first [reflexivity|discriminate]
                 | exists "Thurs"; split_and!; first [reflexivity|discriminate]
                 | exists "Fri"; split_and!; first [reflexivity|discriminate]
                 | exists "Satur"; split_and!; first [reflexivity|discriminate]
                 | exists "Sun"; split_and!; first [reflexivity|discriminate] ]|]).
  apply elem_of_nil in H. contradiction.
Qed.

(** X29: every all-day label in the expected format is accepted: a
    plain title, [all day event], a weekday name, a month word, a day number
    and a four-digit year give the event with that title on that day, from
    00:00 to 23:59, provided the day exists in the month.  The month is
    that of [month_map], January for a word it does not know. *)
Theorem parse_event_all_day_label (t W M dd yyyy : string) (d y : Z) :
  plain_title t -> W ∈ weekdays ->
  all_in Str.is_word M = true -> M <> "" ->
  all_digits dd = true -> int_ dd = Ok d ->
  all_digits yyyy = true -> String.length yyyy = 4%nat -> int_ yyyy = Ok y ->
  1 <= y -> 1 <= d <= days_in_month y (default 1 (month_map !! M)) ->
  parse_event (all_day_label t W M dd yyyy)
  = Ok (Some (mk_event t
                (mk_datetime y (default 1 (month_map !! M)) d 0 0 0 0)
                (mk_datetime y (default 1 (month_map !! M)) d 23 59 0 0)
                true (all_day_label t W M dd yyyy))).
Proof.
  intros (Ht1 & Ht2 & Ht3 & Ht4) HW HM HM' Hdd Hd Hyy Hyl Hy Hy1 Hd1.
  apply weekdays_words in HW as (pre & -> & Hpre & Hpre' & Wt & Wa & Ww).
  pose proof (int_nonempty dd d Hd) as Hdd'.
  assert (yyyy <> "") as Hyy' by (intros ->; discriminate Hyl).
  pose proof (int_year yyyy y Hyy Hyl Hy) as Hy2.
  pose proof (month_default_range (Some M)) as Hm.
  change (Some M ≫= (month_map !!.)) with (month_map !! M) in Hm.
  unfold parse_event. cbv zeta.
  set (raw0 := all_day_label t (pre +:+ "day") M dd yyyy).
  assert (Str.strip <$> Str.split "," raw0
          = [t; "all day event"; pre +:+ "day"; M +:+ " " +:+ dd; yyyy]) as ->.
  { subst raw0.
    change (all_day_label t (pre +:+ "day") M dd yyyy)
      with (t +:+ String "," (" all day event" +:+ String ","
              (" " +:+ date_words (pre +:+ "day") M dd yyyy))).
    rewrite split_app by exact Ht1. rewrite split_app by reflexivity.
    cbn [fmap list_fmap]. fold (fmap (M := list) Str.strip).
    rewrite segments_date_words by assumption. rewrite Ht2. reflexivity. }
  set (parts := [t; "all day event"; pre +:+ "day"; M +:+ " " +:+ dd; yyyy]).
  destruct (decide (length parts < 3)%nat) as [Hlt|_]; [cbn in Hlt; lia|].
  change (default "" (parts !! 0%nat)) with t. rewrite Ht3, Ht4. cbn [orb].
  change (drop 1 parts) with ["all day event"; pre +:+ "day"; M +:+ " " +:+ dd; yyyy].
  rewrite scan_all_day_step by reflexivity.
  rewrite scan_date_step by assumption.
  cbn [date_part time_part all_day_flag scan_init opt_truthy].
  assert (build_date_part parts 2 (pre +:+ "day")
          = date_words (pre +:+ "day") M dd yyyy) as ->.
  { unfold build_date_part, date_words.
    destruct (decide (2 + 2 < length parts)%nat) as [_|Hn]; [|cbn in Hn; lia].
    change (default "" (parts !! (2 + 1)%nat)) with (M +:+ " " +:+ dd).
    change (default "" (parts !! (2 + 2)%nat)) with yyyy.
    rewrite !append_assoc. reflexivity. }
  assert (Str.truthy (date_words (pre +:+ "day") M dd yyyy) = true) as ->.
  { unfold date_words. destruct pre; [contradiction|reflexivity]. }
  cbn [negb].
  change (default "" (Some ?x)) with x.
  unfold parse_date_time. rewrite date_re_date_words by assumption.
  cbv zeta. cbn [group Nat.eqb int_group all_day_flag].
  rewrite Hd, bind_value, Hy, bind_value.
  change (Some M ≫= (month_map !!.)) with (month_map !! M).
  rewrite !datetime_new_valid by lia. rewrite !bind_value. reflexivity.
Qed.

Lemma startswith_append (p s : string) : Str.startswith p (p +:+ s) = true.
Proof.
  induction p as [|c p IH]; [reflexivity|].
  rewrite append_cons. cbn [Str.startswith]. rewrite Ascii.eqb_refl. exact IH.
Qed.

Lemma contains_here (sub s : string) : Str.contains sub (sub +:+ s) = true.
Proof.
  destruct (sub +:+ s) eqn:E; cbn [Str.contains]; rewrite <- E, startswith_append;
    reflexivity.
Qed.

Lemma contains_app_r (sub a b : string) :
  Str.contains sub b = true -> Str.contains sub (a +:+ b) = true.
Proof.
  intros H. induction a as [|c a IH]; [exact H|].
  rewrite append_cons. cbn [Str.contains]. rewrite IH. apply orb_true_r.
Qed.

Lemma time_words_marker (h1 m1 ap1 h2 m2 ap2 : string) :
  ap1 = "AM" \/ ap1 = "PM" ->
  is_time_marker (time_words h1 m1 ap1 h2 m2 ap2) = true.
Proof.
  intros Hap. unfold is_time_marker, time_words. apply andb_true_iff. split.
  - do 5 apply contains_app_r. apply contains_here.
  - apply orb_true_iff. destruct Hap as [-> | ->]; [left|right];
      do 4 apply contains_app_r; apply contains_here.
Qed.

Lemma segments_time_words (h1 m1 ap1 h2 m2 ap2 : string) :
  all_digits h1 = true -> h1 <> "" -> all_digits m1 = true ->
  ap1 = "AM" \/ ap1 = "PM" ->
  all_digits h2 = true -> all_digits m2 = true ->
  ap2 = "AM" \/ ap2 = "PM" ->
  count_char "," (" " +:+ time_words h1 m1 ap1 h2 m2 ap2) = O
  /\ Str.strip (" " +:+ time_words h1 m1 ap1 h2 m2 ap2)
     = time_words h1 m1 ap1 h2 m2 ap2.
Proof.
  intros Hh1 Hh1' Hm1 Hap1 Hh2 Hm2 Hap2. split.
  - unfold time_words. rewrite !count_char_app.
    rewrite (digits_no_comma h1 Hh1), (digits_no_comma m1 Hm1),
      (digits_no_comma h2 Hh2), (digits_no_comma m2 Hm2).
    destruct Hap1 as [-> | ->], Hap2 as [-> | ->]; reflexivity.
  - apply strip_lead.
    + apply (blocked_head _ Str.is_digit);
        [apply digit_not_space|rewrite all_in_digits; exact Hh1|exact Hh1'].
    + unfold time_words.
      rewrite <- !append_assoc.
      rewrite rstrip_app; destruct Hap2 as [-> | ->]; first [reflexivity|discriminate].
Qed.

(** X30: every timed label in the expected format is accepted: a plain
    title, a time range [H:MM AM to H:MM PM] and a date give the event with
    that title, on that day, with the two hours converted to the 24-hour
    clock, provided the day exists and the converted times are times of
    day.  Nothing relates the two times: the end may be before the start. *)
Theorem parse_event_timed_label (t h1 m1 ap1 h2 m2 ap2 W M dd yyyy : string)
    (H1 M1 H2 M2 d y : Z) :
  plain_title t -> W ∈ weekdays ->
  all_in Str.is_word M = true -> M <> "" ->
  all_digits dd = true -> int_ dd = Ok d ->
  all_digits yyyy = true -> String.length yyyy = 4%nat -> int_ yyyy = Ok y ->
  1 <= y -> 1 <= d <= days_in_month y (default 1 (month_map !! M)) ->
  all_digits h1 = true -> (String.length h1 <= 2)%nat -> int_ h1 = Ok H1 ->
  all_digits m1 = true -> String.length m1 = 2%nat -> int_ m1 = Ok M1 ->
  ap1 = "AM" \/ ap1 = "PM" ->
  all_digits h2 = true -> (String.length h2 <= 2)%nat -> int_ h2 = Ok H2 ->
  all_digits m2 = true -> String.length m2 = 2%nat -> int_ m2 = Ok M2 ->
  ap2 = "AM" \/ ap2 = "PM" ->
  0 <= to_24h (Some ap1) H1 <= 23 -> M1 <= 59 ->
  0 <= to_24h (Some ap2) H2 <= 23 -> M2 <= 59 ->
  parse_event (timed_label t h1 m1 ap1 h2 m2 ap2 W M dd yyyy)
  = Ok (Some (mk_event t
                (mk_datetime y (default 1 (month_map !! M)) d
                             (to_24h (Some ap1) H1) M1 0 0)
                (mk_datetime y (default 1 (month_map !! M)) d
                             (to_24h (Some ap2) H2) M2 0 0)
                false (timed_label t h1 m1 ap1 h2 m2 ap2 W M dd yyyy))).
Proof.
  intros (Ht1 & Ht2 & Ht3 & Ht4) HW HM HM' Hdd Hd Hyy Hyl Hy Hy1 Hd1
         Hh1 Lh1 Ih1 Hm1 Lm1 Im1 Hap1 Hh2 Lh2 Ih2 Hm2 Lm2 Im2 Hap2 R1 R1' R2 R2'.
  apply weekdays_words in HW as (pre & -> & Hpre & Hpre' & Wt & Wa & Ww).
  pose proof (int_nonempty dd d Hd) as Hdd'.
  pose proof (int_nonempty h1 H1 Ih1) as Hh1'.
  pose proof (int_nonempty h2 H2 Ih2) as Hh2'.
  assert (yyyy <> "") as Hyy' by (intros ->; discriminate Hyl).
  pose proof (int_year yyyy y Hyy Hyl Hy) as Hy2.
  pose proof (month_default_range (Some M)) as Hm.
  change (Some M ≫= (month_map !!.)) with (month_map !! M) in Hm.
  assert (0 <= M1 /\ 0 <= M2) as [R1'' R2''].
  { rewrite <- all_in_digits in Hm1, Hm2.
    destruct (int_digits_text m1 2 Hm1) as (v1 & Hv1 & Hb1); [lia|lia|].
    destruct (int_digits_text m2 2 Hm2) as (v2 & Hv2 & Hb2); [lia|lia|].
    rewrite Im1 in Hv1. rewrite Im2 in Hv2. inversion Hv1. inversion Hv2. lia. }
  destruct (segments_time_words h1 m1 ap1 h2 m2 ap2) as [Tc Ts]; try assumption.
  unfold parse_event. cbv zeta.
  set (raw0 := timed_label t h1 m1 ap1 h2 m2 ap2 (pre +:+ "day") M dd yyyy).
  set (tw := time_words h1 m1 ap1 h2 m2 ap2) in *.
  assert (Str.strip <$> Str.split "," raw0
          = [t; tw; pre +:+ "day"; M +:+ " " +:+ dd; yyyy]) as ->.
  { subst raw0.
    change (timed_label t h1 m1 ap1 h2 m2 ap2 (pre +:+ "day") M dd yyyy)
      with (t +:+ String "," ((" " +:+ tw) +:+ String ","
              (" " +:+ date_words (pre +:+ "day") M dd yyyy))).
    rewrite split_app by exact Ht1. rewrite split_app by exact Tc.
    cbn [fmap list_fmap]. fold (fmap (M := list) Str.strip).
    rewrite segments_date_words by assumption. rewrite Ht2, Ts. reflexivity. }
  set (parts := [t; tw; pre +:+ "day"; M +:+ " " +:+ dd; yyyy]).
  destruct (decide (length parts < 3)%nat) as [Hlt|_]; [cbn in Hlt; lia|].
  change (default "" (parts !! 0%nat)) with t. rewrite Ht3, Ht4. cbn [orb].
  change (drop 1 parts) with [tw; pre +:+ "day"; M +:+ " " +:+ dd; yyyy].
  rewrite scan_time_step by (apply time_words_marker, Hap1).
  rewrite scan_date_step by assumption.
  cbn [date_part time_part all_day_flag scan_init opt_truthy].
  assert (build_date_part parts 2 (pre +:+ "day")
          = date_words (pre +:+ "day") M dd yyyy) as ->.
  { unfold build_date_part, date_words.
    destruct (decide (2 + 2 < length parts)%nat) as [_|Hn]; [|cbn in Hn; lia].
    change (default "" (parts !! (2 + 1)%nat)) with (M +:+ " " +:+ dd).
    change (default "" (parts !! (2 + 2)%nat)) with yyyy.
    rewrite !append_assoc. reflexivity. }
  assert (Str.truthy (date_words (pre +:+ "day") M dd yyyy) = true) as ->.
  { unfold date_words. destruct pre; [contradiction|reflexivity]. }
  cbn [negb].
  change (default "" (Some ?x)) with x.
  unfold parse_date_time. rewrite date_re_date_words by assumption.
  cbv zeta. cbn [group Nat.eqb int_group all_day_flag time_part opt_truthy].
  rewrite Hd, bind_value, Hy, bind_value.
  change (Some M ≫= (month_map !!.)) with (month_map !! M).
  assert (Str.truthy tw = true) as ->.
  { subst tw. unfold time_words. destruct h1; [contradiction|reflexivity]. }
  change (default "" (Some tw)) with tw. subst tw.
  rewrite time_re_time_words; try assumption;
    [|split; [apply length_pos, Hh1'|exact Lh1]|split; [apply length_pos, Hh2'|exact Lh2]].
  cbn [group Nat.eqb int_group].
  rewrite Ih1, bind_value, Im1, bind_value, Ih2, bind_value, Im2, bind_value.
  rewrite !datetime_new_valid by lia. rewrite !bind_value. reflexivity.
Qed.

Lemma parse_event_all_day_label_witness :
  parse_event scenario2
  = Ok (Some (mk_event "Offsite" (mk_datetime 2026 2 3 0 0 0 0)
                       (mk_datetime 2026 2 3 23 59 0 0) true scenario2)).
Proof.
  apply (parse_event_all_day_label "Offsite" "Tuesday" "February" "3" "2026" 3 2026).
  - split_and!; reflexivity.
  - right; left.
  - reflexivity.
  - discriminate.
  - reflexivity.
  - reflexivity.
  - reflexivity.
  - reflexivity.
  - reflexivity.
  - lia.
  - vm_compute. split; discriminate.
Defined.

Lemma parse_event_timed_label_witness :
  parse_event "Late, 11:00 PM to 1:00 AM, Friday, March 6, 2026"
  = Ok (Some (mk_event "Late" (mk_datetime 2026 3 6 23 0 0 0)
                       (mk_datetime 2026 3 6 1 0 0 0) false
                       "Late, 11:00 PM to 1:00 AM, Friday, March 6, 2026")).
Proof.
  apply (parse_event_timed_label "Late" "11" "00" "PM" "1" "00" "AM"
           "Friday" "March" "6" "2026" 11 0 1 0 6 2026).
  - split_and!; reflexivity.
  - do 4 right; left.
  - reflexivity.
  - discriminate.
  - reflexivity.
  - reflexivity.
  - reflexivity.
  - reflexivity.
  - reflexivity.
  - lia.
  - vm_compute. split; discriminate.
  - reflexivity.
  - cbn; lia.
  - reflexivity.
  - reflexivity.
  - reflexivity.
  - reflexivity.
  - right; reflexivity.
  - reflexivity.
  - cbn; lia.
  - reflexivity.
  - reflexivity.
  - reflexivity.
  - reflexivity.
  - left; reflexivity.
  - vm_compute. split; discriminate.
  - lia.
  - vm_compute. split; discriminate.
  - lia.
Defined.


(** ** The hour rule *)

Lemma to_24h_hour_rule (ap : string) (h : Z) :
  ap = "AM" \/ ap = "PM" -> to_24h (Some ap) h = hour_rule ap h.
Proof.
  intros [-> | ->]; unfold to_24h, hour_rule.
  - rewrite bool_decide_eq_false_2 by discriminate.
    rewrite bool_decide_eq_true_2 by reflexivity.
    cbn [andb String.eqb Ascii.eqb Bool.eqb]. reflexivity.
  - rewrite bool_decide_eq_true_2 by reflexivity.
    cbn [andb String.eqb Ascii.eqb Bool.eqb].
    destruct (h =? 12) eqn:E; cbn [negb]; [|reflexivity].
    rewrite bool_decide_eq_false_2 by discriminate. cbn [andb].
    apply Z.eqb_eq in E. lia.
Qed.

(** C2: scenario 1 is accepted with title "Team Sync", start 2026-02-03
    10:00, end 2026-02-03 11:00 and [all_day = false]; and whatever time
    range stands in its place, [parse_event] applies the 12-hour rule to
    both hours: 12 AM gives hour 0, 12 PM stays 12, the hours 1 to 11 gain
    12 when PM and are kept when AM. *)
Theorem parse_event_scenario1 (h1 m1 ap1 h2 m2 ap2 : string) (H1 M1 H2 M2 : Z) :
  all_digits h1 = true -> (String.length h1 <= 2)%nat -> int_ h1 = Ok H1 ->
  1 <= H1 <= 12 ->
  all_digits m1 = true -> String.length m1 = 2%nat -> int_ m1 = Ok M1 -> M1 <= 59 ->
  ap1 = "AM" \/ ap1 = "PM" ->
  all_digits h2 = true -> (String.length h2 <= 2)%nat -> int_ h2 = Ok H2 ->
  1 <= H2 <= 12 ->
  all_digits m2 = true -> String.length m2 = 2%nat -> int_ m2 = Ok M2 -> M2 <= 59 ->
  ap2 = "AM" \/ ap2 = "PM" ->
  parse_event scenario1
  = Ok (Some (mk_event "Team Sync" (mk_datetime 2026 2 3 10 0 0 0)
                       (mk_datetime 2026 2 3 11 0 0 0) false scenario1))
  /\ parse_event (scenario1_at h1 m1 ap1 h2 m2 ap2)
     = Ok (Some (mk_event "Team Sync"
                   (mk_datetime 2026 2 3 (hour_rule ap1 H1) M1 0 0)
                   (mk_datetime 2026 2 3 (hour_rule ap2 H2) M2 0 0)
                   false (scenario1_at h1 m1 ap1 h2 m2 ap2))).
Proof.
  intros Hh1 Lh1 Ih1 R1 Hm1 Lm1 Im1 R1' Hap1 Hh2 Lh2 Ih2 R2 Hm2 Lm2 Im2 R2' Hap2.
  split; [vm_compute; reflexivity|].
  pose proof (int_nonempty h1 H1 Ih1) as Hh1'.
  pose proof (int_nonempty h2 H2 Ih2) as Hh2'.
  assert (0 <= M1 /\ 0 <= M2) as [R1'' R2''].
  { rewrite <- all_in_digits in Hm1, Hm2.
    destruct (int_digits_text m1 2 Hm1) as (v1 & Hv1 & Hb1); [lia|lia|].
    destruct (int_digits_text m2 2 Hm2) as (v2 & Hv2 & Hb2); [lia|lia|].
    rewrite Im1 in Hv1. rewrite Im2 in Hv2. inversion Hv1. inversion Hv2. lia. }
  destruct (segments_time_words h1 m1 ap1 h2 m2 ap2) as [Tc Ts]; try assumption.
  unfold parse_event. cbv zeta.
  set (raw0 := scenario1_at h1 m1 ap1 h2 m2 ap2).
  set (tw := time_words h1 m1 ap1 h2 m2 ap2) in *.
  assert (Str.strip <$> Str.split "," raw0
          = ["Team Sync"; tw; "Tuesday"; "February 3"; "2026"; "extra"]) as ->.
  { subst raw0.
    change (scenario1_at h1 m1 ap1 h2 m2 ap2)
      with ("Team Sync" +:+ String "," ((" " +:+ tw) +:+ String ","
              " Tuesday, February 3, 2026, extra")).
    rewrite split_app by reflexivity. rewrite split_app by exact Tc.
    cbn [fmap list_fmap]. fold (fmap (M := list) Str.strip). rewrite Ts.
    reflexivity. }
  set (parts := ["Team Sync"; tw; "Tuesday"; "February 3"; "2026"; "extra"]).
  destruct (decide (length parts < 3)%nat) as [Hlt|_]; [cbn in Hlt; lia|].
  change (default "" (parts !! 0%nat)) with "Team Sync".
  change (Str.startswith "calendar view" "Team Sync"
          || Str.startswith "current time" "Team Sync") with false. cbv iota.
  change (drop 1 parts) with [tw; "Tuesday"; "February 3"; "2026"; "extra"].
  rewrite scan_time_step by (apply time_words_marker, Hap1).
  rewrite scan_date_step by reflexivity.
  cbn [date_part time_part all_day_flag scan_init opt_truthy].
  assert (build_date_part parts 2 "Tuesday" = "Tuesday, February 3, 2026") as ->.
  { unfold build_date_part.
    destruct (decide (2 + 2 < length parts)%nat) as [_|Hn]; [|cbn in Hn; lia].
    reflexivity. }
  change (Str.truthy "Tuesday, February 3, 2026") with true. cbn [negb].
  change (default "" (Some ?x)) with x.
  unfold parse_date_time.
  assert (search date_re "Tuesday, February 3, 2026"
          = Some [(4%nat, "2026"); (3%nat, "3"); (2%nat, "February");
                  (1%nat, "Tuesday")]) as -> by (vm_compute; reflexivity).
  cbv zeta. cbn [group Nat.eqb int_group all_day_flag time_part opt_truthy].
  change (int_ "3") with (@Ok Z 3). change (int_ "2026") with (@Ok Z 2026).
  rewrite !bind_value.
  assert (default 1 (Some "February" ≫= (month_map !!.)) = 2) as ->
    by (vm_compute; reflexivity).
  assert (Str.truthy tw = true) as ->.
  { subst tw. unfold time_words. destruct h1; [contradiction|reflexivity]. }
  change (default "" (Some tw)) with tw. subst tw.
  rewrite time_re_time_words; try assumption;
    [|split; [apply length_pos, Hh1'|exact Lh1]|split; [apply length_pos, Hh2'|exact Lh2]].
  cbn [group Nat.eqb int_group].
  rewrite Ih1, bind_value, Im1, bind_value, Ih2, bind_value, Im2, bind_value.
  rewrite !to_24h_hour_rule by assumption.
  assert (0 <= hour_rule ap1 H1 <= 23 /\ 0 <= hour_rule ap2 H2 <= 23) as [Q1 Q2].
  { unfold hour_rule. destruct (String.eqb ap1 "PM"), (String.eqb ap2 "PM"),
      (H1 =? 12) eqn:E1, (H2 =? 12) eqn:E2;
      try apply Z.eqb_neq in E1; try apply Z.eqb_neq in E2; lia. }
  rewrite !datetime_new_valid by (first [lia|vm_compute; split; discriminate]).
  rewrite !bind_value. reflexivity.
Qed.

Lemma parse_event_scenario1_witness :
  parse_event scenario1
  = Ok (Some (mk_event "Team Sync" (mk_datetime 2026 2 3 10 0 0 0)
                       (mk_datetime 2026 2 3 11 0 0 0) false scenario1))
  /\ parse_event "Team Sync, 12:00 AM to 12:30 PM, Tuesday, February 3, 2026, extra"
     = Ok (Some (mk_event "Team Sync" (mk_datetime 2026 2 3 0 0 0 0)
                          (mk_datetime 2026 2 3 12 30 0 0) false
                          "Team Sync, 12:00 AM to 12:30 PM, Tuesday, February 3, 2026, extra")).
Proof.
  apply (parse_event_scenario1 "12" "00" "AM" "12" "30" "PM" 12 0 12 30);
    first [reflexivity | lia | (left; reflexivity) | (right; reflexivity) | (cbn; lia)].
Defined.
